(** * MangaUpscaler: a shallow embedding of [manga-upscaler.py]

    The script is glue around an external upscaling executable: it walks a
    directory (flat or one level of chapter folders), runs the executable once
    per image, draws a progress bar, and optionally writes store-only zip
    archives of the output.  This development embeds that behaviour:

    - Python [int] is [Z]; Python [str] is [string], one [ascii] standing for
      one character (names outside the 8-bit range are not represented);
    - a [pathlib.Path] is the list of its components below the root; only
      absolute paths without [.] and [..] components are represented, and no
      drive prefix is rendered;
    - the file system is a tree ([Node]); the order of a directory's entry
      list is the order in which the operating system lists them;
    - everything the script cannot decide by itself (the platform name, what
      the external executable does, whether an archive member write or a
      directory removal fails, what [vulkaninfo] prints) is a field of the
      [Host] record, over which every statement is quantified;
    - functions with effects are state-passing functions in the monad [M]:
      they take the file system and return a result or a raised exception,
      the new file system, and the list of events they emitted (console
      output and calls to external programs), in order;
    - floating point formatting is left out: the percentage of a progress
      line is kept as the exact rational it is computed from, and the size
      shown after an archive is written is not part of the event. *)

From Stdlib Require Import List String Ascii ZArith Lia Bool QArith.
From Stdlib Require Import DecimalString Sorted Permutation.
Import ListNotations.

Local Open Scope string_scope.
Local Open Scope Z_scope.

(** ** Strings *)

(** [str(n)] for an [int]. *)
Definition str_of_int (n : Z) : string :=
  NilZero.string_of_int (Z.to_int n).

(** [s * n] for a string [s] and a non-negative count. *)
Fixpoint str_mul (s : string) (n : nat) : string :=
  match n with
  | O => ""
  | S n' => s ++ str_mul s n'
  end.

(** [sep.join(l)]. *)
Fixpoint str_join (sep : string) (l : list string) : string :=
  match l with
  | [] => ""
  | [x] => x
  | x :: r => x ++ sep ++ str_join sep r
  end.

Definition str_rev (s : string) : string :=
  string_of_list_ascii (rev (list_ascii_of_string s)).

(** [s.endswith(suffix)]. *)
Definition endswith (s suffix : string) : bool :=
  prefix (str_rev suffix) (str_rev s).

(** [s.startswith(p)]. *)
Definition startswith (s p : string) : bool := prefix p s.

(** [s[:n]]. *)
Definition str_take (n : nat) (s : string) : string := substring 0 n s.

(** Lower-casing of the ASCII letters, all that [str.lower] does on ASCII. *)
Definition lower_ascii (c : ascii) : ascii :=
  let n := nat_of_ascii c in
  if (Nat.leb 65 n && Nat.leb n 90)%bool then ascii_of_nat (n + 32) else c.

Fixpoint str_lower (s : string) : string :=
  match s with
  | EmptyString => EmptyString
  | String c r => String (lower_ascii c) (str_lower r)
  end.

(** ** The platform *)

(** The values of [platform.system()] the script distinguishes. *)
Inductive System := Windows | Linux | Darwin | OtherSystem (name : string).

Definition is_windows (s : System) : bool :=
  match s with Windows => true | _ => false end.

(** pathlib compares and matches names case-insensitively on Windows and
    exactly elsewhere. *)
Definition normcase (s : System) (name : string) : string :=
  if is_windows s then str_lower name else name.

(** ** Paths *)

Definition Path := list string.

(** [p / name]. *)
Definition joinpath (p : Path) (name : string) : Path := (p ++ [name])%list.

(** [p.name]: the last component, empty for the root. *)
Definition path_name (p : Path) : string := last p "".

(** [p.parent]: the root is its own parent. *)
Definition path_parent (p : Path) : Path := removelast p.

Definition os_sep (s : System) : string :=
  if is_windows s then "\" else "/".

(** [str(p)]. *)
Definition path_str (s : System) (p : Path) : string :=
  match p with
  | [] => os_sep s
  | _ => String.concat "" (map (fun c => os_sep s ++ c) p)
  end.

(** Order of two paths as pathlib defines it: component by component, each
    component by code point after [normcase]. *)
Fixpoint path_compare (s : System) (a b : Path) : comparison :=
  match a, b with
  | [], [] => Eq
  | [], _ :: _ => Lt
  | _ :: _, [] => Gt
  | x :: a', y :: b' =>
      match String.compare (normcase s x) (normcase s y) with
      | Eq => path_compare s a' b'
      | c => c
      end
  end.

Definition path_leb (s : System) (a b : Path) : bool :=
  match path_compare s a b with Gt => false | _ => true end.

(** [sorted(l)]: Python's sort is stable; so is this insertion sort. *)
Fixpoint insert_sorted {A} (leb : A -> A -> bool) (x : A) (l : list A) : list A :=
  match l with
  | [] => [x]
  | y :: r => if leb x y then x :: l else y :: insert_sorted leb x r
  end.

Fixpoint sorted_by {A} (leb : A -> A -> bool) (l : list A) : list A :=
  match l with
  | [] => []
  | x :: r => insert_sorted leb x (sorted_by leb r)
  end.

Definition sorted (s : System) (l : list Path) : list Path :=
  sorted_by (path_leb s) l.

(** ** Exceptions *)

(** The exception classes the script raises, catches or lets through.  An
    exception raised by the operating system carries the path it is about;
    [FileNotFoundError_msg] is [FileNotFoundError(msg)] raised by the script
    itself, and [ModelError_from before cause] is
    [ModelError(f"{before}{cause}")]. *)
Inductive Exn :=
| FileNotFoundError (p : Path)
| FileNotFoundError_msg (msg : string)
| FileExistsError (p : Path)
| NotADirectoryError (p : Path)
| IsADirectoryError (p : Path)
| OSError (msg : string)
| ZeroDivisionError (msg : string)
| OverflowError (msg : string)
| MemoryError (msg : string)
| ModelError (msg : string)
| ModelError_from (before : string) (cause : Exn).

(** ** The file system *)

Inductive Node :=
| File
| Dir (entries : list (string * Node)).

Definition Entries := list (string * Node).

Fixpoint assoc_get (k : string) (es : Entries) : option Node :=
  match es with
  | [] => None
  | (k', v) :: r => if String.eqb k k' then Some v else assoc_get k r
  end.

(** Replace the entry named [k] where it stands, or add it at the end. *)
Fixpoint assoc_set (k : string) (v : Node) (es : Entries) : Entries :=
  match es with
  | [] => [(k, v)]
  | (k', v') :: r =>
      if String.eqb k k' then (k, v) :: r else (k', v') :: assoc_set k v r
  end.

Fixpoint assoc_del (k : string) (es : Entries) : Entries :=
  match es with
  | [] => []
  | (k', v') :: r =>
      if String.eqb k k' then assoc_del k r else (k', v') :: assoc_del k r
  end.

Fixpoint lookup (p : Path) (n : Node) : option Node :=
  match p with
  | [] => Some n
  | c :: p' =>
      match n with
      | File => None
      | Dir es =>
          match assoc_get c es with
          | Some ch => lookup p' ch
          | None => None
          end
      end
  end.

Definition node_is_dir (n : Node) : bool :=
  match n with Dir _ => true | File => false end.

Definition node_is_file (n : Node) : bool :=
  match n with File => true | Dir _ => false end.

(** [p.exists()], [p.is_dir()], [p.is_file()]. *)
Definition path_exists (p : Path) (fs : Node) : bool :=
  match lookup p fs with Some _ => true | None => false end.

Definition is_dir (p : Path) (fs : Node) : bool :=
  match lookup p fs with Some n => node_is_dir n | None => false end.

Definition is_file (p : Path) (fs : Node) : bool :=
  match lookup p fs with Some n => node_is_file n | None => false end.

(** The entries of a directory, nothing for a file or a missing path. *)
Definition listdir (p : Path) (fs : Node) : Entries :=
  match lookup p fs with
  | Some (Dir es) => es
  | _ => []
  end.

(** [p.iterdir()], which raises when [p] is not a directory. *)
Definition iterdir (p : Path) (fs : Node) : Exn + list Path :=
  match lookup p fs with
  | Some (Dir es) => inr (map (fun e => joinpath p (fst e)) es)
  | Some File => inl (NotADirectoryError p)
  | None => inl (FileNotFoundError p)
  end.

(** Whether [name] matches the pattern ["*" + suffix]. *)
Definition fnmatch_star (s : System) (name suffix : string) : bool :=
  endswith (normcase s name) (normcase s suffix).

(** [p.glob("*" + suffix)]: the entries of [p], of any kind, whose name
    matches; nothing when [p] is not a directory. *)
Definition glob (s : System) (p : Path) (suffix : string) (fs : Node)
  : list Path :=
  map (fun e => joinpath p (fst e))
      (filter (fun e => fnmatch_star s (fst e) suffix) (listdir p fs)).

(** [p.rglob("*")]: the entries of [p], then those of each of its
    subdirectories in turn, recursively. *)
Fixpoint rglob_node (n : Node) : list (Path * Node) :=
  match n with
  | File => []
  | Dir es =>
      (map (fun e => ([fst e], snd e)) es
       ++ (fix below (l : Entries) : list (Path * Node) :=
             match l with
             | [] => []
             | (name, ch) :: r =>
                 map (fun q => (name :: fst q, snd q)) (rglob_node ch)
                 ++ below r
             end) es)%list
  end.

Definition rglob (p : Path) (fs : Node) : list (Path * Node) :=
  match lookup p fs with
  | Some n => map (fun q => ((p ++ fst q)%list, snd q)) (rglob_node n)
  | None => []
  end.

(** A chain of new directories, one inside the other. *)
Fixpoint fresh_dirs (p : Path) : Node :=
  match p with
  | [] => Dir []
  | c :: p' => Dir [(c, fresh_dirs p')]
  end.

Fixpoint mkdir_go (p : Path) (n : Node) : (Path -> Exn) + Node :=
  match n with
  | File =>
      match p with
      | [] => inl FileExistsError
      | _ :: _ => inl NotADirectoryError
      end
  | Dir es =>
      match p with
      | [] => inr n
      | c :: p' =>
          match assoc_get c es with
          | Some ch =>
              match mkdir_go p' ch with
              | inr ch' => inr (Dir (assoc_set c ch' es))
              | inl e => inl e
              end
          | None => inr (Dir (es ++ [(c, fresh_dirs p')]))
          end
      end
  end.

(** [p.mkdir(parents=True, exist_ok=True)]. *)
Definition mkdir_p (p : Path) (fs : Node) : Exn + Node :=
  match mkdir_go p fs with
  | inr fs' => inr fs'
  | inl e => inl (e p)
  end.

Fixpoint write_go (p : Path) (n : Node) : (Path -> Exn) + Node :=
  match n with
  | File =>
      match p with
      | [] => inr File
      | _ :: _ => inl NotADirectoryError
      end
  | Dir es =>
      match p with
      | [] => inl IsADirectoryError
      | c :: p' =>
          match assoc_get c es with
          | Some ch =>
              match write_go p' ch with
              | inr ch' => inr (Dir (assoc_set c ch' es))
              | inl e => inl e
              end
          | None =>
              match p' with
              | [] => inr (Dir (es ++ [(c, File)]))
              | _ :: _ => inl FileNotFoundError
              end
          end
      end
  end.

(** Opening [p] for writing: the file is created, or truncated if it is
    there; its directory must exist. *)
Definition write_file (p : Path) (fs : Node) : Exn + Node :=
  match write_go p fs with
  | inr fs' => inr fs'
  | inl e => inl (e p)
  end.

Fixpoint remove_go (p : Path) (n : Node) : Node :=
  match p, n with
  | [c], Dir es => Dir (assoc_del c es)
  | c :: p', Dir es =>
      match assoc_get c es with
      | Some ch => Dir (assoc_set c (remove_go p' ch) es)
      | None => n
      end
  | _, _ => n
  end.

(** What [shutil.rmtree(p)] does when nothing goes wrong below [p]: the
    directory and all it holds are gone.  The root cannot be removed, only
    emptied. *)
Definition rmtree_fs (p : Path) (fs : Node) : Exn + Node :=
  match lookup p fs with
  | None => inl (FileNotFoundError p)
  | Some File => inl (NotADirectoryError p)
  | Some (Dir _) =>
      match p with
      | [] => inl (OSError "cannot remove the root directory")
      | _ :: _ => inr (remove_go p fs)
      end
  end.

(** [p.unlink()]. *)
Definition unlink (p : Path) (fs : Node) : Exn + Node :=
  match lookup p fs with
  | None => inl (FileNotFoundError p)
  | Some (Dir _) => inl (IsADirectoryError p)
  | Some File => inr (remove_go p fs)
  end.

(** Put the node [n] at [p], whose directory must exist. *)
Fixpoint put_go (p : Path) (new : Node) (n : Node) : (Path -> Exn) + Node :=
  match n with
  | File => inl NotADirectoryError
  | Dir es =>
      match p with
      | [] => inl FileExistsError
      | [c] => inr (Dir (assoc_set c new es))
      | c :: p' =>
          match assoc_get c es with
          | Some ch =>
              match put_go p' new ch with
              | inr ch' => inr (Dir (assoc_set c ch' es))
              | inl e => inl e
              end
          | None => inl FileNotFoundError
          end
      end
  end.

(** [p.mkdir(exist_ok=True)]: the parent must be there. *)
Definition mkdir_exist_ok (p : Path) (fs : Node) : Exn + Node :=
  match lookup p fs with
  | Some (Dir _) => inr fs
  | Some File => inl (FileExistsError p)
  | None =>
      match put_go p (Dir []) fs with
      | inr fs' => inr fs'
      | inl e => inl (e p)
      end
  end.

(** [shutil.copytree(src, dst)]: [dst] must not exist. *)
Definition copytree (src dst : Path) (fs : Node) : Exn + Node :=
  match lookup src fs with
  | None => inl (FileNotFoundError src)
  | Some File => inl (NotADirectoryError src)
  | Some (Dir es) =>
      match lookup dst fs with
      | Some _ => inl (FileExistsError dst)
      | None =>
          match put_go dst (Dir es) fs with
          | inr fs' => inr fs'
          | inl e => inl (e dst)
          end
      end
  end.

(** [shutil.copy2(src, dst)] for a destination that is not a directory. *)
Definition copy2 (src dst : Path) (fs : Node) : Exn + Node :=
  match lookup src fs with
  | None => inl (FileNotFoundError src)
  | Some (Dir _) => inl (IsADirectoryError src)
  | Some File => write_file dst fs
  end.

(** ** Events, the host and the effect monad *)

(** One cell of a progress bar: a full block or a light shade. *)
Inductive Cell := Full | Shade.

Inductive Event :=
| Print (text : string)
  (** [print(text)] *)
| PrintExn (before : string) (e : Exn) (after : string)
  (** [print(f"{before}{e}{after}")] for a caught exception [e] *)
| PrintCreated (zip_name : string)
  (** [print(f"   Created: {zip_name} ({size:.1f} MB)")] *)
| PrintTotalSize (total_size : Z)
  (** [print(f"   Total size: {total_size / (1024*1024):.1f} MB")] *)
| Draw (bar : list Cell) (percent : Q) (status : string)
  (** [print(f'\r   [{bar}] {percent:.1f}%{status}', end='')] *)
| Newline
  (** [print()] *)
| Run (cmd : list string)
  (** [subprocess.run(cmd, capture_output=True, text=True, timeout=...)] *)
| ZipWrite (zip_path file_path arcname : Path)
  (** [zipf.write(file_path, arcname)] on the archive at [zip_path] *)
| Rmtree (p : Path)
  (** [shutil.rmtree(p)] *).

(** How a [subprocess.run] call ends. *)
Inductive RunOutcome :=
| Completed (returncode : Z) (stdout : string)
| TimeoutExpired
| RunRaised (e : Exn).

Record Host := {
  system : System;
    (** [platform.system()] *)
  script_dir : Path;
    (** [Path(__file__).parent] *)
  subprocess_run : list string -> Node -> RunOutcome * Node;
    (** the outcome of running a command and what it leaves on disk *)
  zip_write_error : Path -> Path -> option Exn;
    (** whether writing a member into an archive raises *)
  rmtree_error : Path -> option Exn;
    (** whether removing a directory tree raises *)
  urlretrieve_blocks : string -> list (Z * Z * Z) * option Exn;
    (** the progress callbacks a download of this URL makes, each with the
        block number, the block size and the total size, and the
        exception that ends it, if any *)
  bar_error : Z -> option Exn;
    (** whether building a piece of the download bar of this many cells
        raises: [OverflowError] beyond the size of an index,
        [MemoryError] when memory runs out *)
  archive_members : string -> Exn + list (Path * bool)
    (** the members of the archive downloaded from this URL, in order,
        each with its path and whether it is a directory; or the exception
        raised on reading it *)
}.

Inductive Result (A : Type) :=
| Ok (a : A)
| Raise (e : Exn).
Arguments Ok {A} a.
Arguments Raise {A} e.

Definition M (A : Type) : Type := Node -> Result A * Node * list Event.

Definition ret {A} (a : A) : M A := fun fs => (Ok a, fs, []).

Definition bind {A B} (c : M A) (k : A -> M B) : M B :=
  fun fs =>
    match c fs with
    | (Ok a, fs1, ev1) =>
        match k a fs1 with
        | (r, fs2, ev2) => (r, fs2, (ev1 ++ ev2)%list)
        end
    | (Raise e, fs1, ev1) => (Raise e, fs1, ev1)
    end.

Notation "x <- c ;; k" := (bind c (fun x => k))
  (at level 61, c at next level, right associativity).
Notation "c ;;; k" := (bind c (fun _ => k))
  (at level 61, right associativity).

Definition raise {A} (e : Exn) : M A := fun fs => (Raise e, fs, []).

Definition emit (l : list Event) : M unit := fun fs => (Ok tt, fs, l).

Definition print (text : string) : M unit := emit [Print text].

(** Reading the file system. *)
Definition ask {A} (f : Node -> A) : M A := fun fs => (Ok (f fs), fs, []).

(** A file-system operation that either raises or changes the tree. *)
Definition change (f : Node -> Exn + Node) : M unit :=
  fun fs =>
    match f fs with
    | inr fs' => (Ok tt, fs', [])
    | inl e => (Raise e, fs, [])
    end.

(** A file-system query that may raise. *)
Definition query {A} (f : Node -> Exn + A) : M A :=
  fun fs =>
    match f fs with
    | inr a => (Ok a, fs, [])
    | inl e => (Raise e, fs, [])
    end.

(** [try: c  except Exception as e: h e]. *)
Definition try_except {A} (c : M A) (h : Exn -> M A) : M A :=
  fun fs =>
    match c fs with
    | (Ok a, fs1, ev1) => (Ok a, fs1, ev1)
    | (Raise e, fs1, ev1) =>
        match h e fs1 with
        | (r, fs2, ev2) => (r, fs2, (ev1 ++ ev2)%list)
        end
    end.

(** The three parts of what a computation leaves. *)
Definition result_of {A} (x : Result A * Node * list Event) : Result A :=
  fst (fst x).
Definition fs_of {A} (x : Result A * Node * list Event) : Node :=
  snd (fst x).
Definition events_of {A} (x : Result A * Node * list Event) : list Event :=
  snd x.

(** The events [l] followed by what [x] leaves. *)
Definition prepend {A} (l : list Event) (x : Result A * Node * list Event)
  : Result A * Node * list Event :=
  (result_of x, fs_of x, (l ++ events_of x)%list).

(** ** [class ProgressTracker] *)

Record ProgressTracker := {
  total_items : Z;
  current_item : Z;
  description : string;
  bar_length : Z
}.

(** The label shown after the counter: names longer than 40 characters are
    cut to 37 and three dots. *)
Definition shown_name (item_name : string) : string :=
  if Nat.ltb 40 (String.length item_name)
  then str_take 37 item_name ++ "..."
  else item_name.

(** [ProgressTracker._display]: what it prints.  The percentage is kept as
    the exact quotient.  On an object made and updated through the class the
    count is at most the total plus the number of updates and the bar length
    is 50, so the quotient is a float and the bar is short. *)
Definition _display (t : ProgressTracker) (item_name : option string)
  : list Event :=
  if total_items t =? 0 then []
  else
    let percent :=
      ((inject_Z (current_item t) / inject_Z (total_items t)) * 100)%Q in
    let filled_length := (bar_length t * current_item t) / total_items t in
    let bar :=
      (repeat Full (Z.to_nat filled_length)
       ++ repeat Shade (Z.to_nat (bar_length t - filled_length)))%list in
    let status :=
      "[" ++ str_of_int (current_item t) ++ "/"
          ++ str_of_int (total_items t) ++ "]" in
    let status :=
      match item_name with
      | Some name =>
          if String.eqb name "" then status
          else status ++ " " ++ shown_name name
      | None => status
      end in
    (Draw bar percent (" " ++ status)
     :: (if current_item t >=? total_items t then [Newline] else []))%list.

(** [ProgressTracker(total_items, description)]. *)
Definition ProgressTracker_init (total : Z) (descr : string)
  : ProgressTracker * list Event :=
  let t := {| total_items := total; current_item := 0;
              description := descr; bar_length := 50 |} in
  (t, _display t None).

Definition set_current (t : ProgressTracker) (c : Z) : ProgressTracker :=
  {| total_items := total_items t; current_item := c;
     description := description t; bar_length := bar_length t |}.

(** [ProgressTracker.update]. *)
Definition update (t : ProgressTracker) (item_name : option string)
  : ProgressTracker * list Event :=
  let t' := set_current t (current_item t + 1) in
  (t', _display t' item_name).

(** [ProgressTracker.finish]. *)
Definition finish (t : ProgressTracker) : ProgressTracker * list Event :=
  if current_item t <? total_items t then
    let t' := set_current t (total_items t) in
    (t', (_display t' None ++ [Newline])%list)
  else (t, [Newline]).

(** ** More string operations *)

Definition nl : string := String (ascii_of_nat 10) "".

(** [str.isspace] on one character of the 8-bit range. *)
Definition is_space (c : ascii) : bool :=
  let n := nat_of_ascii c in
  ((Nat.leb 9 n && Nat.leb n 13) || (Nat.leb 28 n && Nat.leb n 32)
   || Nat.eqb n 133 || Nat.eqb n 160)%bool.

Fixpoint lstrip (s : string) : string :=
  match s with
  | EmptyString => EmptyString
  | String c r => if is_space c then lstrip r else s
  end.

Definition rstrip (s : string) : string := str_rev (lstrip (str_rev s)).

(** [s.strip()]. *)
Definition strip (s : string) : string := rstrip (lstrip s).

(** [s[n:]]. *)
Fixpoint str_drop (n : nat) (s : string) : string :=
  match n, s with
  | O, _ => s
  | S n', String _ r => str_drop n' r
  | S _, EmptyString => EmptyString
  end.

(** [sub in s]. *)
Fixpoint str_contains (sub s : string) : bool :=
  if prefix sub s then true
  else match s with
       | EmptyString => false
       | String _ r => str_contains sub r
       end.

(** [s.split(sep)] for a separator of one character. *)
Fixpoint str_split (sep : ascii) (s : string) : list string :=
  match s with
  | EmptyString => [""]
  | String c r =>
      if Ascii.eqb c sep then "" :: str_split sep r
      else match str_split sep r with
           | [] => [String c ""]
           | l :: ls => String c l :: ls
           end
  end.

(** [s.split('\n')]. *)
Definition split_lines (s : string) : list string :=
  str_split (ascii_of_nat 10) s.

(** ** Dictionaries of settings *)

(** A [dict] from setting names to integers, in insertion order. *)
Definition Dict := list (string * Z).

Fixpoint dict_get (k : string) (d : Dict) : option Z :=
  match d with
  | [] => None
  | (k', v) :: r => if String.eqb k k' then Some v else dict_get k r
  end.

(** [d[k] = v]: an existing key keeps its place. *)
Fixpoint dict_set (k : string) (v : Z) (d : Dict) : Dict :=
  match d with
  | [] => [(k, v)]
  | (k', v') :: r =>
      if String.eqb k k' then (k, v) :: r else (k', v') :: dict_set k v r
  end.

(** The truth value of an optional dictionary: [None] and [{}] are false. *)
Definition truthy (d : option Dict) : option Dict :=
  match d with
  | Some [] => None
  | _ => d
  end.

(** ** Module constants *)

Definition BIN_DIR (h : Host) : Path := joinpath (script_dir h) "bin".
Definition MODELS_DIR (h : Host) : Path := joinpath (script_dir h) "models".

(** The keys of [AVAILABLE_MODELS]. *)
Definition AVAILABLE_MODELS_keys : list string := ["waifu2x"].

(** The [min] and [max] that [AVAILABLE_MODELS] declares for each quality
    setting of waifu2x. *)
Definition quality_settings_range : list (string * (Z * Z)) :=
  [("denoise_level", (-1, 3)); ("tile_size", (0, 2048)); ("gpu_id", (0, 16))].

(** [QUALITY_PRESETS["waifu2x"]]. *)
Definition QUALITY_PRESETS_waifu2x : list (string * Dict) :=
  [("fast", [("denoise_level", -1); ("tile_size", 400)]);
   ("balanced", [("denoise_level", 0); ("tile_size", 0)]);
   ("quality", [("denoise_level", 2); ("tile_size", 200)])].

Definition exe_name (h : Host) : string :=
  if is_windows (system h) then "waifu2x-ncnn-vulkan.exe"
  else "waifu2x-ncnn-vulkan".

Definition waifu_bin (h : Host) : Path := joinpath (BIN_DIR h) (exe_name h).

Definition models_dir (h : Host) : Path :=
  joinpath (joinpath (MODELS_DIR h) "waifu2x") "models-cunet".

(** ** [detect_vulkan_gpus] *)

(** An attempt of the pattern [deviceName\s*=\s*(.+)] at the start of
    [s]: the text of group 1.  The second run of spaces gives back its last
    character when nothing else is left for the group. *)
Definition match_deviceName_here (s : string) : option string :=
  if prefix "deviceName" s then
    match lstrip (str_drop 10 s) with
    | String "=" after =>
        match lstrip after with
        | EmptyString =>
            match str_rev after with
            | EmptyString => None
            | String c _ => Some (String c "")
            end
        | rest => Some rest
        end
    | _ => None
    end
  else None.

(** [re.search(r'deviceName\s*=\s*(.+)', line)]: the leftmost match. *)
Fixpoint search_deviceName (line : string) : option string :=
  match match_deviceName_here line with
  | Some g => Some g
  | None =>
      match line with
      | EmptyString => None
      | String _ r => search_deviceName r
      end
  end.

(** The loop over the lines of the output of [vulkaninfo]. *)
Fixpoint parse_gpus (lines : list string) (gpu_id : Z) : list (Z * string) :=
  match lines with
  | [] => []
  | line :: r =>
      if str_contains "deviceName" line then
        match search_deviceName line with
        | Some g => (gpu_id, strip g) :: parse_gpus r (gpu_id + 1)
        | None => parse_gpus r gpu_id
        end
      else parse_gpus r gpu_id
  end.

(** [subprocess.run(cmd, ...)]: the call is an event, its outcome and its
    effect on the disk are the host's. *)
Definition subprocess_run_M (h : Host) (cmd : list string) : M RunOutcome :=
  fun fs =>
    let (o, fs') := subprocess_run h cmd fs in (Ok o, fs', [Run cmd]).

Definition vulkaninfo_cmd (s : System) : option (list string) :=
  match s with
  | Windows => Some ["vulkaninfo"]
  | Linux | Darwin => Some ["vulkaninfo"; "--summary"]
  | OtherSystem _ => None
  end.

Definition detect_vulkan_gpus (h : Host) : M (list (Z * string)) :=
  match vulkaninfo_cmd (system h) with
  | None => ret []
  | Some cmd =>
      result <- subprocess_run_M h cmd ;;
      match result with
      | Completed 0 stdout => ret (parse_gpus (split_lines stdout) 0)
      | _ => ret []
      end
  end.

(** ** [check_waifu2x_installed] and [verify_model_requirements] *)

Definition check_waifu2x_installed (h : Host) : M (bool * string) :=
  bin_exists <- ask (path_exists (waifu_bin h)) ;;
  if negb bin_exists then
    ret (false, "Binary not found: " ++ path_str (system h) (waifu_bin h))
  else
    models_exist <- ask (path_exists (models_dir h)) ;;
    if negb models_exist then
      ret (false, "Models directory not found: "
                    ++ path_str (system h) (models_dir h))
    else
      entries <- query (iterdir (models_dir h)) ;;
      match entries with
      | [] => ret (false, "Models directory is empty: "
                            ++ path_str (system h) (models_dir h))
      | _ :: _ => ret (true, "OK")
      end.

Definition verify_model_requirements (h : Host) (model_name : string)
  : M unit :=
  if negb (existsb (String.eqb model_name) AVAILABLE_MODELS_keys) then
    raise (ModelError ("Unknown model: " ++ model_name))
  else
    errors <-
      (if String.eqb model_name "waifu2x" then
         r <- check_waifu2x_installed h ;;
         let (installed, msg) := r in
         if negb installed then
           ret ["[X] Waifu2x: " ++ msg;
                "    Run: python manga_upscaler.py --download waifu2x"]
         else ret []
       else ret []) ;;
    match errors with
    | [] => ret tt
    | _ :: _ =>
        raise (ModelError (nl ++ "Model requirements not met:" ++ nl ++ nl
                              ++ str_join nl errors ++ nl))
    end.

(** ** [run_waifu2x] *)

(** The four patterns of recognized images, in the order they are globbed. *)
Definition image_suffixes : list string := [".png"; ".jpg"; ".jpeg"; ".webp"].

(** [list(p.glob("*.png")) + list(p.glob("*.jpg")) + list(p.glob("*.jpeg"))
    + list(p.glob("*.webp"))]. *)
Definition glob_images (s : System) (p : Path) (fs : Node) : list Path :=
  flat_map (fun suffix => glob s p suffix fs) image_suffixes.

(** The command line for one image. *)
Definition build_cmd (h : Host) (img_path out_file : Path)
  (quality_settings : option Dict) : list string :=
  let cmd :=
    [path_str (system h) (waifu_bin h);
     "-i"; path_str (system h) img_path;
     "-o"; path_str (system h) out_file;
     "-s"; "2";
     "-m"; path_str (system h) (models_dir h)] in
  match truthy quality_settings with
  | Some qs =>
      (cmd
       ++ match dict_get "denoise_level" qs with
          | Some d => ["-n"; str_of_int d]
          | None => ["-n"; "0"]
          end
       ++ match dict_get "tile_size" qs with
          | Some t => if t >? 0 then ["-t"; str_of_int t] else []
          | None => []
          end
       ++ match dict_get "gpu_id" qs with
          | Some g => ["-g"; str_of_int g]
          | None => []
          end)%list
  | None => (cmd ++ ["-n"; "0"])%list
  end.

(** The label given to the progress tracker once an invocation is over. *)
Definition outcome_label (img_name : string) (o : RunOutcome) : string :=
  match o with
  | Completed 0 _ => img_name
  | Completed _ _ => img_name ++ " (failed)"
  | TimeoutExpired => img_name ++ " (timeout)"
  | RunRaised _ => img_name ++ " (error)"
  end.

(** [if progress_tracker: progress_tracker.update(label)]: a tracker object
    is always true. *)
Definition tracker_update (progress_tracker : option ProgressTracker)
  (label : string) : M (option ProgressTracker) :=
  match progress_tracker with
  | Some t => let (t', ev) := update t (Some label) in emit ev ;;; ret (Some t')
  | None => ret None
  end.

(** The loop of [run_waifu2x] over the images.  The tracker is one object
    shared with the caller: its state goes in and comes out. *)
Fixpoint run_images (h : Host) (images : list Path) (output_path : Path)
  (quality_settings : option Dict) (progress_tracker : option ProgressTracker)
  : M (option ProgressTracker) :=
  match images with
  | [] => ret progress_tracker
  | img_path :: rest =>
      let out_file := joinpath output_path (path_name img_path) in
      let cmd := build_cmd h img_path out_file quality_settings in
      result <- subprocess_run_M h cmd ;;
      progress_tracker' <-
        tracker_update progress_tracker
          (outcome_label (path_name img_path) result) ;;
      run_images h rest output_path quality_settings progress_tracker'
  end.

(** The images [run_waifu2x] works on: the path itself when it is a file,
    the sorted matches of the four patterns otherwise. *)
Definition images_of (h : Host) (input_path : Path) (fs : Node) : list Path :=
  if is_file input_path fs then [input_path]
  else sorted (system h) (glob_images (system h) input_path fs).

Definition run_waifu2x (h : Host) (input_path output_path : Path)
  (quality_settings : option Dict) (progress_tracker : option ProgressTracker)
  : M (option ProgressTracker) :=
  change (mkdir_p output_path) ;;;
  images <- ask (images_of h input_path) ;;
  match images with
  | [] => print "   No images found" ;;; ret progress_tracker
  | _ :: _ =>
      run_images h images output_path quality_settings progress_tracker
  end.

(** ** [zip_directory] *)

(** [file_path.relative_to(dir_path.parent)] for a file below [dir_path]. *)
Definition arcname_of (dir_path file_path : Path) : Path :=
  skipn (List.length (path_parent dir_path)) file_path.

(** [zipf.write(file_path, arcname)]. *)
Definition zipf_write (h : Host) (zip_path file_path arcname : Path)
  : M unit :=
  emit [ZipWrite zip_path file_path arcname] ;;;
  match zip_write_error h zip_path file_path with
  | Some e => raise e
  | None => ret tt
  end.

(** The loop that writes the members and advances the bar. *)
Fixpoint zip_members (h : Host) (dir_path zip_path : Path)
  (files_to_zip : list Path) (progress : ProgressTracker)
  : M ProgressTracker :=
  match files_to_zip with
  | [] => ret progress
  | file_path :: rest =>
      zipf_write h zip_path file_path (arcname_of dir_path file_path) ;;;
      let (progress', ev) := update progress (Some (path_name file_path)) in
      emit ev ;;;
      zip_members h dir_path zip_path rest progress'
  end.

(** [shutil.rmtree(p)]. *)
Definition rmtree (h : Host) (p : Path) : M unit :=
  emit [Rmtree p] ;;;
  match rmtree_error h p with
  | Some e => raise e
  | None => change (rmtree_fs p)
  end.

(** The files below [dir_path]: [[f for f in dir_path.rglob("*") if
    f.is_file()]]. *)
Definition files_below (dir_path : Path) (fs : Node) : list Path :=
  filter (fun f => is_file f fs) (map fst (rglob dir_path fs)).

Definition zip_directory (h : Host) (dir_path zip_path : Path)
  (cleanup : bool) : M bool :=
  try_except
    (files_to_zip <- ask (files_below dir_path) ;;
     match files_to_zip with
     | [] =>
         print ("   No files to zip in " ++ path_name dir_path) ;;;
         ret false
     | _ :: _ =>
         print ("   Zipping: " ++ path_name dir_path ++ " ("
                  ++ str_of_int (Z.of_nat (List.length files_to_zip))
                  ++ " files)") ;;;
         let (progress, ev) :=
           ProgressTracker_init (Z.of_nat (List.length files_to_zip)) "Zipping" in
         emit ev ;;;
         change (write_file zip_path) ;;;
         progress <- zip_members h dir_path zip_path files_to_zip progress ;;
         emit (snd (finish progress)) ;;;
         emit [PrintCreated (path_name zip_path)] ;;;
         (if cleanup then
            try_except
              (rmtree h dir_path ;;;
               print ("   Removed: " ++ path_name dir_path))
              (fun e =>
                 emit [PrintExn ("   Warning: Could not remove "
                                   ++ path_name dir_path ++ ": ") e ""])
          else ret tt) ;;;
         emit [Newline] ;;;
         ret true
     end)
    (fun e =>
       emit [PrintExn ("   Failed to zip " ++ path_name dir_path ++ ": ")
                      e nl] ;;;
       ret false).

(** ** [process_images] *)

(** The first GPU whose id is [value]. *)
Fixpoint find_gpu_name (gpus : list (Z * string)) (value : Z)
  : option string :=
  match gpus with
  | [] => None
  | (id, name) :: r => if id =? value then Some name else find_gpu_name r value
  end.

(** The loop that prints the quality settings; the GPU devices are looked
    up each time the key is [gpu_id]. *)
Fixpoint print_quality_settings (h : Host) (items : Dict) : M unit :=
  match items with
  | [] => ret tt
  | (key, value) :: r =>
      (if String.eqb key "gpu_id" then
         gpus <- detect_vulkan_gpus h ;;
         match find_gpu_name gpus value with
         | Some (String c n) =>
             print ("   " ++ key ++ ": " ++ str_of_int value
                          ++ " (" ++ String c n ++ ")")
         | _ => print ("   " ++ key ++ ": " ++ str_of_int value)
         end
       else print ("   " ++ key ++ ": " ++ str_of_int value)) ;;;
      print_quality_settings h r
  end.

(** A new tracker, with the bar it draws when it is made. *)
Definition new_tracker (total : Z) (descr : string) : M ProgressTracker :=
  let (t, ev) := ProgressTracker_init total descr in emit ev ;;; ret t.

(** [progress.finish()] where the object is not used afterwards. *)
Definition finish_M (t : ProgressTracker) : M unit :=
  emit (snd (finish t)).

(** The flat batch: count, make the bar, run, finish. *)
Definition process_flat (h : Host) (input_path output_path : Path)
  (quality_settings : option Dict) (announce : bool) : M unit :=
  images <- ask (glob_images (system h) input_path) ;;
  (if announce then
     print ("Found " ++ str_of_int (Z.of_nat (List.length images))
                     ++ " images to process" ++ nl)
   else ret tt) ;;;
  progress <- new_tracker (Z.of_nat (List.length images)) "Upscaling" ;;
  progress' <- run_waifu2x h input_path output_path quality_settings
                 (Some progress) ;;
  match progress' with
  | Some t => finish_M t
  | None => ret tt
  end.

(** The first pass over the chapters: the number of images. *)
Definition count_images (s : System) (subdirs : list Path) (fs : Node) : Z :=
  fold_left (fun total subdir =>
               total + Z.of_nat (List.length (glob_images s subdir fs)))
            subdirs 0.

(** The second pass: one [run_waifu2x] per chapter, in sorted order, all on
    the same tracker. *)
Fixpoint process_chapters (h : Host) (chapters : list Path) (idx : Z)
  (count : nat) (output_path : Path) (quality_settings : option Dict)
  (progress : option ProgressTracker) : M (option ProgressTracker) :=
  match chapters with
  | [] => ret progress
  | subdir :: rest =>
      print (nl ++ "Chapter [" ++ str_of_int idx ++ "/"
                ++ str_of_int (Z.of_nat count) ++ "]: " ++ path_name subdir) ;;;
      print (str_mul "-" 70) ;;;
      let sub_output := joinpath output_path (path_name subdir) in
      progress' <- run_waifu2x h subdir sub_output quality_settings progress ;;
      print ("   Completed: " ++ path_name subdir ++ nl) ;;;
      process_chapters h rest (idx + 1) count output_path quality_settings
        progress'
  end.

(** The loop that zips every directory found under the output root. *)
Fixpoint zip_chapters (h : Host) (entries : list Path) (output_path : Path)
  (zipped_count : Z) : M Z :=
  match entries with
  | [] => ret zipped_count
  | subdir :: rest =>
      d <- ask (is_dir subdir) ;;
      if d then
        let zip_path := joinpath output_path (path_name subdir ++ ".zip") in
        ok <- zip_directory h subdir zip_path true ;;
        zip_chapters h rest output_path
          (if ok then zipped_count + 1 else zipped_count)
      else zip_chapters h rest output_path zipped_count
  end.

Definition banner (title : string) : M unit :=
  print (nl ++ str_mul "=" 67) ;;;
  print title ;;;
  print (str_mul "=" 67 ++ nl).

Definition process_nested (h : Host) (input_path output_path : Path)
  (quality_settings : option Dict) (zip_nested : bool) : M unit :=
  print ("Scanning nested structure in: "
           ++ path_str (system h) input_path ++ nl) ;;;
  entries <- query (iterdir input_path) ;;
  subdirs <- ask (fun fs => filter (fun d => is_dir d fs) entries) ;;
  match subdirs with
  | [] =>
      print ("No subdirectories found. Processing as flat directory..." ++ nl) ;;;
      process_flat h input_path output_path quality_settings false
  | _ :: _ =>
      print ("Found " ++ str_of_int (Z.of_nat (List.length subdirs))
                      ++ " subdirectories (chapters)" ++ nl) ;;;
      print (str_mul "=" 70) ;;;
      total_images <- ask (count_images (system h) subdirs) ;;
      print ("Total: " ++ str_of_int (Z.of_nat (List.length subdirs))
                       ++ " chapters, " ++ str_of_int total_images
                       ++ " images" ++ nl) ;;;
      progress <- new_tracker total_images "Overall Progress" ;;
      progress' <- process_chapters h (sorted (system h) subdirs) 1
                     (List.length subdirs) output_path quality_settings
                     (Some progress) ;;
      match progress' with
      | Some t => finish_M t
      | None => ret tt
      end ;;;
      print (nl ++ str_mul "=" 70) ;;;
      print "All chapters processed successfully" ;;;
      print (str_mul "=" 70) ;;;
      if zip_nested then
        banner "ZIPPING CHAPTERS" ;;;
        outputs <- query (iterdir output_path) ;;
        zipped_count <- zip_chapters h (sorted (system h) outputs)
                          output_path 0 ;;
        if zipped_count >? 0 then
          print (str_mul "=" 70) ;;;
          print ("Successfully zipped " ++ str_of_int zipped_count
                                        ++ " chapter(s)") ;;;
          print ("Removed " ++ str_of_int zipped_count
                            ++ " original folder(s) to save space") ;;;
          print (str_mul "=" 70)
        else ret tt
      else ret tt
  end.

Definition process_images (h : Host) (input_dir output_dir : Path)
  (model_name : string) (nested : bool) (quality_settings : option Dict)
  (zip_output zip_nested : bool) : M unit :=
  let input_path := input_dir in
  let output_path := output_dir in
  found <- ask (path_exists input_path) ;;
  if negb found then
    raise (FileNotFoundError_msg
             ("Input directory not found: "
                ++ path_str (system h) input_path))
  else
    print ("Checking model requirements..." ++ nl) ;;;
    verify_model_requirements h model_name ;;;
    print ("All requirements met!" ++ nl) ;;;
    match truthy quality_settings with
    | Some qs =>
        print "Quality Settings:" ;;;
        print_quality_settings h qs ;;;
        emit [Newline]
    | None => ret tt
    end ;;;
    if String.eqb model_name "waifu2x" then
      print ("Using waifu2x x2 (fast manga mode)" ++ nl) ;;;
      if nested then
        process_nested h input_path output_path quality_settings zip_nested
      else
        process_flat h input_path output_path quality_settings true ;;;
        if zip_output then
          banner "ZIPPING OUTPUT" ;;;
          let zip_path :=
            joinpath (path_parent output_path)
                     (path_name output_path ++ ".zip") in
          ok <- zip_directory h output_path zip_path true ;;
          if ok then
            print (str_mul "=" 70) ;;;
            print "Output zipped successfully" ;;;
            print "Removed original folder to save space" ;;;
            print (str_mul "=" 70)
          else ret tt
        else ret tt
    else ret tt.

(** ** [class DownloadProgressBar] *)

(** Whether the quotient of two integers, rounded to the nearest float, is
    a float: the largest one is [2^1024 - 2^971], and a quotient of
    [2^1024 - 2^970] or more in absolute value rounds beyond it. *)
Definition fits_float (a b : Z) : bool :=
  Z.abs a <? (2 ^ 1024 - 2 ^ 970) * Z.abs b.

(** [a / b] on two integers.  The quotient is kept exact. *)
Definition true_div (a b : Z) : Exn + Q :=
  if b =? 0 then inl (ZeroDivisionError "division by zero")
  else if fits_float a b then inr (inject_Z a / inject_Z b)%Q
  else inl (OverflowError "integer division result too large for a float").

(** [c * n] for one cell of the bar: the string of [n] cells, none when
    [n] is negative, unless building it raises. *)
Definition cells (h : Host) (c : Cell) (n : Z) : M (list Cell) :=
  match bar_error h n with
  | Some e => raise e
  | None => ret (repeat c (Z.to_nat n))
  end.

(** One call of the progress hook; [pbar] is the state of the object:
    whether the total size has been announced.  The call returns the new
    state. *)
Definition DownloadProgressBar_call (h : Host) (pbar : bool)
  (block_num block_size total_size : Z) : M bool :=
  (if pbar then ret tt
   else
     _ <- query (fun _ => true_div total_size (1024 * 1024)) ;;
     emit [PrintTotalSize total_size]) ;;;
  let downloaded := block_num * block_size in
  if total_size >? 0 then
    ratio <- query (fun _ => true_div (downloaded * 100) total_size) ;;
    let percent := if Qle_bool ratio 100 then ratio else 100%Q in
    let bar_length := 50 in
    let filled_length := (bar_length * downloaded) / total_size in
    full <- cells h Full filled_length ;;
    shade <- cells h Shade (bar_length - filled_length) ;;
    let bar := (full ++ shade)%list in
    emit [Draw bar percent ""] ;;;
    (if downloaded >=? total_size then emit [Newline] else ret tt) ;;;
    ret true
  else ret true.

(** The calls the download makes to the hook, one after the other, on one
    object; an exception raised by a call ends them. *)
Fixpoint report_blocks (h : Host) (pbar : bool) (blocks : list (Z * Z * Z))
  : M unit :=
  match blocks with
  | [] => ret tt
  | (block_num, block_size, total_size) :: r =>
      pbar' <- DownloadProgressBar_call h pbar block_num block_size
                 total_size ;;
      report_blocks h pbar' r
  end.

(** ** [download_waifu2x] *)

(** The release archive and the executable name for each platform. *)
Definition release_of (s : System) : option (string * string) :=
  match s with
  | Windows =>
      Some ("https://github.com/nihui/waifu2x-ncnn-vulkan/releases/download/20220728/waifu2x-ncnn-vulkan-20220728-windows.zip",
            "waifu2x-ncnn-vulkan.exe")
  | Linux =>
      Some ("https://github.com/nihui/waifu2x-ncnn-vulkan/releases/download/20220728/waifu2x-ncnn-vulkan-20220728-ubuntu.zip",
            "waifu2x-ncnn-vulkan")
  | Darwin =>
      Some ("https://github.com/nihui/waifu2x-ncnn-vulkan/releases/download/20220728/waifu2x-ncnn-vulkan-20220728-macos.zip",
            "waifu2x-ncnn-vulkan")
  | OtherSystem _ => None
  end.

Definition system_name (s : System) : string :=
  match s with
  | Windows => "Windows"
  | Linux => "Linux"
  | Darwin => "Darwin"
  | OtherSystem name => name
  end.

(** [if p.exists(): p.unlink()]. *)
Definition unlink_if_exists (p : Path) : M unit :=
  found <- ask (path_exists p) ;;
  if found then change (unlink p) else ret tt.

(** [shutil.rmtree(p, ignore_errors=True)]. *)
Definition rmtree_ignore_errors (h : Host) (p : Path) : M unit :=
  try_except (rmtree h p) (fun _ => ret tt).

(** [urllib.request.urlretrieve(url, zip_path, DownloadProgressBar())]: the
    file is opened for writing before the first callback. *)
Definition urlretrieve (h : Host) (url : string) (zip_path : Path) : M unit :=
  let (blocks, err) := urlretrieve_blocks h url in
  match blocks, err with
  | [], Some e => raise e
  | _, _ =>
      change (write_file zip_path) ;;;
      report_blocks h false blocks ;;;
      match err with
      | Some e => raise e
      | None => ret tt
      end
  end.

(** [zip_ref.extractall(temp_dir)], member by member. *)
Fixpoint extractall (members : list (Path * bool)) (temp_dir : Path)
  : M unit :=
  match members with
  | [] => ret tt
  | (name, true) :: r =>
      change (mkdir_p (temp_dir ++ name)%list) ;;;
      extractall r temp_dir
  | (name, false) :: r =>
      change (mkdir_p (path_parent (temp_dir ++ name)%list)) ;;;
      change (write_file (temp_dir ++ name)%list) ;;;
      extractall r temp_dir
  end.

(** The loop that installs every [models-*] directory of the archive. *)
Fixpoint copy_models (h : Host) (items : list Path)
  (models_copied : list string) : M (list string) :=
  match items with
  | [] => ret models_copied
  | item :: r =>
      d <- ask (is_dir item) ;;
      if (d && startswith (path_name item) "models-")%bool then
        let model_name := path_name item in
        let final_model_dir :=
          joinpath (joinpath (MODELS_DIR h) "waifu2x") model_name in
        found <- ask (path_exists final_model_dir) ;;
        (if found then rmtree_ignore_errors h final_model_dir else ret tt) ;;;
        change (mkdir_p (path_parent final_model_dir)) ;;;
        change (copytree item final_model_dir) ;;;
        copy_models h r (models_copied ++ [model_name])%list
      else copy_models h r models_copied
  end.

Definition download_waifu2x (h : Host) : M unit :=
  change (mkdir_exist_ok (BIN_DIR h)) ;;;
  match release_of (system h) with
  | None =>
      raise (ModelError ("Unsupported operating system: "
                           ++ system_name (system h)))
  | Some (url, exe) =>
      print (str_mul "=" 67) ;;;
      print "DOWNLOADING WAIFU2X MODEL" ;;;
      print (str_mul "=" 67 ++ nl) ;;;
      print "Downloading waifu2x-ncnn-vulkan..." ;;;
      print "   Source: GitHub/nihui/waifu2x-ncnn-vulkan" ;;;
      print ("   Platform: " ++ system_name (system h) ++ nl) ;;;
      let zip_path := joinpath (BIN_DIR h) "waifu2x.zip" in
      unlink_if_exists zip_path ;;;
      try_except
        (urlretrieve h url zip_path ;;;
         print ("   Download complete!" ++ nl))
        (fun e =>
           unlink_if_exists zip_path ;;;
           raise (ModelError_from "Download failed: " e)) ;;;
      print "Extracting archive..." ;;;
      let temp_dir := joinpath (BIN_DIR h) "temp_extract" in
      try_except
        (found <- ask (path_exists temp_dir) ;;
         (if found then rmtree_ignore_errors h temp_dir else ret tt) ;;;
         change (mkdir_exist_ok temp_dir) ;;;
         members <- query (fun _ => archive_members h url) ;;
         extractall members temp_dir ;;;
         items <- ask (fun fs => map fst (rglob temp_dir fs)) ;;
         exe_found <-
           ask (fun fs =>
                  find (fun item =>
                          (is_file item fs
                           && existsb (String.eqb (path_name item))
                                [exe; "waifu2x-ncnn-vulkan";
                                 "waifu2x-ncnn-vulkan.exe"])%bool)
                       items) ;;
         match exe_found with
         | None => raise (ModelError "Could not find executable in archive")
         | Some exe_path =>
             let final_exe := joinpath (BIN_DIR h) exe in
             unlink_if_exists final_exe ;;;
             change (copy2 exe_path final_exe) ;;;
             print ("   Installed: " ++ exe) ;;;
             items' <- ask (fun fs => map fst (rglob temp_dir fs)) ;;
             models_copied <- copy_models h items' [] ;;
             match models_copied with
             | [] => raise (ModelError "No model directories found in archive")
             | _ :: _ =>
                 print ("   Installed models: "
                          ++ str_join ", " models_copied) ;;;
                 rmtree_ignore_errors h temp_dir ;;;
                 unlink_if_exists zip_path ;;;
                 print (nl ++ str_mul "=" 67) ;;;
                 print "WAIFU2X INSTALLED SUCCESSFULLY" ;;;
                 print (str_mul "=" 67 ++ nl)
             end
         end)
        (fun e =>
           rmtree_ignore_errors h temp_dir ;;;
           unlink_if_exists zip_path ;;;
           raise (ModelError_from "Extraction failed: " e))
  end.

(** ** [list_gpus], [list_models], [show_usage] *)

Fixpoint print_gpus (gpus : list (Z * string)) : M unit :=
  match gpus with
  | [] => ret tt
  | (id, name) :: r =>
      print ("  GPU " ++ str_of_int id ++ ": " ++ name) ;;;
      print_gpus r
  end.

Definition list_gpus (h : Host) : M unit :=
  banner "DETECTED VULKAN GPUS" ;;;
  gpus <- detect_vulkan_gpus h ;;
  match gpus with
  | [] =>
      print ("No Vulkan GPUs detected or vulkaninfo not available." ++ nl) ;;;
      print "Make sure you have:" ;;;
      print "  - Vulkan drivers installed" ;;;
      print ("  - vulkaninfo utility available in your PATH" ++ nl) ;;;
      match system h with
      | Windows | Darwin =>
          print ("Install Vulkan SDK from: https://vulkan.lunarg.com/" ++ nl)
      | Linux =>
          print ("Install vulkan-tools: sudo apt install vulkan-tools" ++ nl)
      | OtherSystem _ => ret tt
      end
  | (id0, _) :: _ =>
      print ("Found " ++ str_of_int (Z.of_nat (List.length gpus))
                      ++ " Vulkan device(s):" ++ nl) ;;;
      print_gpus gpus ;;;
      print (nl ++ "To use a specific GPU, add: --gpu " ++ str_of_int id0) ;;;
      print ("Example: python manga_upscaler.py -i ./input --gpu 1" ++ nl)
  end.

Definition list_models (h : Host) : M unit :=
  banner "AVAILABLE MODELS" ;;;
  print "waifu2x" ;;;
  print "   Description: Waifu2x x2 (fast, line-art focused)" ;;;
  print "   Scale: 2x" ;;;
  print "   Type: ncnn" ;;;
  r <- check_waifu2x_installed h ;;
  (if fst r then print "   Status: Installed"
   else
     print "   Status: Not installed" ;;;
     print "   Install: python manga_upscaler.py --download waifu2x") ;;;
  emit [Newline].

(** [show_usage] prints a fixed help text; its heading stands for it. *)
Definition show_usage : M unit := banner "MANGA AI UPSCALER - USAGE".

(** ** [main] *)

(** What is typed on the command line, flag by flag. *)
Record CmdLine := {
  cl_input : option Path;
  cl_output : option Path;
  cl_subdir : bool;
  cl_nested : bool;
  cl_model : option string;
  cl_quality : option string;
  cl_denoise : option Z;
  cl_tile_size : option Z;
  cl_gpu : option Z;
  cl_zip : bool;
  cl_zip_chapters : bool;
  cl_list_gpus : bool;
  cl_list_models : bool;
  cl_download : option string;
  cl_help : bool
}.

(** The namespace that [parser.parse_args()] returns. *)
Record Args := {
  args_input : option Path;
  args_output : option Path;
  args_subdir : bool;
  args_nested : bool;
  args_model : string;
  args_quality : option string;
  args_denoise : option Z;
  args_tile_size : option Z;
  args_gpu : option Z;
  args_zip : bool;
  args_zip_chapters : bool;
  args_list_gpus : bool;
  args_list_models : bool;
  args_download : option string;
  args_help : bool
}.

(** A value is accepted when the flag is absent or is one of the choices. *)
Definition in_choices {A} (eqb : A -> A -> bool) (choices : list A)
  (v : option A) : bool :=
  match v with
  | None => true
  | Some x => existsb (eqb x) choices
  end.

(** [parser.parse_args()]: the defaults are filled in; a value outside the
    choices of its flag ends the program (with status 2), which is [None]
    here. *)
Definition parse_args (cl : CmdLine) : option Args :=
  if (in_choices String.eqb AVAILABLE_MODELS_keys (cl_model cl)
      && in_choices String.eqb ["fast"; "balanced"; "quality"] (cl_quality cl)
      && in_choices Z.eqb [-1; 0; 1; 2; 3] (cl_denoise cl)
      && in_choices String.eqb AVAILABLE_MODELS_keys (cl_download cl))%bool
  then
    Some {| args_input := cl_input cl;
            args_output := cl_output cl;
            args_subdir := cl_subdir cl;
            args_nested := cl_nested cl;
            args_model := match cl_model cl with
                          | Some m => m
                          | None => "waifu2x"
                          end;
            args_quality := cl_quality cl;
            args_denoise := cl_denoise cl;
            args_tile_size := cl_tile_size cl;
            args_gpu := match cl_gpu cl with
                        | Some g => Some g
                        | None => Some 0
                        end;
            args_zip := cl_zip cl;
            args_zip_chapters := cl_zip_chapters cl;
            args_list_gpus := cl_list_gpus cl;
            args_list_models := cl_list_models cl;
            args_download := cl_download cl;
            args_help := cl_help cl |}
  else None.

(** [QUALITY_PRESETS[model][preset].copy()]. *)
Definition preset_of (model preset : string) : option Dict :=
  if String.eqb model "waifu2x" then
    (fix get (l : list (string * Dict)) : option Dict :=
       match l with
       | [] => None
       | (k, d) :: r => if String.eqb preset k then Some d else get r
       end) QUALITY_PRESETS_waifu2x
  else None.

Definition override (key : string) (v : option Z) (d : Dict) : Dict :=
  match v with
  | Some x => dict_set key x d
  | None => d
  end.

(** The quality settings [main] builds from the arguments. *)
Definition build_quality_settings (args : Args) : Dict :=
  let preset :=
    match args_quality args with
    | Some q => q
    | None => "balanced"
    end in
  let quality_settings :=
    match preset_of (args_model args) preset with
    | Some d => d
    | None => []
    end in
  override "gpu_id" (args_gpu args)
    (override "tile_size" (args_tile_size args)
       (override "denoise_level" (args_denoise args) quality_settings)).

(** The output directory [main] chooses. *)
Definition output_path_of (args : Args) (input_path : Path) : Path :=
  match args_output args with
  | Some o => o
  | None =>
      if args_subdir args then joinpath input_path "upscaled"
      else joinpath (path_parent input_path)
                    (path_name input_path ++ "_upscaled")
  end.

Definition is_ModelError (e : Exn) : bool :=
  match e with
  | ModelError _ | ModelError_from _ _ => true
  | _ => false
  end.

Definition is_FileNotFoundError (e : Exn) : bool :=
  match e with
  | FileNotFoundError _ | FileNotFoundError_msg _ => true
  | _ => false
  end.

Definition yes_no (b : bool) : string := if b then "Yes" else "No".

(** [main]: the value is the exit status of the program; an exception that
    [main] lets through ends the program with a traceback. *)
Definition main (h : Host) (argv : option CmdLine) : M Z :=
  match argv with
  | None => show_usage ;;; ret 0
  | Some cl =>
      match parse_args cl with
      | None => ret 2
      | Some args =>
          if args_help args then show_usage ;;; ret 0
          else if args_list_gpus args then list_gpus h ;;; ret 0
          else if args_list_models args then list_models h ;;; ret 0
          else
            match args_download args with
            | Some name =>
                try_except
                  ((if String.eqb name "waifu2x" then download_waifu2x h
                    else ret tt) ;;;
                   ret 0)
                  (fun e =>
                     if is_ModelError e then
                       emit [PrintExn (nl ++ "Error: ") e nl] ;;; ret 1
                     else raise e)
            | None =>
                match args_input args with
                | None =>
                    print "Error: Input directory is required for processing!" ;;;
                    print (nl ++ "Run 'python manga_upscaler.py --help' for usage information.") ;;;
                    ret 1
                | Some input_path =>
                    let output_path := output_path_of args input_path in
                    let quality_settings := build_quality_settings args in
                    print (nl ++ str_mul "=" 67) ;;;
                    print "MANGA AI UPSCALER - Configuration" ;;;
                    print (str_mul "=" 67) ;;;
                    print ("  Input:          "
                             ++ path_str (system h) input_path) ;;;
                    print ("  Output:         "
                             ++ path_str (system h) output_path) ;;;
                    print ("  Model:          " ++ args_model args) ;;;
                    print "  Scale:          2x" ;;;
                    print ("  Nested:         "
                             ++ yes_no (args_nested args)) ;;;
                    match args_quality args with
                    | Some q => print ("  Quality Preset: " ++ q)
                    | None => ret tt
                    end ;;;
                    (if args_zip args then print "  Zip Output:     Yes"
                     else ret tt) ;;;
                    (if (args_zip_chapters args && args_nested args)%bool
                     then print "  Zip Chapters:   Yes"
                     else ret tt) ;;;
                    print (str_mul "=" 67 ++ nl) ;;;
                    try_except
                      (process_images h input_path output_path
                         (args_model args) (args_nested args)
                         (truthy (Some quality_settings))
                         (args_zip args) (args_zip_chapters args) ;;;
                       ret 0)
                      (fun e =>
                         if is_ModelError e then
                           emit [PrintExn nl e ""] ;;; ret 1
                         else if is_FileNotFoundError e then
                           emit [PrintExn (nl ++ "Error: ") e nl] ;;; ret 1
                         else
                           emit [PrintExn (nl ++ "Unexpected error: ") e nl] ;;;
                           ret 1)
                end
            end
      end
  end.

(** ** Observations on runs *)

(** The commands run, in order. *)
Definition runs (ev : list Event) : list (list string) :=
  flat_map (fun e => match e with Run cmd => [cmd] | _ => [] end) ev.

(** What the progress bar shows: the bar lines and the bare newlines. *)
Definition progress_output (ev : list Event) : list Event :=
  filter (fun e => match e with
                   | Draw _ _ _ | Newline => true
                   | _ => false
                   end) ev.

(** The number of bar lines drawn. *)
Definition draws (ev : list Event) : nat :=
  List.length (filter (fun e => match e with
                                | Draw _ _ _ => true
                                | _ => false
                                end) ev).

(** The archive member writes and the directory removals, in order. *)
Definition disk_calls (ev : list Event) : list Event :=
  filter (fun e => match e with
                   | ZipWrite _ _ _ | Rmtree _ => true
                   | _ => false
                   end) ev.

(** The commands of a batch, one per image. *)
Definition cmds_for (h : Host) (output_path : Path)
  (quality_settings : option Dict) (images : list Path) : list (list string) :=
  map (fun img_path =>
         build_cmd h img_path (joinpath output_path (path_name img_path))
           quality_settings)
      images.

(** The outcomes the host gives to a sequence of commands run one after
    the other, and the file system they leave. *)
Fixpoint invoke_all (h : Host) (cmds : list (list string)) (fs : Node)
  : list RunOutcome * Node :=
  match cmds with
  | [] => ([], fs)
  | cmd :: r =>
      let (o, fs1) := subprocess_run h cmd fs in
      let (os, fs2) := invoke_all h r fs1 in
      (o :: os, fs2)
  end.

(** A sequence of [update] calls. *)
Fixpoint updates (t : ProgressTracker) (labels : list string)
  : ProgressTracker * list Event :=
  match labels with
  | [] => (t, [])
  | l :: r =>
      let (t1, e1) := update t (Some l) in
      let (t2, e2) := updates t1 r in
      (t2, (e1 ++ e2)%list)
  end.

(** The labels of a batch: one per image, from its outcome. *)
Fixpoint labels_for (images : list Path) (os : list RunOutcome)
  : list string :=
  match images, os with
  | img :: ri, o :: ro => outcome_label (path_name img) o :: labels_for ri ro
  | _, _ => []
  end.

(** An invocation that did not end with exit status 0. *)
Definition failing (o : RunOutcome) : bool :=
  match o with
  | Completed 0 _ => false
  | _ => true
  end.

(** A name that one of the four patterns matches. *)
Definition is_image (s : System) (name : string) : bool :=
  existsb (fnmatch_star s name) image_suffixes.

(** The entries of a directory with the name of an image. *)
Definition image_entries (s : System) (p : Path) (fs : Node) : Entries :=
  filter (fun e => is_image s (fst e)) (listdir p fs).

(** ** A sample installation *)

(** The path that a string written with [/] names. *)
Definition path_of_str (s : string) : Path :=
  filter (fun c => negb (String.eqb c "")) (str_split "/" s).

(** A host on Linux, installed under [/app], where nothing fails on disk and
    the executable behaves as [outcome] says: when it exits with status 0 it
    has written the file named after [-o], otherwise it has written
    nothing. *)
Definition sample_host (outcome : list string -> RunOutcome) : Host :=
  {| system := Linux;
     script_dir := ["app"];
     subprocess_run := fun cmd fs =>
       match outcome cmd with
       | Completed 0 out =>
           (Completed 0 out,
            match write_file (path_of_str (nth 4 cmd "")) fs with
            | inr fs' => fs'
            | inl _ => fs
            end)
       | o => (o, fs)
       end;
     zip_write_error := fun _ _ => None;
     rmtree_error := fun _ => None;
     urlretrieve_blocks := fun _ => ([(0, 8192, 16384); (1, 8192, 16384);
                                      (2, 8192, 16384)], None);
     bar_error := fun _ => None;
     archive_members := fun _ =>
       inr [(["waifu2x"], true);
            (["waifu2x"; "waifu2x-ncnn-vulkan"], false);
            (["waifu2x"; "models-cunet"], true);
            (["waifu2x"; "models-cunet"; "noise0_scale2.0x_model.bin"], false)]
  |}.

(** The executable succeeds on every image. *)
Definition always_ok (cmd : list string) : RunOutcome := Completed 0 "".

(** The executable exits with [code] on the image whose path is [bad] and
    succeeds on the others. *)
Definition fails_on (bad : string) (code : Z) (cmd : list string)
  : RunOutcome :=
  if String.eqb (nth 2 cmd "") bad then Completed code "" else Completed 0 "".

(** The installed program and a series with two chapters: [ch1] holds two
    images, listed out of order, and [ch2] holds no image. *)
Definition sample_fs : Node :=
  Dir [("app",
        Dir [("bin", Dir [("waifu2x-ncnn-vulkan", File)]);
             ("models",
              Dir [("waifu2x",
                    Dir [("models-cunet",
                          Dir [("noise0_scale2.0x_model.bin", File)])])])]);
       ("in",
        Dir [("ch2", Dir [("notes.txt", File)]);
             ("ch1", Dir [("p2.png", File); ("p1.jpg", File)])])].

Definition sample_tracker : ProgressTracker :=
  {| total_items := 2; current_item := 0;
     description := "Upscaling"; bar_length := 50 |}.

(** ** The report of the specification *)

(** The specification's words for the result of a run: a per-image outcome
    and a report that lists the failures with their reason.  The script has
    no such values; they are here to be compared with what it produces. *)
Inductive ProcessOutcome :=
| Success
| ToolFailure (exit_code : Z)
| Timeout
| LaunchError.

Record RunReport := {
  total_images : Z;
  succeeded : Z;
  failed : list (Path * ProcessOutcome)
}.

(** An invocation that exited with a status other than 0. *)
Definition exit_nonzero (o : RunOutcome) : bool :=
  match o with
  | Completed 0 _ => false
  | Completed _ _ => true
  | _ => false
  end.

(** A command line that names the input directory and nothing else. *)
Definition only_input (input : Path) : CmdLine :=
  {| cl_input := Some input; cl_output := None; cl_subdir := false;
     cl_nested := false; cl_model := None; cl_quality := None;
     cl_denoise := None; cl_tile_size := None; cl_gpu := None;
     cl_zip := false; cl_zip_chapters := false; cl_list_gpus := false;
     cl_list_models := false; cl_download := None; cl_help := false |}.

(** ** Words for the claims on archives *)

(** The exception of the first member whose write fails, if any. *)
Fixpoint first_zip_error (h : Host) (zip_path : Path) (files : list Path)
  : option Exn :=
  match files with
  | [] => None
  | f :: r =>
      match zip_write_error h zip_path f with
      | Some e => Some e
      | None => first_zip_error h zip_path r
      end
  end.

(** The members whose write is attempted: all of them up to the first one
    that fails. *)
Fixpoint attempted (h : Host) (zip_path : Path) (files : list Path)
  : list Path :=
  match files with
  | [] => []
  | f :: r =>
      match zip_write_error h zip_path f with
      | Some _ => [f]
      | None => f :: attempted h zip_path r
      end
  end.

(** The archive of [dir_path] at [zip_path] is written in full: there are
    files to write, the archive can be opened and no member write fails. *)
Definition fully_written (h : Host) (dir_path zip_path : Path) (fs : Node)
  : Prop :=
  files_below dir_path fs <> []
  /\ (exists fs1, write_file zip_path fs = inr fs1)
  /\ first_zip_error h zip_path (files_below dir_path fs) = None.

(** What removing [dir_path] does: the host may make it fail, the file
    system may refuse it, or the directory goes. *)
Definition removal (h : Host) (dir_path : Path) (fs : Node) : Exn + Node :=
  match rmtree_error h dir_path with
  | Some e => inl e
  | None => rmtree_fs dir_path fs
  end.

(** Every event that a computation emits, from any file system, satisfies
    [P]. *)
Definition Emits (P : Event -> Prop) {A} (c : M A) : Prop :=
  forall fs, Forall P (events_of (c fs)).

(** An event that is no archive member write and no directory removal. *)
Definition no_disk_call (e : Event) : Prop :=
  match e with
  | ZipWrite _ _ _ | Rmtree _ => False
  | _ => True
  end.

(** An event that, if it is a member write or a removal, is the one of
    archiving [dir_path] into [zip_path]. *)
Definition archiving (dir_path zip_path : Path) (e : Event) : Prop :=
  match e with
  | ZipWrite z f _ => z = zip_path
  | Rmtree p => p = dir_path
  | _ => True
  end.

(** An event that, if it is a member write or a removal, is about a
    directory just below [output_path] and the archive named after it,
    beside it. *)
Definition archiving_below (output_path : Path) (e : Event) : Prop :=
  match e with
  | ZipWrite z _ _ => exists name, z = joinpath output_path (name ++ ".zip")
  | Rmtree p => exists name, p = joinpath output_path name
  | _ => True
  end.

(** Where the archive of the whole output goes. *)
Definition whole_output_zip (output_path : Path) : Path :=
  joinpath (path_parent output_path) (path_name output_path ++ ".zip").

(** The command line [cl] with the three quality flags set as given. *)
Definition with_quality (cl : CmdLine) (denoise tile_size gpu : option Z)
  : CmdLine :=
  {| cl_input := cl_input cl; cl_output := cl_output cl;
     cl_subdir := cl_subdir cl; cl_nested := cl_nested cl;
     cl_model := cl_model cl; cl_quality := cl_quality cl;
     cl_denoise := denoise; cl_tile_size := tile_size; cl_gpu := gpu;
     cl_zip := cl_zip cl; cl_zip_chapters := cl_zip_chapters cl;
     cl_list_gpus := cl_list_gpus cl; cl_list_models := cl_list_models cl;
     cl_download := cl_download cl; cl_help := cl_help cl |}.

(** The number of times the total size is announced. *)
Definition announcements (ev : list Event) : nat :=
  List.length (filter (fun e => match e with
                                | PrintTotalSize _ => true
                                | _ => false
                                end) ev).

(** The bars drawn, in order. *)
Definition bars (ev : list Event) : list (list Cell) :=
  flat_map (fun e => match e with Draw bar _ _ => [bar] | _ => [] end) ev.

(** A host on a platform for which there is no release. *)
Definition unknown_platform_host : Host :=
  {| system := OtherSystem "FreeBSD"; script_dir := ["app"];
     subprocess_run := fun _ fs => (TimeoutExpired, fs);
     zip_write_error := fun _ _ => None;
     rmtree_error := fun _ => None;
     urlretrieve_blocks := fun _ => ([], None);
     bar_error := fun _ => None;
     archive_members := fun _ => inr [] |}.

(** A host on Linux whose download breaks after the first callback. *)
Definition broken_download_host : Host :=
  {| system := Linux; script_dir := ["app"];
     subprocess_run := fun _ fs => (TimeoutExpired, fs);
     zip_write_error := fun _ _ => None;
     rmtree_error := fun _ => None;
     urlretrieve_blocks := fun _ =>
       ([(0, 8192, 16384)], Some (OSError "connection reset"));
     bar_error := fun _ => None;
     archive_members := fun _ => inr [] |}.

(** A Linux host whose download succeeds in three callbacks and whose
    archive has the given members. *)
Definition release_host (members : list (Path * bool)) : Host :=
  {| system := Linux; script_dir := ["app"];
     subprocess_run := fun _ fs => (TimeoutExpired, fs);
     zip_write_error := fun _ _ => None;
     rmtree_error := fun _ => None;
     urlretrieve_blocks := fun _ =>
       ([(0, 8192, 16384); (1, 8192, 16384); (2, 8192, 16384)], None);
     bar_error := fun _ => None;
     archive_members := fun _ => inr members |}.

(** An archive laid out like the release: one top directory with the
    executable and the model directory named [models]. *)
Definition archive_with (models : string) : list (Path * bool) :=
  [(["waifu2x-ncnn-vulkan-20220728-ubuntu"], true);
   (["waifu2x-ncnn-vulkan-20220728-ubuntu"; "waifu2x-ncnn-vulkan"], false);
   (["waifu2x-ncnn-vulkan-20220728-ubuntu"; models], true);
   (["waifu2x-ncnn-vulkan-20220728-ubuntu"; models;
     "noise0_scale2.0x_model.bin"], false)].

(** The script directory before anything is installed. *)
Definition empty_install : Node := Dir [("app", Dir [])].

(** The bar lines drawn, in order. *)
Definition bar_lines (ev : list Event) : list Event :=
  filter (fun e => match e with Draw _ _ _ => true | _ => false end) ev.

(** The text after the percentage on each bar line, in order. *)
Definition statuses (ev : list Event) : list string :=
  flat_map (fun e => match e with Draw _ _ status => [status] | _ => [] end)
           ev.

(** The images that the progress lines report as failed: those whose line,
    counted from [count], reads the file name followed by [(failed)]. *)
Fixpoint lines_marked_failed (count total : Z) (images : list Path)
  (lines : list string) : list Path :=
  match images, lines with
  | img :: ri, line :: rl =>
      let rest := lines_marked_failed (count + 1) total ri rl in
      if String.eqb line
           (" [" ++ str_of_int (count + 1) ++ "/" ++ str_of_int total ++ "] "
                 ++ path_name img ++ " (failed)")
      then img :: rest
      else rest
  | _, _ => []
  end.

(** The images whose invocation exited with a status other than 0. *)
Definition exited_nonzero (images : list Path) (os : list RunOutcome)
  : list Path :=
  map fst (filter (fun p => exit_nonzero (snd p)) (combine images os)).

(** An image with a name of 41 characters, alone in its directory. *)
Definition long_name : string := "chapter-012-page-003-double-spread-01.png".

Definition long_name_fs : Node :=
  Dir [("app",
        Dir [("bin", Dir [("waifu2x-ncnn-vulkan", File)]);
             ("models",
              Dir [("waifu2x",
                    Dir [("models-cunet",
                          Dir [("noise0_scale2.0x_model.bin", File)])])])]);
       ("in", Dir [("vol1", Dir [(long_name, File)])])].

(** A host on which looking up the GPU devices leaves the files as they
    are. *)
Definition lookup_leaves_files (h : Host) : Prop :=
  forall cmd fs,
    vulkaninfo_cmd (system h) = Some cmd -> snd (subprocess_run h cmd fs) = fs.

(** The part of the command that does not depend on the settings. *)
Definition base_cmd (h : Host) (img_path out_file : Path) : list string :=
  [path_str (system h) (waifu_bin h);
   "-i"; path_str (system h) img_path;
   "-o"; path_str (system h) out_file;
   "-s"; "2";
   "-m"; path_str (system h) (models_dir h)].

(** * Properties *)

(** ** The effect monad *)

Lemma bind_ok {A B} (c : M A) (k : A -> M B) fs a fs1 ev1 :
  c fs = (Ok a, fs1, ev1) ->
  bind c k fs = (let '(r, fs2, ev2) := k a fs1 in (r, fs2, (ev1 ++ ev2)%list)).
Proof.
  intros H. unfold bind. rewrite H. destruct (k a fs1) as [[r fs2] ev2].
  reflexivity.
Qed.

Lemma bind_raise {A B} (c : M A) (k : A -> M B) fs e fs1 ev1 :
  c fs = (Raise e, fs1, ev1) ->
  bind c k fs = (Raise e, fs1, ev1).
Proof. intros H. unfold bind. rewrite H. reflexivity. Qed.

Lemma prepend_nil {A} (x : Result A * Node * list Event) : prepend [] x = x.
Proof. destruct x as [[r fs] ev]. reflexivity. Qed.

Lemma prepend_prepend {A} l1 l2 (x : Result A * Node * list Event) :
  prepend l1 (prepend l2 x) = prepend (l1 ++ l2) x.
Proof.
  destruct x as [[r fs] ev]. unfold prepend. cbn. now rewrite app_assoc.
Qed.

(** A computation followed by another. *)
Lemma bind_step {A B} (c : M A) (k : A -> M B) fs :
  bind c k fs
  = match result_of (c fs) with
    | Ok a => prepend (events_of (c fs)) (k a (fs_of (c fs)))
    | Raise e => (Raise e, fs_of (c fs), events_of (c fs))
    end.
Proof.
  unfold bind. destruct (c fs) as [[[a|e] fs1] ev1]; cbn; [|reflexivity].
  destruct (k a fs1) as [[r fs2] ev2]. reflexivity.
Qed.

Lemma bind_emit {B} l (k : unit -> M B) fs :
  bind (emit l) k fs = prepend l (k tt fs).
Proof. rewrite bind_step. reflexivity. Qed.

Lemma bind_print {B} text (k : unit -> M B) fs :
  bind (print text) k fs = prepend [Print text] (k tt fs).
Proof. apply bind_emit. Qed.

Lemma bind_ret {A B} (a : A) (k : A -> M B) fs : bind (ret a) k fs = k a fs.
Proof. rewrite bind_step. apply prepend_nil. Qed.

Lemma bind_ask {A B} (f : Node -> A) (k : A -> M B) fs :
  bind (ask f) k fs = k (f fs) fs.
Proof. rewrite bind_step. apply prepend_nil. Qed.

Lemma bind_query {A B} (f : Node -> Exn + A) (k : A -> M B) fs :
  bind (query f) k fs
  = match f fs with
    | inr a => k a fs
    | inl e => (Raise e, fs, [])
    end.
Proof.
  rewrite bind_step. unfold query. destruct (f fs); cbn; [reflexivity|].
  apply prepend_nil.
Qed.

Lemma bind_change {B} (f : Node -> Exn + Node) (k : unit -> M B) fs :
  bind (change f) k fs
  = match f fs with
    | inr fs' => k tt fs'
    | inl e => (Raise e, fs, [])
    end.
Proof.
  rewrite bind_step. unfold change. destruct (f fs); cbn; [reflexivity|].
  apply prepend_nil.
Qed.

Lemma bind_new_tracker {B} total descr (k : ProgressTracker -> M B) fs :
  bind (new_tracker total descr) k fs
  = prepend (snd (ProgressTracker_init total descr))
            (k (fst (ProgressTracker_init total descr)) fs).
Proof.
  rewrite bind_step. unfold new_tracker, ProgressTracker_init. cbn.
  rewrite app_nil_r. reflexivity.
Qed.

Lemma events_prepend {A} l (x : Result A * Node * list Event) :
  events_of (prepend l x) = (l ++ events_of x)%list.
Proof. reflexivity. Qed.

Lemma result_prepend {A} l (x : Result A * Node * list Event) :
  result_of (prepend l x) = result_of x.
Proof. reflexivity. Qed.

Lemma fs_prepend {A} l (x : Result A * Node * list Event) :
  fs_of (prepend l x) = fs_of x.
Proof. reflexivity. Qed.

Lemma runs_app ev1 ev2 : runs (ev1 ++ ev2) = (runs ev1 ++ runs ev2)%list.
Proof. unfold runs. apply flat_map_app. Qed.

Lemma progress_output_app ev1 ev2 :
  progress_output (ev1 ++ ev2)
  = (progress_output ev1 ++ progress_output ev2)%list.
Proof. unfold progress_output. apply filter_app. Qed.

Lemma disk_calls_app ev1 ev2 :
  disk_calls (ev1 ++ ev2) = (disk_calls ev1 ++ disk_calls ev2)%list.
Proof. unfold disk_calls. apply filter_app. Qed.

(** ** The progress tracker *)

Lemma _display_runs t name : runs (_display t name) = [].
Proof.
  unfold _display. destruct (total_items t =? 0); [reflexivity|].
  cbn. destruct (current_item t >=? total_items t); reflexivity.
Qed.

Lemma _display_progress t name :
  progress_output (_display t name) = _display t name.
Proof.
  unfold _display. destruct (total_items t =? 0); [reflexivity|].
  cbn. destruct (current_item t >=? total_items t); reflexivity.
Qed.

Lemma _display_disk t name : disk_calls (_display t name) = [].
Proof.
  unfold _display. destruct (total_items t =? 0); [reflexivity|].
  cbn. destruct (current_item t >=? total_items t); reflexivity.
Qed.

Lemma update_total t name : total_items (fst (update t name)) = total_items t.
Proof. reflexivity. Qed.

Lemma update_current t name :
  current_item (fst (update t name)) = current_item t + 1.
Proof. reflexivity. Qed.

Lemma updates_total labels : forall t,
  total_items (fst (updates t labels)) = total_items t.
Proof.
  induction labels as [|l r IH]; intros t; cbn; [reflexivity|].
  specialize (IH (set_current t (current_item t + 1))).
  destruct (updates _ r) as [t2 e2]. exact IH.
Qed.

Lemma updates_current labels : forall t,
  current_item (fst (updates t labels))
  = current_item t + Z.of_nat (List.length labels).
Proof.
  induction labels as [|l r IH]; intros t; cbn [updates List.length].
  - cbn. lia.
  - unfold update. specialize (IH (set_current t (current_item t + 1))).
    destruct (updates _ r) as [t2 e2]. cbn [fst] in *. rewrite IH. cbn. lia.
Qed.

Lemma updates_runs labels : forall t, runs (snd (updates t labels)) = [].
Proof.
  induction labels as [|l r IH]; intros t; cbn; [reflexivity|].
  specialize (IH (set_current t (current_item t + 1))).
  destruct (updates _ r) as [t2 e2]. cbn [snd] in *.
  rewrite runs_app, _display_runs, IH. reflexivity.
Qed.

Lemma updates_progress labels : forall t,
  progress_output (snd (updates t labels)) = snd (updates t labels).
Proof.
  induction labels as [|l r IH]; intros t; cbn; [reflexivity|].
  specialize (IH (set_current t (current_item t + 1))).
  destruct (updates _ r) as [t2 e2]. cbn [snd] in *.
  rewrite progress_output_app, _display_progress, IH. reflexivity.
Qed.

Lemma percent_full (n : Z) :
  n <> 0 -> ((inject_Z n / inject_Z n) * 100 == 100)%Q.
Proof.
  intros Hn.
  assert (Hq : ~ (inject_Z n == 0)%Q).
  { unfold Qeq, inject_Z. cbn. lia. }
  unfold Qdiv. rewrite Qmult_inv_r by exact Hq. ring.
Qed.

(** Claim C8.  On a tracker whose total is positive and whose count is below
    it, [finish] sets the count to the total and draws the bar exactly once,
    full and showing total/total; a second [finish] leaves the tracker as it
    is and draws no bar, it only ends the line again. *)
Theorem finish_forces_total_once (t : ProgressTracker) :
  0 < total_items t ->
  current_item t < total_items t ->
  let t' := fst (finish t) in
  current_item t' = total_items t
  /\ total_items t' = total_items t
  /\ draws (snd (finish t)) = 1%nat
  /\ (exists percent,
        snd (finish t)
        = [Draw (repeat Full (Z.to_nat (bar_length t))) percent
                (" [" ++ str_of_int (total_items t) ++ "/"
                      ++ str_of_int (total_items t) ++ "]");
           Newline; Newline]
        /\ (percent == 100)%Q)
  /\ finish t' = (t', [Newline])
  /\ draws (snd (finish t')) = 0%nat.
Proof.
  intros Hpos Hlt. cbn zeta.
  assert (Hfin : finish t
                 = (set_current t (total_items t),
                    (_display (set_current t (total_items t)) None
                     ++ [Newline])%list)).
  { unfold finish. destruct (Z.ltb_spec (current_item t) (total_items t));
      [reflexivity | lia]. }
  assert (Hdisp : _display (set_current t (total_items t)) None
                  = [Draw (repeat Full (Z.to_nat (bar_length t)))
                          ((inject_Z (total_items t) / inject_Z (total_items t))
                           * 100)%Q
                          (" [" ++ str_of_int (total_items t) ++ "/"
                                ++ str_of_int (total_items t) ++ "]");
                     Newline]).
  { unfold _display. cbn [total_items current_item bar_length set_current].
    destruct (Z.eqb_spec (total_items t) 0); [lia|].
    rewrite Z.div_mul by lia. rewrite Z.sub_diag. cbn [Z.to_nat repeat].
    rewrite app_nil_r.
    destruct (Z.geb_spec (total_items t) (total_items t)); [|lia].
    reflexivity. }
  assert (Hagain : finish (set_current t (total_items t))
                   = (set_current t (total_items t), [Newline])).
  { unfold finish. cbn [total_items current_item set_current].
    rewrite Z.ltb_irrefl. reflexivity. }
  rewrite Hfin. cbn [fst snd]. rewrite Hdisp, Hagain.
  repeat split; try reflexivity.
  eexists. split; [reflexivity|]. apply percent_full. lia.
Qed.

(** The claim at 40 of 100. *)
Lemma finish_forces_total_once_witness :
  let t := {| total_items := 100; current_item := 40;
              description := "Upscaling"; bar_length := 50 |} in
  current_item (fst (finish t)) = 100
  /\ finish (fst (finish t)) = (fst (finish t), [Newline]).
Proof.
  intros t.
  destruct (finish_forces_total_once t) as (H1 & _ & _ & _ & H5 & _);
    [reflexivity | reflexivity |].
  split; [exact H1 | exact H5].
Defined.

(** ** The command line of an invocation *)

(** A number is never written as a flag. *)
Lemma string_of_uint_digit d :
  exists c r, NilZero.string_of_uint d = String c r
              /\ (48 <= nat_of_ascii c <= 57)%nat.
Proof.
  destruct d; cbn; eexists; eexists; (split; [reflexivity | cbn; lia]).
Qed.

Lemma str_of_int_not_flag n c :
  (nat_of_ascii c < 48 \/ 57 < nat_of_ascii c)%nat ->
  str_of_int n <> String "-" (String c "").
Proof.
  intros Hc. unfold str_of_int, NilZero.string_of_int.
  destruct (Z.to_int n) as [d|d];
    destruct (string_of_uint_digit d) as (c' & r & -> & Hd); intros E.
  - injection E as E1 E2. subst c'. cbn in Hd. lia.
  - injection E as E1 E2. subst c'. lia.
Qed.

Lemma path_str_not_flag s p c : path_str s p <> String "-" c.
Proof.
  unfold path_str, os_sep.
  destruct p as [|x p]; destruct (is_windows s); cbn; try discriminate;
    destruct p; discriminate.
Qed.

Lemma base_cmd_no_t h img out : ~ In "-t" (base_cmd h img out).
Proof.
  unfold base_cmd. cbn. intros H.
  repeat (destruct H as [H|H];
          [try discriminate H;
           try (apply path_str_not_flag in H; exact H) |]).
  exact H.
Qed.

(** Claim C7.  Every command starts with the executable, the input and the
    output file, scale factor 2 and the directory of the model weights; the
    tile flag [-t] occurs in it exactly when the settings are given, hold a
    [tile_size], and that value is greater than 0, and it is then followed by
    the value; without settings ([None] or an empty dictionary) the only
    addition is denoise level 0. *)
Theorem build_cmd_parameters (h : Host) (img_path out_file : Path)
  (quality_settings : option Dict) :
  (exists rest,
      build_cmd h img_path out_file quality_settings
      = (base_cmd h img_path out_file ++ rest)%list)
  /\ (In "-t" (build_cmd h img_path out_file quality_settings)
      <-> exists qs t,
            truthy quality_settings = Some qs
            /\ dict_get "tile_size" qs = Some t /\ 0 < t)
  /\ (forall qs t,
        truthy quality_settings = Some qs ->
        dict_get "tile_size" qs = Some t -> 0 < t ->
        exists before after,
          build_cmd h img_path out_file quality_settings
          = (before ++ "-t" :: str_of_int t :: after)%list)
  /\ (truthy quality_settings = None ->
      build_cmd h img_path out_file quality_settings
      = (base_cmd h img_path out_file ++ ["-n"; "0"])%list).
Proof.
  unfold build_cmd. fold (base_cmd h img_path out_file).
  destruct (truthy quality_settings) as [qs|] eqn:Hq.
  - assert (Hn : forall l, In "-t" l ->
                 l = match dict_get "denoise_level" qs with
                     | Some d => ["-n"; str_of_int d]
                     | None => ["-n"; "0"]
                     end -> False).
    { intros l Hin ->. destruct (dict_get "denoise_level" qs); cbn in Hin;
        destruct Hin as [E|[E|[]]]; try discriminate E.
      revert E. apply str_of_int_not_flag. cbn. lia. }
    assert (Hg : forall l, In "-t" l ->
                 l = match dict_get "gpu_id" qs with
                     | Some g => ["-g"; str_of_int g]
                     | None => []
                     end -> False).
    { intros l Hin ->. destruct (dict_get "gpu_id" qs); cbn in Hin;
        [destruct Hin as [E|[E|[]]]; try discriminate E | destruct Hin].
      revert E. apply str_of_int_not_flag. cbn. lia. }
    repeat split.
    + eexists. reflexivity.
    + intros Hin. apply in_app_or in Hin. destruct Hin as [Hin|Hin];
        [exfalso; revert Hin; apply base_cmd_no_t|].
      apply in_app_or in Hin. destruct Hin as [Hin|Hin];
        [exfalso; eapply Hn; [exact Hin | reflexivity]|].
      apply in_app_or in Hin. destruct Hin as [Hin|Hin];
        [|exfalso; eapply Hg; [exact Hin | reflexivity]].
      destruct (dict_get "tile_size" qs) as [t|] eqn:Ht; [|destruct Hin].
      destruct (Z.gtb_spec t 0); [|destruct Hin].
      exists qs, t. split; [reflexivity|]. split; [exact Ht | lia].
    + intros (qs' & t & E & Ht & Hpos). injection E as <-.
      rewrite Ht. destruct (Z.gtb_spec t 0); [|lia].
      apply in_or_app. right. apply in_or_app. right. cbn. left. reflexivity.
    + intros qs' t E Ht Hpos. injection E as <-. rewrite Ht.
      destruct (Z.gtb_spec t 0); [|lia].
      eexists (base_cmd h img_path out_file ++ _)%list. eexists.
      rewrite <- app_assoc. reflexivity.
    + discriminate.
  - repeat split.
    + eexists. reflexivity.
    + intros Hin. apply in_app_or in Hin. destruct Hin as [Hin|Hin];
        [exfalso; revert Hin; apply base_cmd_no_t|].
      cbn in Hin. destruct Hin as [E|[E|[]]]; discriminate E.
    + intros (qs & t & E & _). discriminate E.
    + intros qs t E. discriminate E.
Qed.

(** ** The loop over the images of a batch *)

Lemma invoke_all_length h cmds : forall fs,
  List.length (fst (invoke_all h cmds fs)) = List.length cmds.
Proof.
  induction cmds as [|c r IH]; intros fs; cbn; [reflexivity|].
  destruct (subprocess_run h c fs) as [o fs1]. specialize (IH fs1).
  destruct (invoke_all h r fs1) as [os fs2]. cbn in *. now rewrite IH.
Qed.

Lemma labels_for_length images os :
  List.length os = List.length images ->
  List.length (labels_for images os) = List.length images.
Proof.
  revert os. induction images as [|i r IH]; intros [|o os] H; cbn in *;
    try reflexivity; try discriminate.
  f_equal. apply IH. lia.
Qed.

(** The whole loop: it never raises; it runs one command per image, in the
    order of the list, whatever the outcomes are; and it makes one update per
    image, labelled by the outcome. *)
Lemma run_images_spec h output_path qs : forall images t fs,
  exists ev,
    run_images h images output_path qs (Some t) fs
    = (Ok (Some (fst (updates t
                        (labels_for images
                           (fst (invoke_all h
                                   (cmds_for h output_path qs images) fs)))))),
       snd (invoke_all h (cmds_for h output_path qs images) fs),
       ev)
    /\ runs ev = cmds_for h output_path qs images
    /\ progress_output ev
       = snd (updates t
                (labels_for images
                   (fst (invoke_all h (cmds_for h output_path qs images) fs))))
    /\ disk_calls ev = [].
Proof.
  induction images as [|img rest IH]; intros t fs.
  - exists []. cbn. repeat split.
  - cbn [run_images cmds_for map invoke_all].
    fold (cmds_for h output_path qs rest).
    set (cmd := build_cmd h img (joinpath output_path (path_name img)) qs).
    unfold bind at 1. unfold subprocess_run_M at 1.
    destruct (subprocess_run h cmd fs) as [o fs1] eqn:Hrun.
    unfold bind at 1. unfold tracker_update at 1.
    set (lbl := outcome_label (path_name img) o).
    destruct (update t (Some lbl)) as [t1 e1] eqn:Hup.
    cbn [bind emit ret].
    destruct (IH t1 fs1) as (ev & Hev & Hr & Hp & Hd).
    rewrite Hev.
    destruct (invoke_all h (cmds_for h output_path qs rest) fs1)
      as [os fs2] eqn:Hall.
    cbn [fst snd labels_for updates]. fold lbl. rewrite Hup.
    cbn [fst snd] in *.
    destruct (updates t1 (labels_for rest os)) as [t2 e2] eqn:Hups.
    cbn [fst snd] in *.
    eexists. split; [reflexivity|].
    assert (He1 : e1 = _display t1 (Some lbl)).
    { unfold update in Hup. injection Hup as <- <-. reflexivity. }
    repeat split.
    + cbn. rewrite !app_nil_r, runs_app, Hr. subst e1.
      rewrite _display_runs. reflexivity.
    + cbn. rewrite !app_nil_r, progress_output_app, Hp. subst e1.
      rewrite _display_progress. reflexivity.
    + cbn. rewrite !app_nil_r, disk_calls_app, Hd. subst e1.
      rewrite _display_disk. reflexivity.
Qed.

Lemma str_append_length a b :
  String.length (a ++ b) = (String.length a + String.length b)%nat.
Proof. induction a as [|c a IH]; cbn; [reflexivity | now rewrite IH]. Qed.

(** A label with a suffix is not the bare name. *)
Lemma suffix_distinct name suffix :
  suffix <> "" -> name ++ suffix <> name.
Proof.
  intros Hs E. apply (f_equal String.length) in E.
  rewrite str_append_length in E.
  destruct suffix; [now apply Hs | cbn in E; lia].
Qed.

Lemma failing_label name o :
  failing o = true ->
  exists suffix,
    In suffix [" (failed)"; " (timeout)"; " (error)"]
    /\ outcome_label name o = name ++ suffix
    /\ outcome_label name o <> name.
Proof.
  intros Hf. destruct o as [code out| |e]; cbn in *.
  - destruct code; [discriminate| |];
      (exists " (failed)"; repeat split;
       [cbn; tauto | apply suffix_distinct; discriminate]).
  - exists " (timeout)". repeat split;
      [cbn; tauto | apply suffix_distinct; discriminate].
  - exists " (error)". repeat split;
      [cbn; tauto | apply suffix_distinct; discriminate].
Qed.

(** [run_waifu2x] once the output directory is there. *)
Lemma run_waifu2x_spec h input_path output_path qs t fs fs1 :
  mkdir_p output_path fs = inr fs1 ->
  exists ev,
    run_waifu2x h input_path output_path qs (Some t) fs
    = (Ok (Some (fst (updates t
             (labels_for (images_of h input_path fs1)
                (fst (invoke_all h
                        (cmds_for h output_path qs
                           (images_of h input_path fs1)) fs1)))))),
       snd (invoke_all h
              (cmds_for h output_path qs (images_of h input_path fs1)) fs1),
       ev)
    /\ runs ev = cmds_for h output_path qs (images_of h input_path fs1)
    /\ progress_output ev
       = snd (updates t
                (labels_for (images_of h input_path fs1)
                   (fst (invoke_all h
                           (cmds_for h output_path qs
                              (images_of h input_path fs1)) fs1))))
    /\ disk_calls ev = [].
Proof.
  intros Hmk. unfold run_waifu2x.
  unfold bind at 1. unfold change at 1. rewrite Hmk.
  unfold bind at 1. unfold ask at 1.
  destruct (images_of h input_path fs1) as [|img rest] eqn:Himgs.
  - cbn. eexists. split; [reflexivity|]. repeat split.
  - destruct (run_images_spec h output_path qs (img :: rest) t fs1)
      as (ev & Hev & Hr & Hp & Hd).
    rewrite Hev. eexists. split; [reflexivity|].
    cbn [app]. repeat split; assumption.
Qed.

(** ** What an update draws *)

Lemma str_take_length : forall n s,
  String.length (str_take n s) = Nat.min n (String.length s).
Proof.
  unfold str_take. induction n as [|n IH]; intros [|c s]; cbn;
    try reflexivity.
  now rewrite IH.
Qed.

Lemma str_take_app : forall n s suffix,
  (n <= String.length s)%nat -> str_take n (s ++ suffix) = str_take n s.
Proof.
  unfold str_take. induction n as [|n IH]; intros [|c s] suffix H; cbn in *;
    try reflexivity; try lia.
  - destruct suffix; reflexivity.
  - f_equal. apply IH. lia.
Qed.

Lemma str_append_assoc a b c : (a ++ b) ++ c = a ++ b ++ c.
Proof. induction a as [|x a IH]; cbn; [reflexivity | now rewrite IH]. Qed.

Lemma str_append_nil_r a : a ++ "" = a.
Proof. induction a as [|x a IH]; cbn; [reflexivity | now rewrite IH]. Qed.

Lemma str_append_cancel a b c : a ++ b = a ++ c -> b = c.
Proof.
  induction a as [|x a IH]; cbn; intros H; [exact H|].
  injection H as H. apply IH, H.
Qed.

Lemma str_append_nonempty a b : b <> "" -> String.eqb (a ++ b) "" = false.
Proof.
  intros Hb. destruct a as [|x a]; cbn; [|reflexivity].
  destruct b; [contradiction | reflexivity].
Qed.

(** The line an update draws when the total is not 0. *)
Lemma update_draws t label :
  total_items t <> 0 ->
  snd (update t (Some label))
  = Draw (repeat Full
            (Z.to_nat (bar_length t * (current_item t + 1) / total_items t))
          ++ repeat Shade
               (Z.to_nat (bar_length t
                          - bar_length t * (current_item t + 1)
                            / total_items t)))
         (inject_Z (current_item t + 1) / inject_Z (total_items t) * 100)%Q
         (" [" ++ str_of_int (current_item t + 1) ++ "/"
               ++ str_of_int (total_items t) ++ "]"
               ++ (if String.eqb label "" then ""
                   else " " ++ shown_name label))
    :: (if current_item t + 1 >=? total_items t then [Newline] else []).
Proof.
  intros Ht. unfold update, _display.
  cbn [snd total_items current_item bar_length set_current].
  destruct (Z.eqb_spec (total_items t) 0); [contradiction|].
  f_equal. f_equal.
  destruct (String.eqb label "").
  - rewrite str_append_nil_r. reflexivity.
  - rewrite !str_append_assoc. reflexivity.
Qed.

Lemma update_draws_nothing t label :
  total_items t = 0 -> snd (update t label) = [].
Proof.
  intros Ht. unfold update, _display.
  cbn [snd total_items current_item bar_length set_current].
  rewrite Ht. reflexivity.
Qed.

Lemma updates_cons t l r :
  snd (updates t (l :: r))
  = (snd (update t (Some l))
     ++ snd (updates (set_current t (current_item t + 1)) r))%list.
Proof.
  cbn [updates]. unfold update at 1.
  destruct (updates (set_current t (current_item t + 1)) r) as [t2 e2].
  reflexivity.
Qed.

Lemma updates_draw_nothing labels : forall t,
  total_items t = 0 -> snd (updates t labels) = [].
Proof.
  induction labels as [|l r IH]; intros t Ht; [reflexivity|].
  rewrite updates_cons, update_draws_nothing by exact Ht.
  apply IH. exact Ht.
Qed.

Lemma bar_lines_app a b :
  bar_lines (a ++ b) = (bar_lines a ++ bar_lines b)%list.
Proof. unfold bar_lines. apply filter_app. Qed.

Lemma statuses_app a b :
  statuses (a ++ b) = (statuses a ++ statuses b)%list.
Proof. unfold statuses. apply flat_map_app. Qed.

Lemma bar_lines_progress_output ev :
  bar_lines (progress_output ev) = bar_lines ev.
Proof.
  induction ev as [|e ev IH]; [reflexivity|].
  destruct e; cbn; rewrite ?IH; try reflexivity;
    unfold bar_lines, progress_output in IH; cbn; now rewrite IH.
Qed.

Lemma statuses_progress_output ev :
  statuses (progress_output ev) = statuses ev.
Proof.
  induction ev as [|e ev IH]; [reflexivity|].
  destruct e; cbn; rewrite ?IH; try reflexivity;
    unfold statuses, progress_output in IH; cbn; now rewrite IH.
Qed.

Lemma nth_bar_line_status ev : forall k bar percent status,
  nth_error (bar_lines ev) k = Some (Draw bar percent status) ->
  nth_error (statuses ev) k = Some status.
Proof.
  induction ev as [|e ev IH]; intros k bar percent status H.
  - destruct k; discriminate H.
  - destruct e; try (apply (IH _ _ _ _ H)).
    destruct k as [|k]; cbn in *.
    + now injection H as _ _ ->.
    + apply (IH _ _ _ _ H).
Qed.

(** The [k]-th line a sequence of updates draws. *)
Lemma updates_nth_line labels : forall t k label,
  total_items t <> 0 ->
  nth_error labels k = Some label ->
  nth_error (bar_lines (snd (updates t labels))) k
  = Some
      (Draw (repeat Full
               (Z.to_nat (bar_length t * (current_item t + Z.of_nat k + 1)
                          / total_items t))
             ++ repeat Shade
                  (Z.to_nat (bar_length t
                             - bar_length t
                               * (current_item t + Z.of_nat k + 1)
                               / total_items t)))
            (inject_Z (current_item t + Z.of_nat k + 1)
             / inject_Z (total_items t) * 100)%Q
            (" [" ++ str_of_int (current_item t + Z.of_nat k + 1) ++ "/"
                  ++ str_of_int (total_items t) ++ "]"
                  ++ (if String.eqb label "" then ""
                      else " " ++ shown_name label))).
Proof.
  induction labels as [|l r IH]; intros t k label Ht Hk.
  - destruct k; discriminate Hk.
  - rewrite updates_cons, bar_lines_app, (update_draws t l Ht).
    assert (E : forall rest,
              bar_lines (rest :: (if current_item t + 1 >=? total_items t
                                  then [Newline] else []))
              = bar_lines [rest]).
    { intros rest. destruct (current_item t + 1 >=? total_items t);
        destruct rest; reflexivity. }
    rewrite E. clear E. destruct k as [|k].
    + cbn in Hk. injection Hk as ->.
      replace (current_item t + Z.of_nat 0 + 1) with (current_item t + 1)
        by lia.
      reflexivity.
    + cbn in Hk.
      specialize (IH (set_current t (current_item t + 1)) k label Ht Hk).
      cbn [total_items current_item bar_length set_current] in IH.
      replace (current_item t + Z.of_nat (S k) + 1)
        with (current_item t + 1 + Z.of_nat k + 1) by lia.
      exact IH.
Qed.

Lemma updates_bar_lines_length labels : forall t,
  total_items t <> 0 ->
  List.length (statuses (snd (updates t labels))) = List.length labels.
Proof.
  induction labels as [|l r IH]; intros t Ht; [reflexivity|].
  rewrite updates_cons, statuses_app, (update_draws t l Ht), length_app.
  rewrite (IH (set_current t (current_item t + 1)) Ht).
  destruct (current_item t + 1 >=? total_items t); reflexivity.
Qed.

Lemma labels_for_nth images : forall os k img o,
  nth_error images k = Some img -> nth_error os k = Some o ->
  nth_error (labels_for images os) k
  = Some (outcome_label (path_name img) o).
Proof.
  induction images as [|i r IH]; intros [|o' os] [|k] img o Hi Ho;
    cbn in *; try discriminate.
  - now injection Hi as ->; injection Ho as ->.
  - apply IH; assumption.
Qed.

(** What the line shows of a label with a mark after the name is what it
    shows of the bare name exactly when the name is longer than 40
    characters, or 40 characters long and ending in three dots. *)
Lemma shown_name_suffix name suffix :
  suffix <> "" ->
  shown_name (name ++ suffix) = shown_name name
  <-> (40 < String.length name)%nat \/ name = str_take 37 name ++ "...".
Proof.
  intros Hs. unfold shown_name.
  assert (Hlen : (String.length name < String.length (name ++ suffix))%nat).
  { rewrite str_append_length. destruct suffix; [contradiction|cbn; lia]. }
  destruct (Nat.ltb_spec 40 (String.length name)) as [L|L].
  - destruct (Nat.ltb_spec 40 (String.length (name ++ suffix))); [|lia].
    rewrite str_take_app by lia. split; [left; exact L | reflexivity].
  - destruct (Nat.ltb_spec 40 (String.length (name ++ suffix))) as [L'|L'].
    + split.
      * intros E. right.
        assert (H40 : String.length name = 40%nat).
        { rewrite <- E, str_append_length, str_take_length.
          change (String.length "...") with 3%nat. lia. }
        rewrite str_take_app in E by lia. now symmetry.
      * intros [H|H]; [lia|].
        assert (H40 : String.length name = 40%nat).
        { rewrite H, str_append_length, str_take_length.
          change (String.length "...") with 3%nat.
          apply (f_equal String.length) in H.
          rewrite str_append_length, str_take_length in H.
          change (String.length "...") with 3%nat in H. lia. }
        rewrite str_take_app by lia. now symmetry.
    + split.
      * intros E. exfalso. revert E. apply suffix_distinct, Hs.
      * intros [H|H]; [lia|]. exfalso.
        apply (f_equal String.length) in H.
        rewrite str_append_length, str_take_length in H.
        change (String.length "...") with 3%nat in H. lia.
Qed.

Lemma status_cancel c total x y :
  " [" ++ c ++ "/" ++ total ++ "]" ++ x = " [" ++ c ++ "/" ++ total ++ "]" ++ y ->
  x = y.
Proof.
  intros H. cbn [append] in H. injection H as H.
  apply str_append_cancel in H. cbn [append] in H. injection H as H.
  apply str_append_cancel in H. cbn [append] in H. now injection H as H.
Qed.

Lemma cons_draw_status b1 p1 s1 (l1 : list Event) b2 p2 s2 l2 :
  Draw b1 p1 s1 :: l1 = Draw b2 p2 s2 :: l2 -> s1 = s2.
Proof. intros H. now injection H. Qed.

(** The line drawn for a label with a mark after the name is the line drawn
    for the bare name exactly when nothing is drawn, or the name is longer
    than 40 characters, or is 40 characters long and ends in three dots. *)
Lemma update_same_line t name suffix :
  suffix <> "" ->
  snd (update t (Some (name ++ suffix))) = snd (update t (Some name))
  <-> total_items t = 0
      \/ (40 < String.length name)%nat
      \/ name = str_take 37 name ++ "...".
Proof.
  intros Hs. destruct (Z.eq_dec (total_items t) 0) as [Ht|Ht].
  - rewrite !update_draws_nothing by exact Ht.
    split; [left; exact Ht | reflexivity].
  - rewrite !update_draws by exact Ht.
    rewrite (str_append_nonempty name suffix Hs).
    split.
    + intros E. right. apply cons_draw_status, status_cancel in E.
      destruct (String.eqb name ""); [discriminate E|].
      injection E as E. apply shown_name_suffix in E; assumption.
    + intros [H|H]; [contradiction|].
      assert (Hn : String.eqb name "" = false).
      { destruct name; [|reflexivity]. destruct H as [H|H];
          [cbn in H; lia | discriminate H]. }
      rewrite Hn. apply (shown_name_suffix name suffix Hs) in H.
      now rewrite H.
Qed.

(** Claim C1, as amended.  Once the output directory is there, a batch
    never raises: whatever each invocation does (exit status, timeout,
    failure to start), the commands run are those of all the images of the
    batch, in their order, and the counter ends one higher per image.  The
    update made for an invocation that did not exit with status 0 is given
    the file name followed by [(failed)], [(timeout)] or [(error)], which is
    never the label of a success.  What is drawn for the [k]-th image is
    one bar line with the counter, the total and the label, of which a label
    of more than 40 characters keeps its first 37 and three dots; nothing is
    drawn when the total is 0.  So the line of a failure is the line the
    same image would have got as a success exactly when nothing is drawn, or
    the name is longer than 40 characters, or the name is 40 characters long
    and ends in three dots: only otherwise is the failure told apart on the
    screen. *)
Theorem failures_do_not_stop_the_batch (h : Host)
  (input_path output_path : Path) (qs : option Dict) (t : ProgressTracker)
  (fs fs1 : Node) :
  mkdir_p output_path fs = inr fs1 ->
  let images := images_of h input_path fs1 in
  let cmds := cmds_for h output_path qs images in
  let outcomes := fst (invoke_all h cmds fs1) in
  exists t' fs' ev,
    run_waifu2x h input_path output_path qs (Some t) fs
    = (Ok (Some t'), fs', ev)
    /\ runs ev = cmds
    /\ List.length outcomes = List.length images
    /\ current_item t' = current_item t + Z.of_nat (List.length images)
    /\ (t', progress_output ev) = updates t (labels_for images outcomes)
    /\ (forall name o,
          failing o = true ->
          exists suffix,
            In suffix [" (failed)"; " (timeout)"; " (error)"]
            /\ outcome_label name o = name ++ suffix
            /\ outcome_label name o <> name)
    /\ (total_items t = 0 -> progress_output ev = [])
    /\ (total_items t <> 0 ->
        forall k img o,
          nth_error images k = Some img ->
          nth_error outcomes k = Some o ->
          let count := current_item t + Z.of_nat k + 1 in
          let filled := bar_length t * count / total_items t in
          let label := outcome_label (path_name img) o in
          nth_error (bar_lines ev) k
          = Some
              (Draw (repeat Full (Z.to_nat filled)
                     ++ repeat Shade (Z.to_nat (bar_length t - filled)))
                    (inject_Z count / inject_Z (total_items t) * 100)%Q
                    (" [" ++ str_of_int count ++ "/"
                          ++ str_of_int (total_items t) ++ "]"
                          ++ (if String.eqb label "" then ""
                              else if (40 <? String.length label)%nat
                                   then " " ++ str_take 37 label ++ "..."
                                   else " " ++ label))))
    /\ (forall name o,
          failing o = true ->
          snd (update t (Some (outcome_label name o)))
          = snd (update t (Some name))
          <-> total_items t = 0
              \/ (40 < String.length name)%nat
              \/ name = str_take 37 name ++ "...").
Proof.
  intros Hmk images cmds outcomes.
  destruct (run_waifu2x_spec h input_path output_path qs t fs fs1 Hmk)
    as (ev & Hev & Hr & Hp & _).
  fold images in Hev, Hr, Hp. fold cmds in Hev, Hr, Hp.
  fold outcomes in Hev, Hp.
  assert (Hlen : List.length outcomes = List.length images).
  { unfold outcomes. rewrite invoke_all_length. unfold cmds, cmds_for.
    apply length_map. }
  eexists _, _, ev. split; [exact Hev|].
  split; [exact Hr|]. split; [exact Hlen|]. split.
  { rewrite updates_current, labels_for_length by exact Hlen. reflexivity. }
  split.
  { rewrite Hp. destruct (updates t (labels_for images outcomes)); reflexivity. }
  split; [intros name o; apply failing_label|].
  split.
  { intros Ht. rewrite Hp. apply updates_draw_nothing, Ht. }
  split.
  - intros Ht k img o Hi Ho. cbv zeta.
    rewrite <- bar_lines_progress_output, Hp.
    rewrite (updates_nth_line _ t k _ Ht (labels_for_nth _ _ _ _ _ Hi Ho)).
    unfold shown_name.
    destruct (String.eqb (outcome_label (path_name img) o) "");
      [reflexivity|].
    destruct (Nat.ltb 40 (String.length (outcome_label (path_name img) o)));
      reflexivity.
  - intros name o Hf.
    destruct (failing_label name o Hf) as (suffix & Hin & -> & _).
    apply update_same_line.
    destruct Hin as [<-|[<-|[<-|[]]]]; discriminate.
Qed.

(** The claim where the first of two images makes the executable exit with
    status 1: the second is still run, the counter reaches 2, and the first
    line drawn names the failure. *)
Lemma failures_do_not_stop_the_batch_witness :
  exists t' fs' ev,
    run_waifu2x (sample_host (fails_on "/in/ch1/p1.jpg" 1))
      ["in"; "ch1"] ["out"; "ch1"] None (Some sample_tracker) sample_fs
    = (Ok (Some t'), fs', ev)
    /\ List.length (runs ev) = 2%nat
    /\ current_item t' = 2
    /\ nth_error (statuses ev) 0 = Some " [1/2] p1.jpg (failed)".
Proof.
  destruct (failures_do_not_stop_the_batch
              (sample_host (fails_on "/in/ch1/p1.jpg" 1))
              ["in"; "ch1"] ["out"; "ch1"] None sample_tracker sample_fs _
              eq_refl)
    as (t' & fs' & ev & H1 & H2 & _ & H4 & _ & _ & _ & H8 & _).
  exists t', fs', ev. split; [exact H1|]. split; [|split].
  - rewrite H2. reflexivity.
  - rewrite H4. reflexivity.
  - apply (nth_bar_line_status ev 0 _ _ _
             (H8 ltac:(discriminate) 0%nat ["in"; "ch1"; "p1.jpg"]
                 (Completed 1 "") eq_refl eq_refl)).
Defined.

(** Claim C1 as stated fails.  The image of this directory has a name of 41
    characters.  Each run makes two calls, the lookup of the GPU devices and
    the invocation on the image.  A run in which that invocation exits with
    status 1 and a run in which it succeeds print and draw the same, event
    for event, and end alike: the update of the failing image is not told
    apart. *)
Lemma long_name_failure_is_drawn_as_success :
  map (fails_on ("/in/vol1/" ++ long_name) 1)
      (runs (events_of
               (main (sample_host (fails_on ("/in/vol1/" ++ long_name) 1))
                     (Some (only_input ["in"; "vol1"])) long_name_fs)))
  = [Completed 0 ""; Completed 1 ""]
  /\ map always_ok
       (runs (events_of
                (main (sample_host always_ok)
                      (Some (only_input ["in"; "vol1"])) long_name_fs)))
     = [Completed 0 ""; Completed 0 ""]
  /\ events_of (main (sample_host (fails_on ("/in/vol1/" ++ long_name) 1))
                     (Some (only_input ["in"; "vol1"])) long_name_fs)
     = events_of (main (sample_host always_ok)
                       (Some (only_input ["in"; "vol1"])) long_name_fs)
  /\ result_of (main (sample_host (fails_on ("/in/vol1/" ++ long_name) 1))
                     (Some (only_input ["in"; "vol1"])) long_name_fs)
     = result_of (main (sample_host always_ok)
                       (Some (only_input ["in"; "vol1"])) long_name_fs)
  /\ statuses (events_of
                 (main (sample_host (fails_on ("/in/vol1/" ++ long_name) 1))
                       (Some (only_input ["in"; "vol1"])) long_name_fs))
     = [" [0/1]"; " [1/1] chapter-012-page-003-double-spread-01..."].
Proof. vm_compute. repeat split. Qed.

(** ** What is kept of an outcome *)

Lemma statuses_updates_cons t l r :
  total_items t <> 0 ->
  statuses (snd (updates t (l :: r)))
  = (" [" ++ str_of_int (current_item t + 1) ++ "/"
          ++ str_of_int (total_items t) ++ "]"
          ++ (if String.eqb l "" then "" else " " ++ shown_name l))
    :: statuses (snd (updates (set_current t (current_item t + 1)) r)).
Proof.
  intros Ht. rewrite updates_cons, statuses_app, (update_draws t l Ht).
  destruct (current_item t + 1 >=? total_items t); reflexivity.
Qed.

(** Whether the line of an image with a name of at most 30 characters reads
    the name and [(failed)] says whether its invocation exited with a status
    other than 0. *)
Lemma line_marks_exit_status c total name o :
  (String.length name <= 30)%nat ->
  String.eqb
    (" [" ++ c ++ "/" ++ total ++ "]"
          ++ (if String.eqb (outcome_label name o) "" then ""
              else " " ++ shown_name (outcome_label name o)))
    (" [" ++ c ++ "/" ++ total ++ "] " ++ name ++ " (failed)")
  = exit_nonzero o.
Proof.
  intros Hlen.
  assert (Hshown : forall suffix,
            (String.length suffix <= 10)%nat ->
            shown_name (name ++ suffix) = name ++ suffix).
  { intros suffix Hs. unfold shown_name.
    destruct (Nat.ltb_spec 40 (String.length (name ++ suffix))) as [L|L];
      [|reflexivity].
    rewrite str_append_length in L. lia. }
  assert (Hrhs : " [" ++ c ++ "/" ++ total ++ "] " ++ name ++ " (failed)"
                 = " [" ++ c ++ "/" ++ total ++ "]"
                        ++ " " ++ name ++ " (failed)") by reflexivity.
  rewrite Hrhs. clear Hrhs.
  assert (Hmarked : forall suffix,
            suffix <> "" -> (String.length suffix <= 10)%nat ->
            String.eqb
              (" [" ++ c ++ "/" ++ total ++ "]"
                    ++ (if String.eqb (name ++ suffix) "" then ""
                        else " " ++ shown_name (name ++ suffix)))
              (" [" ++ c ++ "/" ++ total ++ "]"
                    ++ " " ++ name ++ " (failed)")
            = String.eqb suffix " (failed)").
  { intros suffix Hne Hs.
    rewrite (str_append_nonempty name suffix Hne), (Hshown suffix Hs).
    destruct (String.eqb_spec suffix " (failed)") as [->|Hd].
    - apply String.eqb_refl.
    - apply String.eqb_neq. intros E. apply status_cancel in E.
      injection E as E. apply str_append_cancel in E. contradiction. }
  destruct o as [code out| |e]; cbn [outcome_label exit_nonzero].
  - destruct code;
      [|apply (Hmarked " (failed)"); [discriminate | cbn; lia]..].
    apply String.eqb_neq. intros E. apply status_cancel in E.
    destruct (String.eqb name ""); [discriminate E|].
    injection E as E. unfold shown_name in E.
    destruct (Nat.ltb_spec 40 (String.length name)); [lia|].
    symmetry in E. revert E. apply suffix_distinct. discriminate.
  - apply (Hmarked " (timeout)"); [discriminate | cbn; lia].
  - apply (Hmarked " (error)"); [discriminate | cbn; lia].
Qed.

(** The failures read from the lines of a batch of short names are the
    images whose invocation exited with a status other than 0. *)
Lemma lines_marked_failed_updates images : forall os t,
  total_items t <> 0 ->
  List.length os = List.length images ->
  (forall img, In img images -> (String.length (path_name img) <= 30)%nat) ->
  lines_marked_failed (current_item t) (total_items t) images
    (statuses (snd (updates t (labels_for images os))))
  = exited_nonzero images os.
Proof.
  induction images as [|img r IH]; intros [|o os] t Ht Hlen Hshort;
    try reflexivity; try discriminate Hlen.
  cbn [labels_for]. rewrite (statuses_updates_cons t _ _ Ht).
  cbn [lines_marked_failed].
  rewrite line_marks_exit_status by (apply Hshort; left; reflexivity).
  specialize (IH os (set_current t (current_item t + 1)) Ht).
  cbn [total_items current_item set_current] in IH.
  rewrite IH;
    [| cbn in Hlen; lia | intros i Hi; apply Hshort; right; exact Hi].
  unfold exited_nonzero. cbn [combine filter snd].
  destruct (exit_nonzero o); reflexivity.
Qed.

(** Claim C2, as amended.  A batch returns nothing but the state of the
    tracker it was given: there is no report.  Every image, failed or not,
    adds one to the counter.  An outcome is kept at most in the line drawn
    for its image, which reads the counter, the total and the label of the
    update, a label of more than 40 characters cut to its first 37 and three
    dots.  The label is the file name after exit status 0, the name and
    [(failed)] after any other exit status, whose value is dropped, the
    name and [(timeout)] after a timeout, the name and [(error)] after any
    other exception.  So in a batch whose names have at most 30 characters
    the images that the lines mark as failed are those whose invocation
    exited with a status other than 0, while the line of an image whose name
    is longer than 40 characters is the same whatever its outcome, and when
    the total is 0 nothing is drawn: then nothing is kept. *)
Theorem outcomes_are_kept_only_as_labels (h : Host)
  (input_path output_path : Path) (qs : option Dict) (t : ProgressTracker)
  (fs fs1 : Node) :
  mkdir_p output_path fs = inr fs1 ->
  let images := images_of h input_path fs1 in
  let outcomes :=
    fst (invoke_all h (cmds_for h output_path qs images) fs1) in
  exists t' fs' ev,
    run_waifu2x h input_path output_path qs (Some t) fs
    = (Ok (Some t'), fs', ev)
    /\ List.length outcomes = List.length images
    /\ current_item t' = current_item t + Z.of_nat (List.length images)
    /\ total_items t' = total_items t
    /\ (total_items t = 0 -> progress_output ev = [])
    /\ (total_items t <> 0 ->
        List.length (statuses ev) = List.length images
        /\ (forall k img o,
              nth_error images k = Some img ->
              nth_error outcomes k = Some o ->
              let label := outcome_label (path_name img) o in
              nth_error (statuses ev) k
              = Some (" [" ++ str_of_int (current_item t + Z.of_nat k + 1)
                           ++ "/" ++ str_of_int (total_items t) ++ "]"
                           ++ (if String.eqb label "" then ""
                               else if (40 <? String.length label)%nat
                                    then " " ++ str_take 37 label ++ "..."
                                    else " " ++ label)))
        /\ ((forall img, In img images ->
                         (String.length (path_name img) <= 30)%nat) ->
            lines_marked_failed (current_item t) (total_items t) images
              (statuses ev)
            = exited_nonzero images outcomes)
        /\ (forall k img,
              nth_error images k = Some img ->
              (40 < String.length (path_name img))%nat ->
              nth_error (statuses ev) k
              = Some (" [" ++ str_of_int (current_item t + Z.of_nat k + 1)
                           ++ "/" ++ str_of_int (total_items t) ++ "] "
                           ++ str_take 37 (path_name img) ++ "...")))
    /\ (forall name code code' out out',
          code <> 0 -> code' <> 0 ->
          outcome_label name (Completed code out) = name ++ " (failed)"
          /\ outcome_label name (Completed code out)
             = outcome_label name (Completed code' out'))
    /\ (forall name out e,
          outcome_label name (Completed 0 out) = name
          /\ outcome_label name TimeoutExpired = name ++ " (timeout)"
          /\ outcome_label name (RunRaised e) = name ++ " (error)").
Proof.
  intros Hmk images outcomes.
  destruct (run_waifu2x_spec h input_path output_path qs t fs fs1 Hmk)
    as (ev & Hev & _ & Hp & _).
  fold images in Hev, Hp. fold outcomes in Hev, Hp.
  assert (Hlen : List.length outcomes = List.length images).
  { unfold outcomes. rewrite invoke_all_length. unfold cmds_for.
    apply length_map. }
  assert (Hline : total_items t <> 0 ->
            forall k img o,
              nth_error images k = Some img ->
              nth_error outcomes k = Some o ->
              nth_error (statuses ev) k
              = Some (" [" ++ str_of_int (current_item t + Z.of_nat k + 1)
                           ++ "/" ++ str_of_int (total_items t) ++ "]"
                           ++ (if String.eqb
                                    (outcome_label (path_name img) o) ""
                               then ""
                               else " " ++ shown_name
                                             (outcome_label (path_name img)
                                                o)))).
  { intros Ht k img o Hi Ho.
    apply (nth_bar_line_status ev k
             (repeat Full
                (Z.to_nat (bar_length t * (current_item t + Z.of_nat k + 1)
                           / total_items t))
              ++ repeat Shade
                   (Z.to_nat (bar_length t
                              - bar_length t
                                * (current_item t + Z.of_nat k + 1)
                                / total_items t)))
             (inject_Z (current_item t + Z.of_nat k + 1)
              / inject_Z (total_items t) * 100)%Q).
    rewrite <- bar_lines_progress_output, Hp.
    apply (updates_nth_line _ t k _ Ht (labels_for_nth _ _ _ _ _ Hi Ho)). }
  eexists _, _, ev. split; [exact Hev|]. split; [exact Hlen|]. split.
  { rewrite updates_current, labels_for_length by exact Hlen. reflexivity. }
  split; [apply updates_total|]. split.
  { intros Ht. rewrite Hp. apply updates_draw_nothing, Ht. }
  split; [|split].
  - intros Ht. split; [|split; [|split]].
    + rewrite <- statuses_progress_output, Hp.
      rewrite updates_bar_lines_length by exact Ht.
      apply labels_for_length, Hlen.
    + intros k img o Hi Ho. cbv zeta. rewrite (Hline Ht k img o Hi Ho).
      unfold shown_name.
      destruct (String.eqb (outcome_label (path_name img) o) "");
        [reflexivity|].
      destruct (Nat.ltb 40
                  (String.length (outcome_label (path_name img) o)));
        reflexivity.
    + intros Hshort. rewrite <- statuses_progress_output, Hp.
      apply lines_marked_failed_updates; assumption.
    + intros k img Hi Hlong.
      assert (Ho : exists o, nth_error outcomes k = Some o).
      { destruct (nth_error outcomes k) as [o|] eqn:E; [eauto|].
        apply nth_error_None in E.
        assert (k < List.length images)%nat
          by (apply nth_error_Some; congruence).
        lia. }
      destruct Ho as (o & Ho). rewrite (Hline Ht k img o Hi Ho).
      assert (Hsame : shown_name (outcome_label (path_name img) o)
                      = str_take 37 (path_name img) ++ "...").
      { transitivity (shown_name (path_name img)).
        - destruct (failing o) eqn:Hf.
          + destruct (failing_label (path_name img) o Hf)
              as (suffix & Hin & -> & _).
            apply shown_name_suffix; [|left; exact Hlong].
            destruct Hin as [<-|[<-|[<-|[]]]]; discriminate.
          + destruct o as [[| |] out| |e]; try discriminate Hf. reflexivity.
        - unfold shown_name.
          destruct (Nat.ltb_spec 40 (String.length (path_name img)));
            [reflexivity | lia]. }
      rewrite Hsame.
      assert (Hne : String.eqb (outcome_label (path_name img) o) "" = false).
      { destruct (String.eqb_spec (outcome_label (path_name img) o) "")
          as [E|]; [|reflexivity].
        apply (f_equal String.length) in E.
        destruct o as [[| |] out| |e]; cbn [outcome_label] in E;
          rewrite ?str_append_length in E; cbn in E; lia. }
      rewrite Hne. reflexivity.
  - intros name code code' out out' Hc Hc'.
    destruct code; [contradiction| |]; destruct code'; try contradiction;
      split; reflexivity.
  - intros name out e. repeat split.
Qed.

(** The amended claim on a batch of two images where the first one makes
    the executable exit with status 1: the lines mark that image, and no
    other, as failed. *)
Lemma outcomes_are_kept_only_as_labels_witness :
  exists t' fs' ev,
    run_waifu2x (sample_host (fails_on "/in/ch1/p1.jpg" 1))
      ["in"; "ch1"] ["out"; "ch1"] None (Some sample_tracker) sample_fs
    = (Ok (Some t'), fs', ev)
    /\ lines_marked_failed 0 2
         [["in"; "ch1"; "p1.jpg"]; ["in"; "ch1"; "p2.png"]] (statuses ev)
       = [["in"; "ch1"; "p1.jpg"]].
Proof.
  destruct (outcomes_are_kept_only_as_labels
              (sample_host (fails_on "/in/ch1/p1.jpg" 1))
              ["in"; "ch1"] ["out"; "ch1"] None sample_tracker sample_fs _
              eq_refl)
    as (t' & fs' & ev & H1 & _ & _ & _ & _ & H6 & _).
  exists t', fs', ev. split; [exact H1|].
  destruct (H6 ltac:(discriminate)) as (_ & _ & H & _).
  apply H. intros img [<-|[<-|[]]]; cbn; lia.
Defined.

(** Claim C2 as stated fails.  Two runs of the program on the same
    directory, in which the executable exits with status 1 or with status 2
    on the same image, end with the same exit status, the same files and the
    same output; so nothing the run returns or prints can be the report of
    the specification, whose list of failures would name the status. *)
Lemma no_report_of_exit_status :
  ~ exists report : Result Z * Node * list Event -> RunReport,
      failed (report (main (sample_host (fails_on "/in/ch1/p1.jpg" 1))
                        (Some (only_input ["in"; "ch1"])) sample_fs))
      = [(["in"; "ch1"; "p1.jpg"], ToolFailure 1)]
      /\ failed (report (main (sample_host (fails_on "/in/ch1/p1.jpg" 2))
                           (Some (only_input ["in"; "ch1"])) sample_fs))
         = [(["in"; "ch1"; "p1.jpg"], ToolFailure 2)].
Proof.
  intros (report & H1 & H2).
  assert (E : main (sample_host (fails_on "/in/ch1/p1.jpg" 1))
                (Some (only_input ["in"; "ch1"])) sample_fs
              = main (sample_host (fails_on "/in/ch1/p1.jpg" 2))
                  (Some (only_input ["in"; "ch1"])) sample_fs)
    by (vm_compute; reflexivity).
  rewrite E in H1. rewrite H1 in H2. discriminate H2.
Qed.

(** ** Counting the images of the chapters *)

Lemma prefix_cons a s1 r :
  prefix (String a s1) r = true ->
  exists r', r = String a r' /\ prefix s1 r' = true.
Proof.
  destruct r as [|b r]; cbn; [discriminate|].
  destruct (ascii_dec a b); [subst; eauto | discriminate].
Qed.

Ltac peel_prefix :=
  repeat match goal with
         | H : prefix (String _ _) _ = true |- _ =>
             apply prefix_cons in H;
             let r' := fresh "r" in
             let E := fresh "E" in
             destruct H as (r' & E & H);
             first [ discriminate E
                   | injection E as E; subst
                   | subst ]
         end.

(** No name matches two of the four patterns. *)
Lemma image_suffixes_disjoint s name :
  let m := fnmatch_star s name in
  match m ".png", m ".jpg", m ".jpeg", m ".webp" with
  | true, false, false, false
  | false, true, false, false
  | false, false, true, false
  | false, false, false, true
  | false, false, false, false => True
  | _, _, _, _ => False
  end.
Proof.
  unfold fnmatch_star, endswith, normcase.
  destruct (is_windows s); cbn [str_lower lower_ascii];
    match goal with |- context [str_rev ?x] =>
      match x with
      | context [name] => generalize (str_rev x)
      end
    end; intros r; vm_compute str_rev; cbn zeta;
    destruct (prefix "gnp." r) eqn:E1; destruct (prefix "gpj." r) eqn:E2;
    destruct (prefix "gepj." r) eqn:E3; destruct (prefix "pbew." r) eqn:E4;
    try exact I; exfalso; peel_prefix.
Qed.

(** The four globs of a directory together list each entry with the name of
    an image once. *)
Lemma glob_images_length s p fs :
  List.length (glob_images s p fs) = List.length (image_entries s p fs).
Proof.
  unfold glob_images, image_entries, glob, image_suffixes, is_image.
  cbn [flat_map existsb image_suffixes].
  rewrite !length_app, !length_map. cbn [List.length].
  induction (listdir p fs) as [|e es IH]; [reflexivity|].
  cbn [filter].
  pose proof (image_suffixes_disjoint s (fst e)) as D. cbn zeta in D.
  destruct (fnmatch_star s (fst e) ".png"),
           (fnmatch_star s (fst e) ".jpg"),
           (fnmatch_star s (fst e) ".jpeg"),
           (fnmatch_star s (fst e) ".webp");
    try contradiction; cbn [orb List.length]; lia.
Qed.

Lemma count_images_from s subdirs fs : forall acc,
  fold_left (fun total subdir =>
               total + Z.of_nat (List.length (glob_images s subdir fs)))
            subdirs acc
  = acc + Z.of_nat (list_sum
                      (map (fun d => List.length (image_entries s d fs))
                           subdirs)).
Proof.
  induction subdirs as [|d r IH]; intros acc; cbn [fold_left map].
  - cbn. lia.
  - rewrite IH, glob_images_length.
    change (list_sum (?a :: ?l)) with (a + list_sum l)%nat. lia.
Qed.

(** The total of the first pass is the sum, over the chapters, of the
    entries with the name of an image. *)
Lemma count_images_sum s subdirs fs :
  count_images s subdirs fs
  = Z.of_nat (list_sum (map (fun d => List.length (image_entries s d fs))
                            subdirs)).
Proof. unfold count_images. rewrite count_images_from. lia. Qed.

(** ** The tracker of a nested run *)

Lemma run_waifu2x_total h input_path output_path qs t fs t' :
  result_of (run_waifu2x h input_path output_path qs (Some t) fs)
  = Ok (Some t') ->
  total_items t' = total_items t.
Proof.
  destruct (mkdir_p output_path fs) as [e|fs1] eqn:Hmk.
  - unfold run_waifu2x, bind at 1, change at 1. rewrite Hmk. discriminate.
  - destruct (run_waifu2x_spec h input_path output_path qs t fs fs1 Hmk)
      as (ev & Hev & _).
    rewrite Hev. cbn. intros E. injection E as <-. apply updates_total.
Qed.

Lemma run_waifu2x_keeps_tracker h input_path output_path qs t fs r :
  result_of (run_waifu2x h input_path output_path qs (Some t) fs) = Ok r ->
  exists t', r = Some t'.
Proof.
  destruct (mkdir_p output_path fs) as [e|fs1] eqn:Hmk.
  - unfold run_waifu2x, bind at 1, change at 1. rewrite Hmk. discriminate.
  - destruct (run_waifu2x_spec h input_path output_path qs t fs fs1 Hmk)
      as (ev & Hev & _).
    rewrite Hev. cbn. intros E. injection E as <-. eauto.
Qed.

(** The second pass never changes the total of the tracker it works on. *)
Lemma process_chapters_total h output_path qs count : forall chapters idx t fs t',
  result_of (process_chapters h chapters idx count output_path qs (Some t) fs)
  = Ok (Some t') ->
  total_items t' = total_items t.
Proof.
  induction chapters as [|c r IH]; intros idx t fs t'.
  - cbn. intros E. injection E as <-. reflexivity.
  - cbn [process_chapters]. unfold bind at 1, print at 1, emit at 1.
    unfold bind at 1, print at 1, emit at 1.
    unfold bind at 1.
    destruct (run_waifu2x h c (joinpath output_path (path_name c)) qs
                (Some t) fs) as [[res fs1] ev1] eqn:Hrun.
    destruct res as [pt|e]; [|discriminate].
    assert (Hres : result_of (run_waifu2x h c
                      (joinpath output_path (path_name c)) qs (Some t) fs)
                   = Ok pt) by (rewrite Hrun; reflexivity).
    destruct (run_waifu2x_keeps_tracker _ _ _ _ _ _ _ Hres) as (t1 & ->).
    apply run_waifu2x_total in Hres.
    unfold bind at 1, print at 1, emit at 1.
    destruct (process_chapters h r (idx + 1) count output_path qs (Some t1)
                fs1) as [[res2 fs2] ev2] eqn:Hrest.
    cbn. intros E. rewrite <- Hres. apply (IH (idx + 1) t1 fs1).
    rewrite Hrest. exact E.
Qed.


(** The output of a nested run over a directory with subdirectories, in
    four parts: the lines before the bar, the first bar, the pass over the
    sorted chapters, the rest. *)
Lemma process_nested_events (h : Host)
  (input_path output_path : Path) (qs : option Dict) (zip_nested : bool)
  (fs : Node) (entries : list Path) :
  iterdir input_path fs = inr entries ->
  filter (fun d => is_dir d fs) entries <> [] ->
  let subdirs := filter (fun d => is_dir d fs) entries in
  let total :=
    Z.of_nat (list_sum (map (fun d =>
                               List.length (image_entries (system h) d fs))
                            subdirs)) in
  let start := ProgressTracker_init total "Overall Progress" in
  let second_pass :=
    process_chapters h (sorted (system h) subdirs) 1 (List.length subdirs)
      output_path qs (Some (fst start)) fs in
  exists before after,
    events_of (process_nested h input_path output_path qs zip_nested fs)
    = (before ++ snd start ++ events_of second_pass ++ after)%list
    /\ runs before = []
    /\ total_items (fst start) = total
    /\ (forall t',
          result_of second_pass = Ok (Some t') -> total_items t' = total).
Proof.
  intros Hit Hne. cbv zeta.
  unfold process_nested.
  rewrite bind_print, bind_query, Hit, bind_ask.
  destruct (filter (fun d => is_dir d fs) entries) as [|d0 ds] eqn:Hsub;
    [contradiction|].
  rewrite bind_print, bind_print, bind_ask, bind_print, bind_new_tracker.
  rewrite count_images_sum.
  set (total := Z.of_nat (list_sum _)).
  set (start := ProgressTracker_init total "Overall Progress").
  rewrite bind_step.
  set (second_pass := process_chapters _ _ _ _ _ _ _ _).
  pose proof (process_chapters_total h output_path qs
                (List.length (d0 :: ds)) (sorted (system h) (d0 :: ds)) 1
                (fst start) fs) as Htot.
  fold second_pass in Htot.
  rewrite !events_prepend.
  destruct (result_of second_pass) as [pt|e] eqn:Hres.
  - rewrite events_prepend.
    eexists [_; _; _; _], _.
    split; [reflexivity|].
    split; [reflexivity|]. split; [reflexivity|].
    intros t' E. apply Htot. exact E.
  - exists [Print ("Scanning nested structure in: "
                     ++ path_str (system h) input_path ++ nl);
            Print ("Found "
                     ++ str_of_int (Z.of_nat (List.length (d0 :: ds)))
                     ++ " subdirectories (chapters)" ++ nl);
            Print (str_mul "=" 70);
            Print ("Total: "
                     ++ str_of_int (Z.of_nat (List.length (d0 :: ds)))
                     ++ " chapters, " ++ str_of_int total
                     ++ " images" ++ nl)], [].
    rewrite app_nil_r.
    split; [reflexivity|].
    split; [reflexivity|]. split; [reflexivity|].
    intros t' E. discriminate E.
Qed.

(** Claim C3.  In a nested run over a directory with at least one
    subdirectory, the output is: some lines, none of them a command run;
    the first bar of a tracker whose total is the sum, over the
    subdirectories, of the entries whose name matches one of [*.png], [*.jpg],
    [*.jpeg], [*.webp], counted on the files as they are before anything is
    run; then the output of the pass that processes the chapters with this
    tracker; and the tracker that this pass gives back has the same total. *)
Theorem nested_total_is_counted_first (h : Host)
  (input_path output_path : Path) (qs : option Dict) (zip_nested : bool)
  (fs : Node) (entries : list Path) :
  iterdir input_path fs = inr entries ->
  filter (fun d => is_dir d fs) entries <> [] ->
  let subdirs := filter (fun d => is_dir d fs) entries in
  let total :=
    Z.of_nat (list_sum (map (fun d =>
                               List.length (image_entries (system h) d fs))
                            subdirs)) in
  let start := ProgressTracker_init total "Overall Progress" in
  let second_pass :=
    process_chapters h (sorted (system h) subdirs) 1 (List.length subdirs)
      output_path qs (Some (fst start)) fs in
  exists before after,
    events_of (process_nested h input_path output_path qs zip_nested fs)
    = (before ++ snd start ++ events_of second_pass ++ after)%list
    /\ runs before = []
    /\ total_items (fst start) = total
    /\ (forall t',
          result_of second_pass = Ok (Some t') -> total_items t' = total).
Proof.
  intros Hit Hne subdirs total start second_pass.
  destruct (process_nested_events h input_path output_path qs zip_nested fs
              entries Hit Hne)
    as (before & after & Hev & Hruns & Htotal & Hkept).
  exists before, after.
  split; [exact Hev|]. split; [exact Hruns|].
  split; [exact Htotal | exact Hkept].
Qed.

(** The claim on the sample series: the two chapters hold two images in
    all, and the first bar shows 0 of 2. *)
Lemma nested_total_is_counted_first_witness :
  exists before after,
    events_of (process_nested (sample_host always_ok) ["in"] ["out"] None
                 false sample_fs)
    = (before
       ++ snd (ProgressTracker_init 2 "Overall Progress")
       ++ events_of
            (process_chapters (sample_host always_ok)
               [["in"; "ch1"]; ["in"; "ch2"]] 1 2 ["out"] None
               (Some (fst (ProgressTracker_init 2 "Overall Progress")))
               sample_fs)
       ++ after)%list
    /\ runs before = [].
Proof.
  destruct (nested_total_is_counted_first (sample_host always_ok)
              ["in"] ["out"] None false sample_fs
              [["in"; "ch2"]; ["in"; "ch1"]] eq_refl)
    as (before & after & H1 & H2 & _).
  - discriminate.
  - exists before, after. split; [exact H1 | exact H2].
Defined.

(** ** Archives *)

Lemma try_except_step {A} (c : M A) (hd : Exn -> M A) fs :
  try_except c hd fs
  = match result_of (c fs) with
    | Ok a => (Ok a, fs_of (c fs), events_of (c fs))
    | Raise e => prepend (events_of (c fs)) (hd e (fs_of (c fs)))
    end.
Proof.
  unfold try_except. destruct (c fs) as [[[a|e] fs1] ev1]; cbn; [reflexivity|].
  destruct (hd e fs1) as [[r fs2] ev2]. reflexivity.
Qed.

Lemma in_disk_calls e ev :
  In e (disk_calls ev)
  <-> In e ev /\ match e with ZipWrite _ _ _ | Rmtree _ => True | _ => False end.
Proof.
  unfold disk_calls. rewrite filter_In. split; intros [H1 H2]; split;
    try exact H1; destruct e; try exact I; try discriminate; try contradiction;
    reflexivity.
Qed.

Lemma in_rmtree_disk_calls p ev :
  In (Rmtree p) ev <-> In (Rmtree p) (disk_calls ev).
Proof. rewrite in_disk_calls. tauto. Qed.

Lemma disk_calls_updates labels : forall t,
  disk_calls (snd (updates t labels)) = [].
Proof.
  induction labels as [|l r IH]; intros t; cbn; [reflexivity|].
  specialize (IH (set_current t (current_item t + 1))).
  destruct (updates _ r) as [t2 e2]. cbn [snd] in *.
  rewrite disk_calls_app, _display_disk, IH. reflexivity.
Qed.

(** The loop over the members: it stops at the first write that fails, and
    leaves the files as they are. *)
Lemma zip_members_spec h dir_path zip_path : forall files t fs,
  exists ev,
    zip_members h dir_path zip_path files t fs
    = (match first_zip_error h zip_path files with
       | None => Ok (fst (updates t (map path_name files)))
       | Some e => Raise e
       end, fs, ev)
    /\ disk_calls ev
       = map (fun f => ZipWrite zip_path f (arcname_of dir_path f))
             (attempted h zip_path files).
Proof.
  induction files as [|f r IH]; intros t fs.
  - exists []. split; reflexivity.
  - cbn [zip_members first_zip_error attempted map].
    unfold zipf_write. rewrite bind_step. rewrite bind_emit.
    destruct (zip_write_error h zip_path f) as [e|] eqn:He.
    + cbn. eexists. split; reflexivity.
    + cbn [result_of fst snd prepend ret fs_of events_of].
      destruct (update t (Some (path_name f))) as [t1 e1] eqn:Hup.
      rewrite bind_emit.
      destruct (IH t1 fs) as (ev & Hev & Hd).
      rewrite Hev. cbn [updates]. rewrite Hup.
      destruct (updates t1 (map path_name r)) as [t2 e2].
      cbn [fst snd prepend result_of fs_of events_of app].
      eexists. split; [reflexivity|].
      rewrite events_prepend. cbn [events_of snd].
      rewrite !disk_calls_app, Hd.
      unfold update in Hup. injection Hup as <- <-.
      rewrite _display_disk. reflexivity.
Qed.

Lemma attempted_all h zip_path files :
  first_zip_error h zip_path files = None ->
  attempted h zip_path files = files.
Proof.
  induction files as [|f r IH]; cbn; [reflexivity|].
  destruct (zip_write_error h zip_path f); [discriminate|].
  intros H. now rewrite IH.
Qed.

Lemma finish_disk t : disk_calls (snd (finish t)) = [].
Proof.
  unfold finish. destruct (current_item t <? total_items t); cbn [snd];
    [|reflexivity].
  rewrite disk_calls_app, _display_disk. reflexivity.
Qed.

Lemma cleanup_spec h dir_path fs1 :
  try_except
    (rmtree h dir_path ;;; print ("   Removed: " ++ path_name dir_path))
    (fun e =>
       emit [PrintExn ("   Warning: Could not remove "
                         ++ path_name dir_path ++ ": ") e ""]) fs1
  = match removal h dir_path fs1 with
    | inr fs2 =>
        (Ok tt, fs2,
         [Rmtree dir_path; Print ("   Removed: " ++ path_name dir_path)])
    | inl e =>
        (Ok tt, fs1,
         [Rmtree dir_path;
          PrintExn ("   Warning: Could not remove "
                      ++ path_name dir_path ++ ": ") e ""])
    end.
Proof.
  unfold try_except, rmtree, removal, change, raise, print, emit, bind.
  destruct (rmtree_error h dir_path) as [e|]; [reflexivity|].
  destruct (rmtree_fs dir_path fs1) as [e|fs2]; reflexivity.
Qed.

Lemma zip_directory_spec h dir_path zip_path fs :
  exists ev,
    match files_below dir_path fs with
    | [] =>
        zip_directory h dir_path zip_path true fs = (Ok false, fs, ev)
        /\ disk_calls ev = []
    | _ :: _ =>
        match write_file zip_path fs with
        | inl e =>
            zip_directory h dir_path zip_path true fs = (Ok false, fs, ev)
            /\ disk_calls ev = []
        | inr fs1 =>
            match first_zip_error h zip_path (files_below dir_path fs) with
            | Some e =>
                zip_directory h dir_path zip_path true fs
                = (Ok false, fs1, ev)
                /\ disk_calls ev
                   = map (fun f => ZipWrite zip_path f (arcname_of dir_path f))
                         (attempted h zip_path (files_below dir_path fs))
            | None =>
                disk_calls ev
                = (map (fun f => ZipWrite zip_path f (arcname_of dir_path f))
                       (files_below dir_path fs)
                   ++ [Rmtree dir_path])%list
                /\ match removal h dir_path fs1 with
                   | inr fs2 =>
                       zip_directory h dir_path zip_path true fs
                       = (Ok true, fs2, ev)
                       /\ In (Print ("   Removed: " ++ path_name dir_path)) ev
                   | inl e =>
                       zip_directory h dir_path zip_path true fs
                       = (Ok true, fs1, ev)
                       /\ In (PrintExn ("   Warning: Could not remove "
                                          ++ path_name dir_path ++ ": ") e "")
                             ev
                   end
            end
        end
    end.
Proof.
  unfold zip_directory. rewrite try_except_step, bind_ask.
  destruct (files_below dir_path fs) as [|f0 fr] eqn:Hfiles.
  - rewrite bind_print. cbn. eexists. split; reflexivity.
  - set (files := f0 :: fr).
    rewrite bind_print. unfold ProgressTracker_init.
    set (t0 := {| total_items := Z.of_nat (List.length files);
                  current_item := 0; description := "Zipping";
                  bar_length := 50 |}).
    pose proof (_display_disk t0 None) as Hd0.
    set (ev0 := _display t0 None) in *.
    rewrite result_prepend, fs_prepend, events_prepend.
    rewrite bind_emit, result_prepend, fs_prepend, events_prepend.
    rewrite bind_change.
    destruct (write_file zip_path fs) as [e|fs1] eqn:Hw.
    + cbn [result_of fst snd fs_of events_of].
      rewrite bind_emit. cbn [ret prepend result_of fst snd fs_of events_of].
      eexists. split; [reflexivity|].
      cbn [app]. rewrite app_nil_r. change (?a :: ?b ++ ?c)%list with ([a] ++ b ++ c)%list.
      rewrite !disk_calls_app, Hd0. reflexivity.
    + rewrite bind_step.
      destruct (zip_members_spec h dir_path zip_path files t0 fs1)
        as (evm & Hm & Hdm).
      rewrite Hm. cbn [result_of fst snd fs_of events_of].
      destruct (first_zip_error h zip_path files) as [e|] eqn:Hfirst.
      * cbn [result_of fst snd fs_of events_of].
        rewrite bind_emit. cbn [ret prepend result_of fst snd fs_of events_of].
        eexists. split; [reflexivity|].
        rewrite !disk_calls_app, Hd0, Hdm. cbn. apply app_nil_r.
      * rewrite bind_emit, bind_emit.
        rewrite bind_step, cleanup_spec.
        rewrite (attempted_all _ _ _ Hfirst) in Hdm.
        destruct (removal h dir_path fs1) as [e|fs2];
          cbn [result_of fs_of events_of fst snd];
          rewrite bind_emit;
          cbn [ret prepend result_of fs_of events_of fst snd];
          (eexists; split; [|split; [reflexivity|]]).
        -- rewrite !disk_calls_app, Hd0, Hdm, finish_disk. reflexivity.
        -- rewrite !in_app_iff. cbn. tauto.
        -- rewrite !disk_calls_app, Hd0, Hdm, finish_disk. reflexivity.
        -- rewrite !in_app_iff. cbn. tauto.
Qed.

(** ** The file system *)

Lemma assoc_get_set_same k v es : assoc_get k (assoc_set k v es) = Some v.
Proof.
  induction es as [|[k' v'] r IH]; cbn.
  - now rewrite String.eqb_refl.
  - destruct (String.eqb k k') eqn:E; cbn; rewrite ?E, ?String.eqb_refl;
      [reflexivity | exact IH].
Qed.

Lemma assoc_get_set_other k d v es :
  d <> k -> assoc_get d (assoc_set k v es) = assoc_get d es.
Proof.
  intros Hd. induction es as [|[k' v'] r IH]; cbn.
  - apply String.eqb_neq in Hd. now rewrite Hd.
  - destruct (String.eqb_spec k k') as [->|Hk]; cbn.
    + apply String.eqb_neq in Hd. now rewrite Hd.
    + destruct (String.eqb d k'); [reflexivity | exact IH].
Qed.

Lemma assoc_get_app k es es' :
  assoc_get k (es ++ es')%list
  = match assoc_get k es with
    | Some v => Some v
    | None => assoc_get k es'
    end.
Proof.
  induction es as [|[k' v'] r IH]; cbn; [reflexivity|].
  destruct (String.eqb k k'); [reflexivity | exact IH].
Qed.

Lemma assoc_get_del_same k es : assoc_get k (assoc_del k es) = None.
Proof.
  induction es as [|[k' v'] r IH]; cbn; [reflexivity|].
  destruct (String.eqb k k') eqn:E; cbn; rewrite ?E; exact IH.
Qed.

Lemma lookup_fresh_dirs p : lookup p (fresh_dirs p) = Some (Dir []).
Proof.
  induction p as [|c p IH]; cbn; [reflexivity|].
  rewrite String.eqb_refl. exact IH.
Qed.

(** After [mkdir_p] the path is a directory. *)
Lemma mkdir_go_is_dir : forall p n n',
  mkdir_go p n = inr n' -> exists es, lookup p n' = Some (Dir es).
Proof.
  induction p as [|c p IH]; intros n n'; destruct n as [|es]; cbn;
    try discriminate.
  - intros E. injection E as <-. eauto.
  - destruct (assoc_get c es) as [ch|] eqn:Hc.
    + destruct (mkdir_go p ch) as [e|ch'] eqn:Hgo; [discriminate|].
      intros E. injection E as <-. cbn. rewrite assoc_get_set_same.
      eapply IH, Hgo.
    + intros E. injection E as <-. cbn. rewrite assoc_get_app, Hc. cbn.
      rewrite String.eqb_refl, lookup_fresh_dirs. eauto.
Qed.

Lemma mkdir_p_is_dir p fs fs1 :
  mkdir_p p fs = inr fs1 -> is_dir p fs1 = true.
Proof.
  unfold mkdir_p, is_dir. destruct (mkdir_go p fs) as [e|n'] eqn:H;
    [discriminate|].
  intros E. injection E as <-.
  destruct (mkdir_go_is_dir _ _ _ H) as (es & ->). reflexivity.
Qed.

(** What is removed is no longer there. *)
Lemma lookup_remove_go : forall p n,
  p <> [] -> lookup p (remove_go p n) = None.
Proof.
  induction p as [|c p IH]; intros n Hp; [contradiction|].
  destruct n as [|es]; [destruct p; reflexivity|].
  destruct p as [|c' p'].
  - cbn. now rewrite assoc_get_del_same.
  - cbn [remove_go]. destruct (assoc_get c es) as [ch|] eqn:Hc.
    + cbn [lookup]. rewrite assoc_get_set_same. apply IH. discriminate.
    + cbn [lookup]. now rewrite Hc.
Qed.

Lemma rmtree_fs_gone p fs fs2 :
  rmtree_fs p fs = inr fs2 -> path_exists p fs2 = false.
Proof.
  unfold rmtree_fs, path_exists.
  destruct (lookup p fs) as [[|es]|]; try discriminate.
  destruct p as [|c p]; [discriminate|].
  intros E. replace fs2 with (remove_go (c :: p) fs) by congruence.
  now rewrite lookup_remove_go.
Qed.

(** Opening a file for writing removes nothing and changes no kind. *)
Lemma write_go_keeps : forall p n n',
  write_go p n = inr n' ->
  forall q x, lookup q n = Some x ->
  exists x', lookup q n' = Some x' /\ node_is_dir x' = node_is_dir x.
Proof.
  induction p as [|c p IH]; intros n n' Hw q x Hq; destruct n as [|es];
    cbn in Hw; try discriminate.
  - injection Hw as <-. eauto.
  - destruct (assoc_get c es) as [ch|] eqn:Hc.
    + destruct (write_go p ch) as [e|ch'] eqn:Hgo; [discriminate|].
      injection Hw as <-.
      destruct q as [|d q].
      * cbn in Hq. injection Hq as <-. cbn. eauto.
      * cbn in Hq |- *. destruct (String.eqb_spec d c) as [->|Hd].
        -- rewrite Hc in Hq. rewrite assoc_get_set_same.
           eapply IH; eassumption.
        -- rewrite assoc_get_set_other by exact Hd.
           destruct (assoc_get d es); [|discriminate]. eauto.
    + destruct p; [|discriminate]. injection Hw as <-.
      destruct q as [|d q].
      * cbn in Hq. injection Hq as <-. cbn. eauto.
      * cbn in Hq |- *. rewrite assoc_get_app.
        destruct (assoc_get d es); [|discriminate]. eauto.
Qed.

Lemma write_file_keeps p fs fs1 q :
  write_file p fs = inr fs1 ->
  path_exists q fs = true -> path_exists q fs1 = true.
Proof.
  unfold write_file, path_exists.
  destruct (write_go p fs) as [e|n'] eqn:H; [discriminate|].
  intros E. injection E as <-.
  destruct (lookup q fs) as [x|] eqn:Hq; [|discriminate]. intros _.
  destruct (write_go_keeps _ _ _ H _ _ Hq) as (x' & -> & _). reflexivity.
Qed.

(** Claim C5.  [zip_directory] with [cleanup] set never raises.  It
    returns [True] exactly when the archive is written in full (there are
    files, the archive can be opened, no member write fails), and it calls
    [shutil.rmtree], on the source directory only, exactly in that case and
    after the last member write.  When the archive is not written in full
    nothing that was on disk is removed.  When it is, a removal that fails
    leaves the files as the archive write left them and is reported by a
    warning, the result being [True] all the same; a removal that succeeds
    leaves no source directory. *)
Theorem source_removed_only_after_archive_written (h : Host)
  (dir_path zip_path : Path) (fs : Node) :
  let r := zip_directory h dir_path zip_path true fs in
  exists b,
    result_of r = Ok b
    /\ (b = true <-> fully_written h dir_path zip_path fs)
    /\ (In (Rmtree dir_path) (events_of r)
        <-> fully_written h dir_path zip_path fs)
    /\ (forall p, In (Rmtree p) (events_of r) -> p = dir_path)
    /\ (~ fully_written h dir_path zip_path fs ->
        forall q, path_exists q fs = true -> path_exists q (fs_of r) = true)
    /\ (forall fs1,
          fully_written h dir_path zip_path fs ->
          write_file zip_path fs = inr fs1 ->
          disk_calls (events_of r)
          = (map (fun f => ZipWrite zip_path f (arcname_of dir_path f))
                 (files_below dir_path fs)
             ++ [Rmtree dir_path])%list
          /\ match removal h dir_path fs1 with
             | inr fs2 =>
                 fs_of r = fs2 /\ path_exists dir_path fs2 = false
             | inl e =>
                 fs_of r = fs1
                 /\ In (PrintExn ("   Warning: Could not remove "
                                    ++ path_name dir_path ++ ": ") e "")
                       (events_of r)
             end).
Proof.
  cbv zeta. unfold fully_written.
  destruct (zip_directory_spec h dir_path zip_path fs) as (ev & H).
  assert (Hz : forall l, ~ In (Rmtree dir_path)
                 (map (fun f => ZipWrite zip_path f (arcname_of dir_path f)) l)).
  { intros l Hin. apply in_map_iff in Hin. destruct Hin as (f & E & _).
    discriminate E. }
  assert (Hz' : forall p l, ~ In (Rmtree p)
                 (map (fun f => ZipWrite zip_path f (arcname_of dir_path f)) l)).
  { intros p l Hin. apply in_map_iff in Hin. destruct Hin as (f & E & _).
    discriminate E. }
  destruct (files_below dir_path fs) as [|f0 fr] eqn:Hfiles.
  { destruct H as (Hr & Hd). rewrite Hr. exists false. cbn.
    split; [reflexivity|]. split; [split; [discriminate | intros (C & _); contradiction]|].
    split.
    { rewrite in_rmtree_disk_calls, Hd.
      split; [intros [] | intros (C & _); contradiction]. }
    split; [intros p; rewrite in_rmtree_disk_calls, Hd; intros []|].
    split; [intros _ q Hq; exact Hq|].
    intros fs1 (C & _). contradiction. }
  destruct (write_file zip_path fs) as [e|fs1] eqn:Hw.
  { destruct H as (Hr & Hd). rewrite Hr. exists false. cbn.
    split; [reflexivity|].
    split; [split; [discriminate | intros (_ & (x & C) & _); discriminate]|].
    split.
    { rewrite in_rmtree_disk_calls, Hd.
      split; [intros [] | intros (_ & (x & C) & _); discriminate]. }
    split; [intros p; rewrite in_rmtree_disk_calls, Hd; intros []|].
    split; [intros _ q Hq; exact Hq|].
    intros fs1 (_ & (x & C) & _). discriminate. }
  destruct (first_zip_error h zip_path (f0 :: fr)) as [e|] eqn:Hfirst.
  { destruct H as (Hr & Hd). rewrite Hr. exists false. cbn.
    split; [reflexivity|].
    split; [split; [discriminate | intros (_ & _ & C); discriminate]|].
    split.
    { rewrite in_rmtree_disk_calls, Hd.
      split; [intros C; exfalso; revert C; apply Hz
             | intros (_ & _ & C); discriminate]. }
    split.
    { intros p. rewrite in_rmtree_disk_calls, Hd. intros C. exfalso.
      revert C. apply Hz'. }
    split; [intros _ q Hq; eapply write_file_keeps; eassumption|].
    intros fs1' (_ & _ & C). discriminate. }
  destruct H as (Hd & H).
  assert (Hfull : f0 :: fr <> [] /\ (exists fs0, inr fs1 = inr fs0 :> Exn + Node)
                  /\ None = None :> option Exn).
  { split; [discriminate|]. split; [eauto | reflexivity]. }
  assert (Hev : events_of (zip_directory h dir_path zip_path true fs) = ev).
  { destruct (removal h dir_path fs1); destruct H as (-> & _); reflexivity. }
  assert (Hres : result_of (zip_directory h dir_path zip_path true fs) = Ok true).
  { destruct (removal h dir_path fs1); destruct H as (-> & _); reflexivity. }
  exists true. rewrite Hev.
  split; [exact Hres|].
  split; [split; [intros _; exact Hfull | reflexivity]|].
  split.
  { split; [intros _; exact Hfull|]. intros _.
    rewrite in_rmtree_disk_calls, Hd. apply in_or_app. right. left.
    reflexivity. }
  split.
  { intros p. rewrite in_rmtree_disk_calls, Hd. intros Hin.
    apply in_app_or in Hin. destruct Hin as [Hin|[E|[]]].
    - exfalso. revert Hin. apply Hz'.
    - injection E as <-. reflexivity. }
  split; [intros C; contradiction|].
  intros fs1' _ E. injection E as <-. split; [exact Hd|].
  destruct (removal h dir_path fs1) as [e|fs2] eqn:Hrm.
  - destruct H as (Hr & Hin). rewrite Hr. split; [reflexivity | exact Hin].
  - destruct H as (Hr & _). rewrite Hr. split; [reflexivity|].
    unfold removal in Hrm. destruct (rmtree_error h dir_path); [discriminate|].
    eapply rmtree_fs_gone, Hrm.
Qed.

(** ** Sorting *)

Section Sorting.
Context {A : Type} (leb : A -> A -> bool).
Hypothesis leb_total : forall a b, leb a b = false -> leb b a = true.

Let le (a b : A) : Prop := leb a b = true.

Lemma insert_sorted_perm x l : Permutation (insert_sorted leb x l) (x :: l).
Proof.
  induction l as [|y r IH]; cbn; [reflexivity|].
  destruct (leb x y); [reflexivity|].
  rewrite IH. apply perm_swap.
Qed.

Lemma sorted_by_perm l : Permutation (sorted_by leb l) l.
Proof.
  induction l as [|x r IH]; cbn; [reflexivity|].
  rewrite insert_sorted_perm. now constructor.
Qed.

Lemma insert_sorted_hd x y l :
  le y x -> HdRel le y l -> HdRel le y (insert_sorted leb x l).
Proof.
  intros Hyx Hl. destruct l as [|z r]; cbn; [now constructor|].
  destruct (leb x z); constructor; [exact Hyx|].
  inversion Hl; assumption.
Qed.

Lemma insert_sorted_Sorted x l :
  Sorted le l -> Sorted le (insert_sorted leb x l).
Proof.
  induction l as [|y r IH]; cbn; intros Hs.
  - repeat constructor.
  - destruct (leb x y) eqn:E.
    + constructor; [exact Hs | constructor; exact E].
    + inversion Hs as [|? ? Hr Hhd]; subst.
      constructor; [apply IH, Hr|].
      apply insert_sorted_hd; [apply leb_total, E | exact Hhd].
Qed.

Lemma sorted_by_Sorted l : Sorted le (sorted_by leb l).
Proof.
  induction l as [|x r IH]; cbn; [constructor|].
  apply insert_sorted_Sorted, IH.
Qed.
End Sorting.

Lemma path_compare_antisym s : forall a b,
  path_compare s a b = CompOpp (path_compare s b a).
Proof.
  induction a as [|x a IH]; intros [|y b]; cbn; try reflexivity.
  rewrite String.compare_antisym.
  destruct (String.compare (normcase s y) (normcase s x)); cbn;
    [apply IH | reflexivity | reflexivity].
Qed.

Lemma path_leb_total s a b :
  path_leb s a b = false -> path_leb s b a = true.
Proof.
  unfold path_leb. rewrite (path_compare_antisym s a b).
  destruct (path_compare s b a); cbn; congruence.
Qed.

(** [sorted] gives the same paths, in order. *)
Lemma sorted_Sorted s l :
  Sorted (fun a b => path_leb s a b = true) (sorted s l).
Proof. apply sorted_by_Sorted, path_leb_total. Qed.

Lemma sorted_perm s l : Permutation (sorted s l) l.
Proof. apply sorted_by_perm. Qed.

Lemma sorted_length s l : List.length (sorted s l) = List.length l.
Proof. apply Permutation_length, sorted_perm. Qed.

Lemma images_of_dir_length h p fs :
  is_file p fs = false ->
  List.length (images_of h p fs)
  = List.length (image_entries (system h) p fs).
Proof.
  intros Hf. unfold images_of. rewrite Hf, sorted_length.
  apply glob_images_length.
Qed.

(** ** The order of processing *)

(** The pass over the chapters takes them in the order of its list: the
    commands of the first chapter come first, then those of the rest. *)
Lemma process_chapters_runs h c rest idx count output_path qs pt fs :
  let first :=
    run_waifu2x h c (joinpath output_path (path_name c)) qs pt fs in
  runs (events_of (process_chapters h (c :: rest) idx count output_path qs
                     pt fs))
  = (runs (events_of first)
     ++ match result_of first with
        | Ok pt' =>
            runs (events_of (process_chapters h rest (idx + 1) count
                               output_path qs pt' (fs_of first)))
        | Raise _ => []
        end)%list.
Proof.
  cbv zeta. cbn [process_chapters].
  rewrite !bind_print, bind_step.
  destruct (result_of (run_waifu2x h c (joinpath output_path (path_name c))
                         qs pt fs)) as [pt'|e].
  - rewrite bind_print, !events_prepend, !runs_app. reflexivity.
  - rewrite !events_prepend. cbn [events_of snd]. rewrite !runs_app.
    cbn. now rewrite app_nil_r.
Qed.

Lemma updates_firstn labels t k :
  (k <= List.length labels)%nat ->
  current_item (fst (updates t (firstn k labels)))
  = current_item t + Z.of_nat k.
Proof.
  intros Hk. rewrite updates_current, length_firstn.
  rewrite Nat.min_l by exact Hk. reflexivity.
Qed.

(** Claim C6.  The images of a directory are run in sorted order: the list
    that [run_waifu2x] works on is sorted, holds the same paths as the four
    globs whatever the order in which the directory lists them, and the
    commands run are those of this list, in its order.  The counter goes up
    by one with each image, in the same order: after the first [k] images
    it is [k] above where it started.  The chapters of a nested run are the
    subdirectories in sorted order: nothing is run before the pass over the
    sorted list, and this pass runs the commands of each chapter before
    those of the next. *)
Theorem processing_order_is_sorted (h : Host)
  (input_path output_path : Path) (qs : option Dict) (t : ProgressTracker)
  (fs fs1 : Node) :
  mkdir_p output_path fs = inr fs1 ->
  is_file input_path fs1 = false ->
  let images := images_of h input_path fs1 in
  let outcomes :=
    fst (invoke_all h (cmds_for h output_path qs images) fs1) in
  let labels := labels_for images outcomes in
  let batch := run_waifu2x h input_path output_path qs (Some t) fs in
  Sorted (fun a b => path_leb (system h) a b = true) images
  /\ Permutation images (glob_images (system h) input_path fs1)
  /\ runs (events_of batch) = cmds_for h output_path qs images
  /\ progress_output (events_of batch) = snd (updates t labels)
  /\ List.length labels = List.length images
  /\ (forall k, (k <= List.length labels)%nat ->
        current_item (fst (updates t (firstn k labels)))
        = current_item t + Z.of_nat k)
  /\ (forall root entries zip_nested fs0,
        iterdir root fs0 = inr entries ->
        filter (fun d => is_dir d fs0) entries <> [] ->
        let subdirs := filter (fun d => is_dir d fs0) entries in
        let chapters := sorted (system h) subdirs in
        Sorted (fun a b => path_leb (system h) a b = true) chapters
        /\ Permutation chapters subdirs
        /\ exists before start after,
             events_of (process_nested h root output_path qs zip_nested fs0)
             = (before
                ++ events_of (process_chapters h chapters 1
                                (List.length subdirs) output_path qs
                                (Some start) fs0)
                ++ after)%list
             /\ runs before = [])
  /\ (forall c rest idx count pt fs0,
        let first :=
          run_waifu2x h c (joinpath output_path (path_name c)) qs pt fs0 in
        runs (events_of (process_chapters h (c :: rest) idx count
                           output_path qs pt fs0))
        = (runs (events_of first)
           ++ match result_of first with
              | Ok pt' =>
                  runs (events_of (process_chapters h rest (idx + 1) count
                                     output_path qs pt' (fs_of first)))
              | Raise _ => []
              end)%list).
Proof.
  intros Hmk Hfile images outcomes labels batch.
  destruct (run_waifu2x_spec h input_path output_path qs t fs fs1 Hmk)
    as (ev & Hev & Hr & Hp & _).
  fold images in Hev, Hr, Hp. fold outcomes in Hev, Hp.
  fold labels in Hev, Hp. fold batch in Hev.
  assert (Himgs : images
                  = sorted (system h) (glob_images (system h) input_path fs1)).
  { unfold images, images_of. now rewrite Hfile. }
  split; [rewrite Himgs; apply sorted_Sorted|].
  split; [rewrite Himgs; apply sorted_perm|].
  split; [rewrite Hev; exact Hr|].
  split; [rewrite Hev; exact Hp|].
  assert (Hlen : List.length labels = List.length images).
  { apply labels_for_length. unfold outcomes.
    rewrite invoke_all_length. apply length_map. }
  split; [exact Hlen|].
  split; [intros k Hk; apply updates_firstn, Hk|].
  split.
  - intros root entries zip_nested fs0 Hit Hne subdirs chapters.
    split; [apply sorted_Sorted|]. split; [apply sorted_perm|].
    destruct (process_nested_events h root output_path qs zip_nested fs0
                entries Hit Hne)
      as (before & after & Hnev & Hruns & _).
    eexists (before ++ _)%list, _, after. split.
    + rewrite Hnev, <- app_assoc. reflexivity.
    + rewrite runs_app, Hruns. unfold ProgressTracker_init. cbn [snd].
      apply _display_runs.
  - intros c rest idx count pt fs0. apply process_chapters_runs.
Qed.

(** The claim on the first chapter of the sample series, whose directory
    lists [p2.png] before [p1.jpg]: [p1.jpg] is run first. *)
Lemma processing_order_is_sorted_witness :
  runs (events_of (run_waifu2x (sample_host always_ok) ["in"; "ch1"]
                     ["out"; "ch1"] None (Some sample_tracker) sample_fs))
  = cmds_for (sample_host always_ok) ["out"; "ch1"] None
      [["in"; "ch1"; "p1.jpg"]; ["in"; "ch1"; "p2.png"]].
Proof.
  destruct (processing_order_is_sorted (sample_host always_ok)
              ["in"; "ch1"] ["out"; "ch1"] None sample_tracker sample_fs _
              eq_refl eq_refl)
    as (_ & _ & H & _).
  exact H.
Defined.

(** ** Chapters without images *)

Lemma list_sum_skip_zero {A} (f : A -> nat) (l : list A) :
  list_sum (map f l)
  = list_sum (map f (filter (fun x => negb (Nat.eqb (f x) 0)) l)).
Proof.
  induction l as [|x r IH]; [reflexivity|].
  cbn [map filter]. destruct (Nat.eqb_spec (f x) 0) as [E|E]; cbn [negb map].
  - change (list_sum (?a :: ?l)) with (a + list_sum l)%nat. rewrite E, IH.
    reflexivity.
  - change (list_sum (?a :: ?l)) with (a + list_sum l)%nat. now rewrite IH.
Qed.

(** Claim C4, as amended.  When a chapter is processed, its output
    directory is made first, so it is there afterwards whether or not the
    chapter holds images.  A chapter with no entry named as an image leads
    to no command run and no update of the tracker: the only output is the
    line that says so.  A chapter with such entries has all of them run and
    counted.  A directory under the output root that holds no file is not
    archived and is left where it is; one that holds files is archived and
    removed when the archive can be written and the removal succeeds.  The
    total of the first pass is the total over the chapters that hold
    images. *)
Theorem empty_chapter_gets_directory_but_no_archive (h : Host)
  (subdir sub_output : Path) (qs : option Dict) (t : ProgressTracker)
  (fs fs1 : Node) :
  mkdir_p sub_output fs = inr fs1 ->
  is_file subdir fs1 = false ->
  let chapter := run_waifu2x h subdir sub_output qs (Some t) fs in
  is_dir sub_output fs1 = true
  /\ (image_entries (system h) subdir fs1 = [] ->
      chapter = (Ok (Some t), fs1, [Print "   No images found"]))
  /\ (image_entries (system h) subdir fs1 <> [] ->
      exists t',
        result_of chapter = Ok (Some t')
        /\ List.length (runs (events_of chapter))
           = List.length (image_entries (system h) subdir fs1)
        /\ current_item t'
           = current_item t
             + Z.of_nat (List.length (image_entries (system h) subdir fs1)))
  /\ (forall dir zip_path fs2,
        files_below dir fs2 = [] ->
        zip_directory h dir zip_path true fs2
        = (Ok false, fs2, [Print ("   No files to zip in " ++ path_name dir)]))
  /\ (forall dir zip_path fs2 fs3 fs4,
        fully_written h dir zip_path fs2 ->
        write_file zip_path fs2 = inr fs3 ->
        removal h dir fs3 = inr fs4 ->
        result_of (zip_directory h dir zip_path true fs2) = Ok true
        /\ fs_of (zip_directory h dir zip_path true fs2) = fs4
        /\ path_exists dir fs4 = false)
  /\ (forall subdirs fs0,
        count_images (system h) subdirs fs0
        = count_images (system h)
            (filter (fun d =>
                       negb (Nat.eqb
                               (List.length (image_entries (system h) d fs0))
                               0))
                    subdirs) fs0).
Proof.
  intros Hmk Hfile chapter.
  destruct (run_waifu2x_spec h subdir sub_output qs t fs fs1 Hmk)
    as (ev & Hev & Hr & _).
  fold chapter in Hev.
  pose proof (images_of_dir_length h subdir fs1 Hfile) as Hlen.
  split; [eapply mkdir_p_is_dir, Hmk|].
  split.
  { intros Hnone. rewrite Hnone in Hlen.
    destruct (images_of h subdir fs1) as [|i r] eqn:Himgs; [|discriminate].
    unfold chapter, run_waifu2x.
    rewrite bind_change, Hmk, bind_ask, Himgs, bind_print. reflexivity. }
  split.
  { intros _. eexists. rewrite Hev. split; [reflexivity|].
    cbn [events_of snd]. rewrite Hr. unfold cmds_for.
    rewrite length_map, Hlen. split; [reflexivity|].
    rewrite updates_current, labels_for_length.
    - now rewrite Hlen.
    - rewrite invoke_all_length. apply length_map. }
  split.
  { intros dir zip_path fs2 Hnone. unfold zip_directory.
    rewrite try_except_step, bind_ask, Hnone, bind_print. reflexivity. }
  split.
  { intros dir zip_path fs2 fs3 fs4 (Hfiles & _ & Hfirst) Hw Hrm.
    destruct (zip_directory_spec h dir zip_path fs2) as (ev' & H).
    destruct (files_below dir fs2) as [|f0 fr]; [contradiction|].
    rewrite Hw, Hfirst, Hrm in H. destruct H as (_ & -> & _).
    split; [reflexivity|]. split; [reflexivity|].
    unfold removal in Hrm. destruct (rmtree_error h dir); [discriminate|].
    eapply rmtree_fs_gone, Hrm. }
  intros subdirs fs0. rewrite !count_images_sum.
  rewrite (list_sum_skip_zero
             (fun d => List.length (image_entries (system h) d fs0))).
  reflexivity.
Qed.

(** The amended claim on the second chapter of the sample series, which
    holds one file that is no image. *)
Lemma empty_chapter_gets_directory_but_no_archive_witness :
  is_dir ["out"; "ch2"]
    (fs_of (run_waifu2x (sample_host always_ok) ["in"; "ch2"] ["out"; "ch2"]
              None (Some sample_tracker) sample_fs)) = true
  /\ events_of (run_waifu2x (sample_host always_ok) ["in"; "ch2"]
                  ["out"; "ch2"] None (Some sample_tracker) sample_fs)
     = [Print "   No images found"].
Proof.
  destruct (empty_chapter_gets_directory_but_no_archive
              (sample_host always_ok) ["in"; "ch2"] ["out"; "ch2"] None
              sample_tracker sample_fs _ eq_refl eq_refl)
    as (H1 & H2 & _).
  rewrite (H2 eq_refl). split; [exact H1 | reflexivity].
Defined.

(** Claim C4 as stated fails.  In the sample series [ch1] holds two images
    and [ch2] none.  After a nested run with an archive per chapter, the
    output root holds [ch1.zip] and no [ch1], no [ch2.zip], and the directory
    [ch2], which the run made although the chapter has no image. *)
Lemma empty_chapter_has_output_directory :
  let run :=
    process_images (sample_host always_ok) ["in"] ["out"] "waifu2x" true
      None false true sample_fs in
  image_entries Linux ["in"; "ch2"] sample_fs = []
  /\ path_exists ["out"] sample_fs = false
  /\ result_of run = Ok tt
  /\ is_dir ["out"; "ch2"] (fs_of run) = true
  /\ is_file ["out"; "ch1.zip"] (fs_of run) = true
  /\ path_exists ["out"; "ch1"] (fs_of run) = false
  /\ path_exists ["out"; "ch2.zip"] (fs_of run) = false.
Proof. vm_compute. repeat split. Qed.

(** ** What a computation can emit *)

Section Emits.
Variable P : Event -> Prop.

Lemma Emits_ret {A} (a : A) : Emits P (ret a).
Proof. intros fs. constructor. Qed.

Lemma Emits_raise {A} e : Emits P (@raise A e).
Proof. intros fs. constructor. Qed.

Lemma Emits_ask {A} (f : Node -> A) : Emits P (ask f).
Proof. intros fs. constructor. Qed.

Lemma Emits_query {A} (f : Node -> Exn + A) : Emits P (query f).
Proof. intros fs. unfold query. destruct (f fs); constructor. Qed.

Lemma Emits_change f : Emits P (change f).
Proof. intros fs. unfold change. destruct (f fs); constructor. Qed.

Lemma Emits_emit l : Forall P l -> Emits P (emit l).
Proof. intros H fs. exact H. Qed.

Lemma Emits_bind {A B} (c : M A) (k : A -> M B) :
  Emits P c -> (forall a, Emits P (k a)) -> Emits P (bind c k).
Proof.
  intros Hc Hk fs. rewrite bind_step. specialize (Hc fs).
  destruct (result_of (c fs)) as [a|e]; [|exact Hc].
  rewrite events_prepend. apply Forall_app. split; [exact Hc | apply Hk].
Qed.

Lemma Emits_try_except {A} (c : M A) (hd : Exn -> M A) :
  Emits P c -> (forall e, Emits P (hd e)) -> Emits P (try_except c hd).
Proof.
  intros Hc Hh fs. rewrite try_except_step. specialize (Hc fs).
  destruct (result_of (c fs)) as [a|e]; [exact Hc|].
  rewrite events_prepend. apply Forall_app. split; [exact Hc | apply Hh].
Qed.
End Emits.

Lemma Emits_weaken (P Q : Event -> Prop) {A} (c : M A) :
  (forall e, P e -> Q e) -> Emits P c -> Emits Q c.
Proof. intros H Hc fs. eapply Forall_impl; [exact H | apply Hc]. Qed.

Lemma _display_no_disk t name : Forall no_disk_call (_display t name).
Proof.
  unfold _display. destruct (total_items t =? 0); [constructor|].
  cbn zeta. destruct (current_item t >=? total_items t);
    repeat constructor.
Qed.

Lemma finish_no_disk t : Forall no_disk_call (snd (finish t)).
Proof.
  unfold finish. destruct (current_item t <? total_items t); cbn [snd].
  - apply Forall_app. split; [apply _display_no_disk | repeat constructor].
  - repeat constructor.
Qed.

Lemma no_disk_print text : Emits no_disk_call (print text).
Proof. apply Emits_emit. repeat constructor. Qed.

Lemma no_disk_subprocess h cmd : Emits no_disk_call (subprocess_run_M h cmd).
Proof.
  intros fs. unfold subprocess_run_M.
  destruct (subprocess_run h cmd fs). repeat constructor.
Qed.

(** Steps through a computation built from the monad's operations. *)
Ltac emits_step :=
  lazymatch goal with
  | |- Emits _ (ret _) => apply Emits_ret
  | |- Emits _ (raise _) => apply Emits_raise
  | |- Emits _ (ask _) => apply Emits_ask
  | |- Emits _ (query _) => apply Emits_query
  | |- Emits _ (change _) => apply Emits_change
  | |- Emits no_disk_call (print _) => apply no_disk_print
  | |- Emits no_disk_call (subprocess_run_M _ _) => apply no_disk_subprocess
  | |- Emits _ (bind _ _) => apply Emits_bind; [|intros ?]
  | |- Emits _ (try_except _ _) => apply Emits_try_except; [|intros ?]
  | |- Emits _ (emit _) =>
      apply Emits_emit;
      first [ apply _display_no_disk | apply finish_no_disk
            | repeat constructor ]
  end.

Lemma no_disk_new_tracker total descr :
  Emits no_disk_call (new_tracker total descr).
Proof.
  unfold new_tracker, ProgressTracker_init. repeat emits_step.
Qed.

Lemma no_disk_finish_M t : Emits no_disk_call (finish_M t).
Proof. unfold finish_M. repeat emits_step. Qed.

Lemma no_disk_tracker_update pt label :
  Emits no_disk_call (tracker_update pt label).
Proof.
  unfold tracker_update. destruct pt as [t|]; [|apply Emits_ret].
  unfold update. repeat emits_step.
Qed.

Lemma no_disk_run_images h output_path qs : forall images pt,
  Emits no_disk_call (run_images h images output_path qs pt).
Proof.
  induction images as [|img r IH]; intros pt; cbn [run_images].
  - apply Emits_ret.
  - repeat emits_step; [apply no_disk_tracker_update | apply IH].
Qed.

Lemma no_disk_run_waifu2x h input_path output_path qs pt :
  Emits no_disk_call (run_waifu2x h input_path output_path qs pt).
Proof.
  unfold run_waifu2x. repeat emits_step.
  destruct a0; [repeat emits_step | apply no_disk_run_images].
Qed.

Lemma no_disk_detect_vulkan_gpus h : Emits no_disk_call (detect_vulkan_gpus h).
Proof.
  unfold detect_vulkan_gpus. destruct (vulkaninfo_cmd (system h));
    [|apply Emits_ret].
  repeat emits_step. destruct a as [[| |] out| |]; apply Emits_ret.
Qed.

Lemma no_disk_print_quality_settings h : forall items,
  Emits no_disk_call (print_quality_settings h items).
Proof.
  induction items as [|[key value] r IH]; cbn [print_quality_settings].
  - apply Emits_ret.
  - apply Emits_bind; [|intros _; apply IH].
    destruct (String.eqb key "gpu_id"); [|apply no_disk_print].
    apply Emits_bind; [apply no_disk_detect_vulkan_gpus|]. intros gpus.
    destruct (find_gpu_name gpus value) as [[|c n]|]; apply no_disk_print.
Qed.

Lemma no_disk_check_waifu2x_installed h :
  Emits no_disk_call (check_waifu2x_installed h).
Proof.
  unfold check_waifu2x_installed. repeat emits_step.
  destruct (negb a); repeat emits_step.
  destruct (negb a0); repeat emits_step.
  destruct a1; apply Emits_ret.
Qed.

Lemma no_disk_verify_model_requirements h model_name :
  Emits no_disk_call (verify_model_requirements h model_name).
Proof.
  unfold verify_model_requirements.
  destruct (negb (existsb (String.eqb model_name) AVAILABLE_MODELS_keys));
    [apply Emits_raise|].
  apply Emits_bind.
  - destruct (String.eqb model_name "waifu2x"); [|apply Emits_ret].
    apply Emits_bind; [apply no_disk_check_waifu2x_installed|].
    intros [installed msg]. destruct (negb installed); apply Emits_ret.
  - intros errors. destruct errors; [apply Emits_ret | apply Emits_raise].
Qed.

Lemma no_disk_process_flat h input_path output_path qs announce :
  Emits no_disk_call (process_flat h input_path output_path qs announce).
Proof.
  unfold process_flat. apply Emits_bind; [apply Emits_ask|]. intros images.
  apply Emits_bind.
  { destruct announce; [apply no_disk_print | apply Emits_ret]. }
  intros _. apply Emits_bind; [apply no_disk_new_tracker|]. intros t.
  apply Emits_bind; [apply no_disk_run_waifu2x|]. intros [t'|].
  - apply no_disk_finish_M.
  - apply Emits_ret.
Qed.

Lemma no_disk_process_chapters h output_path qs count : forall chapters idx pt,
  Emits no_disk_call
    (process_chapters h chapters idx count output_path qs pt).
Proof.
  induction chapters as [|c r IH]; intros idx pt; cbn [process_chapters].
  - apply Emits_ret.
  - repeat emits_step; [apply no_disk_run_waifu2x | apply IH].
Qed.

Lemma no_disk_banner title : Emits no_disk_call (banner title).
Proof. unfold banner. repeat emits_step. Qed.

(** ** Archives in a nested run *)

Lemma no_disk_archiving dir_path zip_path e :
  no_disk_call e -> archiving dir_path zip_path e.
Proof. destruct e; cbn; tauto. Qed.

Lemma no_disk_archiving_below output_path e :
  no_disk_call e -> archiving_below output_path e.
Proof. destruct e; cbn; tauto. Qed.

Lemma archiving_zip_members h dir_path zip_path : forall files t,
  Emits (archiving dir_path zip_path)
    (zip_members h dir_path zip_path files t).
Proof.
  induction files as [|f r IH]; intros t; cbn [zip_members].
  - apply Emits_ret.
  - apply Emits_bind.
    { unfold zipf_write. apply Emits_bind.
      - apply Emits_emit. repeat constructor.
      - intros _. destruct (zip_write_error h zip_path f);
          [apply Emits_raise | apply Emits_ret]. }
    intros _. unfold update. apply Emits_bind; [|intros _; apply IH].
    apply Emits_emit. eapply Forall_impl; [apply no_disk_archiving|].
    apply _display_no_disk.
Qed.

Lemma archiving_rmtree h dir_path zip_path :
  Emits (archiving dir_path zip_path) (rmtree h dir_path).
Proof.
  unfold rmtree. apply Emits_bind.
  - apply Emits_emit. repeat constructor.
  - intros _. destruct (rmtree_error h dir_path);
      [apply Emits_raise | apply Emits_change].
Qed.

(** [zip_directory] writes into its archive and removes its directory,
    nothing else. *)
Lemma archiving_zip_directory h dir_path zip_path cleanup :
  Emits (archiving dir_path zip_path)
    (zip_directory h dir_path zip_path cleanup).
Proof.
  unfold zip_directory. apply Emits_try_except.
  2:{ intros e. apply Emits_bind; [|intros _; apply Emits_ret].
      apply Emits_emit. repeat constructor. }
  apply Emits_bind; [apply Emits_ask|]. intros files.
  destruct files as [|f0 fr].
  { apply Emits_bind; [|intros _; apply Emits_ret].
    apply Emits_emit. repeat constructor. }
  apply Emits_bind; [apply Emits_emit; repeat constructor|]. intros _.
  unfold ProgressTracker_init.
  apply Emits_bind.
  { apply Emits_emit. eapply Forall_impl; [apply no_disk_archiving|].
    apply _display_no_disk. }
  intros _. apply Emits_bind; [apply Emits_change|]. intros _.
  apply Emits_bind; [apply archiving_zip_members|]. intros progress.
  apply Emits_bind.
  { apply Emits_emit. eapply Forall_impl; [apply no_disk_archiving|].
    apply finish_no_disk. }
  intros _. apply Emits_bind; [apply Emits_emit; repeat constructor|].
  intros _. apply Emits_bind.
  { destruct cleanup; [|apply Emits_ret].
    apply Emits_try_except.
    - apply Emits_bind; [apply archiving_rmtree|]. intros _.
      apply Emits_emit. repeat constructor.
    - intros e. apply Emits_emit. repeat constructor. }
  intros _. apply Emits_bind; [|intros _; apply Emits_ret].
  apply Emits_emit. repeat constructor.
Qed.

Lemma archiving_below_zip_chapters h output_path : forall entries n,
  Forall (fun sub => exists name, sub = joinpath output_path name) entries ->
  Emits (archiving_below output_path)
    (zip_chapters h entries output_path n).
Proof.
  induction entries as [|sub r IH]; intros n Hall; cbn [zip_chapters].
  - apply Emits_ret.
  - inversion Hall as [|? ? (name & Hsub) Hr]; subst.
    apply Emits_bind; [apply Emits_ask|]. intros d.
    destruct d; [|apply IH, Hr].
    apply Emits_bind; [|intros ok; apply IH, Hr].
    eapply Emits_weaken; [|apply archiving_zip_directory].
    intros e. destruct e; cbn; try tauto.
    + intros ->. eauto.
    + intros ->. eauto.
Qed.

Lemma iterdir_children p fs entries :
  iterdir p fs = inr entries ->
  Forall (fun sub => exists name, sub = joinpath p name) entries.
Proof.
  unfold iterdir. destruct (lookup p fs) as [[|es]|]; try discriminate.
  intros E. injection E as <-. apply Forall_forall. intros x Hx.
  apply in_map_iff in Hx. destruct Hx as (e & <- & _). eauto.
Qed.

Lemma archiving_below_process_nested h input_path output_path qs zip_nested :
  Emits (archiving_below output_path)
    (process_nested h input_path output_path qs zip_nested).
Proof.
  assert (W : forall A (c : M A),
             Emits no_disk_call c -> Emits (archiving_below output_path) c).
  { intros A c. apply Emits_weaken, no_disk_archiving_below. }
  unfold process_nested.
  apply Emits_bind; [apply W, no_disk_print|]. intros _.
  apply Emits_bind; [apply Emits_query|]. intros entries.
  apply Emits_bind; [apply Emits_ask|]. intros subdirs.
  destruct subdirs as [|d0 ds].
  { apply Emits_bind; [apply W, no_disk_print|]. intros _.
    apply W, no_disk_process_flat. }
  repeat (apply Emits_bind; [apply W, no_disk_print|]; intros _).
  apply Emits_bind; [apply Emits_ask|]. intros total.
  apply Emits_bind; [apply W, no_disk_print|]. intros _.
  apply Emits_bind; [apply W, no_disk_new_tracker|]. intros t.
  apply Emits_bind; [apply W, no_disk_process_chapters|]. intros pt.
  apply Emits_bind.
  { destruct pt; [apply W, no_disk_finish_M | apply Emits_ret]. }
  intros _.
  repeat (apply Emits_bind; [apply W, no_disk_print|]; intros _).
  destruct zip_nested; [|apply Emits_ret].
  apply Emits_bind; [apply W, no_disk_banner|]. intros _.
  intros fs. rewrite bind_query.
  destruct (iterdir output_path fs) as [e|outputs] eqn:Hit; [constructor|].
  revert fs Hit. 
  assert (G : forall fs, iterdir output_path fs = inr outputs ->
              Emits (archiving_below output_path)
                (zipped_count <-
                   zip_chapters h (sorted (system h) outputs) output_path 0 ;;
                 if zipped_count >? 0
                 then
                   print (str_mul "=" 70) ;;;
                   print ("Successfully zipped " ++ str_of_int zipped_count
                                                 ++ " chapter(s)") ;;;
                   print ("Removed " ++ str_of_int zipped_count
                                     ++ " original folder(s) to save space") ;;;
                   print (str_mul "=" 70)
                 else ret tt)).
  { intros fs Hit. apply Emits_bind.
    - apply archiving_below_zip_chapters.
      eapply Permutation_Forall;
        [apply Permutation_sym, sorted_perm | eapply iterdir_children, Hit].
    - intros n. destruct (n >? 0); [|apply Emits_ret].
      repeat (apply Emits_bind; [apply W, no_disk_print|]; intros _).
      apply W, no_disk_print. }
  intros fs Hit. apply (G fs Hit).
Qed.

Lemma archiving_below_process_images h input_dir output_dir model_name qs
  zip_output zip_nested :
  Emits (archiving_below output_dir)
    (process_images h input_dir output_dir model_name true qs zip_output
       zip_nested).
Proof.
  assert (W : forall A (c : M A),
             Emits no_disk_call c -> Emits (archiving_below output_dir) c).
  { intros A c. apply Emits_weaken, no_disk_archiving_below. }
  unfold process_images.
  apply Emits_bind; [apply Emits_ask|]. intros found.
  destruct (negb found); [apply Emits_raise|].
  apply Emits_bind; [apply W, no_disk_print|]. intros _.
  apply Emits_bind; [apply W, no_disk_verify_model_requirements|]. intros _.
  apply Emits_bind; [apply W, no_disk_print|]. intros _.
  apply Emits_bind.
  { destruct (truthy qs) as [d|]; [|apply Emits_ret].
    apply Emits_bind; [apply W, no_disk_print|]. intros _.
    apply Emits_bind; [apply W, no_disk_print_quality_settings|]. intros _.
    apply Emits_emit. repeat constructor. }
  intros _. destruct (String.eqb model_name "waifu2x"); [|apply Emits_ret].
  apply Emits_bind; [apply W, no_disk_print|]. intros _.
  apply archiving_below_process_nested.
Qed.

Lemma joinpath_longer p name : joinpath p name <> p.
Proof.
  unfold joinpath. intros E. apply (f_equal (@List.length string)) in E.
  rewrite length_app in E. cbn in E. lia.
Qed.

Lemma whole_output_zip_not_below output_path name :
  output_path <> [] ->
  joinpath output_path name <> whole_output_zip output_path.
Proof.
  intros Hne E. unfold whole_output_zip, joinpath, path_parent in E.
  apply (f_equal (@List.length string)) in E.
  rewrite !length_app in E. cbn in E.
  rewrite (app_removelast_last "" Hne) in E at 1.
  rewrite length_app in E. cbn in E. lia.
Qed.

(** Claim C10.  In nested mode the flag for the archive of the whole output
    changes nothing: the run is the same with it and without it.  Every
    member write of a nested run goes to an archive just below the output
    root and named after a directory there, and every removal is of a
    directory just below the output root; so the output root itself is never
    removed and, unless it is the root of the file system, no member is
    written to the archive of the whole output.  When the input has no
    subdirectory, the flat run that replaces the nested one writes no archive
    and removes nothing at all. *)
Theorem nested_run_never_archives_whole_output (h : Host)
  (input_dir output_dir : Path) (model_name : string) (qs : option Dict)
  (zip_output zip_nested : bool) (fs : Node) :
  let run :=
    process_images h input_dir output_dir model_name true qs zip_output
      zip_nested fs in
  run = process_images h input_dir output_dir model_name true qs false
          zip_nested fs
  /\ Forall (archiving_below output_dir) (events_of run)
  /\ (forall p, In (Rmtree p) (events_of run) -> p <> output_dir)
  /\ (output_dir <> [] ->
      forall f a,
        ~ In (ZipWrite (whole_output_zip output_dir) f a) (events_of run))
  /\ (forall fs0 entries,
        iterdir input_dir fs0 = inr entries ->
        filter (fun d => is_dir d fs0) entries = [] ->
        disk_calls (events_of (process_nested h input_dir output_dir qs
                                 zip_nested fs0)) = []).
Proof.
  cbv zeta.
  pose proof (archiving_below_process_images h input_dir output_dir
                model_name qs zip_output zip_nested fs) as Hall.
  split; [reflexivity|]. split; [exact Hall|].
  rewrite Forall_forall in Hall.
  split.
  { intros p Hin. apply Hall in Hin. destruct Hin as (name & ->).
    apply joinpath_longer. }
  split.
  { intros Hne f a Hin. apply Hall in Hin. destruct Hin as (name & E).
    symmetry in E. revert E. apply whole_output_zip_not_below, Hne. }
  intros fs0 entries Hit Hnone.
  assert (Hq : Forall no_disk_call
                 (events_of (process_nested h input_dir output_dir qs
                               zip_nested fs0))).
  { unfold process_nested.
    rewrite bind_print, bind_query, Hit, bind_ask, Hnone, bind_print.
    rewrite !events_prepend. repeat (constructor; [exact I|]).
    apply no_disk_process_flat. }
  destruct (disk_calls _) as [|e l] eqn:Hd; [reflexivity|].
  assert (Hin : In e (disk_calls (events_of (process_nested h input_dir
                                              output_dir qs zip_nested fs0)))).
  { rewrite Hd. left. reflexivity. }
  apply in_disk_calls in Hin. destruct Hin as (Hin & He).
  rewrite Forall_forall in Hq. apply Hq in Hin.
  destruct e; cbn in *; contradiction.
Qed.

(** ** The ranges of the quality settings *)

(** Claim C9 fails on the code.  [--tile-size 5000 --gpu 99] is accepted:
    the settings built hold both values, outside the ranges 0..2048 and 0..16
    that [AVAILABLE_MODELS] declares for them, the run goes on, ends with
    status 0, and the executable is started with [-t 5000 -g 99]. *)
Lemma unchecked_tile_size_and_gpu_reach_the_tool :
  let cl := with_quality (only_input ["in"; "ch1"]) None (Some 5000)
              (Some 99) in
  let run := main (sample_host always_ok) (Some cl) sample_fs in
  In ("tile_size", (0, 2048)) quality_settings_range
  /\ In ("gpu_id", (0, 16)) quality_settings_range
  /\ (exists args,
        parse_args cl = Some args
        /\ dict_get "tile_size" (build_quality_settings args) = Some 5000
        /\ dict_get "gpu_id" (build_quality_settings args) = Some 99)
  /\ result_of run = Ok 0
  /\ In ["/app/bin/waifu2x-ncnn-vulkan"; "-i"; "/in/ch1/p1.jpg";
         "-o"; "/in/ch1_upscaled/p1.jpg"; "-s"; "2";
         "-m"; "/app/models/waifu2x/models-cunet";
         "-n"; "0"; "-t"; "5000"; "-g"; "99"]
        (runs (events_of run)).
Proof.
  cbv zeta. split; [cbn; tauto|]. split; [cbn; tauto|].
  split.
  { eexists. split; [reflexivity|]. split; reflexivity. }
  split; [vm_compute; reflexivity|].
  vm_compute. tauto.
Qed.

(** * Further properties *)

(** ** The progress line *)

(** The name shown on the progress line takes at most 40 characters: a
    name of up to 40 characters is shown whole, a longer one is cut to its
    first 37 characters and three dots.  So the mark of a failure, which is
    put after the name, is not shown when the name itself is longer than 40
    characters: such an image looks the same failed, timed out or done. *)
Theorem shown_name_hides_long_failures (name : string) (o : RunOutcome) :
  (String.length (shown_name name) <= 40)%nat
  /\ ((String.length name <= 40)%nat -> shown_name name = name)
  /\ ((40 < String.length name)%nat ->
      shown_name name = str_take 37 name ++ "..."
      /\ shown_name (outcome_label name o) = shown_name name).
Proof.
  unfold shown_name. split; [|split].
  - destruct (Nat.ltb_spec 40 (String.length name)) as [H|H]; [|exact H].
    rewrite str_append_length, str_take_length.
    change (String.length "...") with 3%nat. lia.
  - intros H. destruct (Nat.ltb_spec 40 (String.length name)); [lia|].
    reflexivity.
  - intros H. destruct (Nat.ltb_spec 40 (String.length name)); [|lia].
    split; [reflexivity|].
    assert (G : forall suffix,
              (if Nat.ltb 40 (String.length (name ++ suffix))
               then str_take 37 (name ++ suffix) ++ "..."
               else name ++ suffix)
              = str_take 37 name ++ "...").
    { intros suffix.
      destruct (Nat.ltb_spec 40 (String.length (name ++ suffix))) as [L|L].
      - rewrite str_take_app by lia. reflexivity.
      - rewrite str_append_length in L. lia. }
    destruct o as [code out| |e]; cbn [outcome_label].
    + destruct code; [|apply G|apply G].
      destruct (Nat.ltb_spec 40 (String.length name)); [reflexivity | lia].
    + apply G.
    + apply G.
Qed.

(** While the count is between 0 and a positive total, the bar has as many
    cells as its length says: the full ones first, as many as the share of
    the count in the total rounded down, then the light ones; it is all full
    only when the count has reached the total. *)
Theorem bar_is_bar_length_cells (t : ProgressTracker)
  (item_name : option string) :
  0 < total_items t ->
  0 <= current_item t <= total_items t ->
  0 <= bar_length t ->
  let filled := Z.to_nat (bar_length t * current_item t / total_items t) in
  exists percent status rest,
    _display t item_name
    = Draw (repeat Full filled
            ++ repeat Shade (Z.to_nat (bar_length t) - filled))
           percent status :: rest
    /\ (filled <= Z.to_nat (bar_length t))%nat
    /\ (current_item t = total_items t -> filled = Z.to_nat (bar_length t))
    /\ (0 < bar_length t -> filled = Z.to_nat (bar_length t) ->
        current_item t = total_items t)
    /\ (rest = [Newline] <-> current_item t = total_items t).
Proof.
  intros Htot Hcur Hlen filled. unfold _display.
  destruct (Z.eqb_spec (total_items t) 0) as [E|_]; [lia|].
  cbn zeta.
  assert (Hq : 0 <= bar_length t * current_item t / total_items t
               <= bar_length t).
  { split.
    - apply Z.div_pos; nia.
    - apply Z.div_le_upper_bound; nia. }
  eexists _, _, _. split.
  { f_equal. f_equal. f_equal. fold filled. unfold filled.
    rewrite <- Z2Nat.inj_sub by lia. reflexivity. }
  split; [unfold filled; lia|].
  split.
  { intros E. unfold filled. rewrite E, Z.div_mul by lia. reflexivity. }
  split.
  { intros Hpos Hfull. unfold filled in Hfull.
    apply Z2Nat.inj in Hfull; try lia.
    assert (bar_length t * total_items t
            <= bar_length t * current_item t); [|nia].
    rewrite <- Hfull at 1.
    rewrite Z.mul_comm. apply Z.mul_div_le. lia. }
  destruct (Z.geb_spec (current_item t) (total_items t)); split;
    try reflexivity; try lia; try discriminate.
Qed.

Lemma bar_is_bar_length_cells_witness :
  exists percent status rest,
    _display {| total_items := 3; current_item := 1;
                description := "Upscaling"; bar_length := 50 |} None
    = Draw (repeat Full 16 ++ repeat Shade 34) percent status :: rest.
Proof.
  destruct (bar_is_bar_length_cells
              {| total_items := 3; current_item := 1;
                 description := "Upscaling"; bar_length := 50 |} None)
    as (percent & status & rest & H & _); try (cbn; lia).
  exists percent, status, rest. exact H.
Defined.

(** ** The settings and paths that [main] builds *)

Lemma in_choices_quality q :
  in_choices String.eqb ["fast"; "balanced"; "quality"] (Some q) = true ->
  q = "fast" \/ q = "balanced" \/ q = "quality".
Proof.
  cbn. destruct (String.eqb_spec q "fast"); [tauto|].
  destruct (String.eqb_spec q "balanced"); [tauto|].
  destruct (String.eqb_spec q "quality"); [tauto|]. discriminate.
Qed.

Lemma in_choices_denoise d :
  in_choices Z.eqb [-1; 0; 1; 2; 3] (Some d) = true -> -1 <= d <= 3.
Proof.
  cbn. destruct (Z.eqb_spec d (-1)); [lia|].
  destruct (Z.eqb_spec d 0); [lia|]. destruct (Z.eqb_spec d 1); [lia|].
  destruct (Z.eqb_spec d 2); [lia|]. destruct (Z.eqb_spec d 3); [lia|].
  discriminate.
Qed.

Lemma in_choices_model m :
  in_choices String.eqb AVAILABLE_MODELS_keys (Some m) = true -> m = "waifu2x".
Proof.
  cbn. destruct (String.eqb_spec m "waifu2x"); [tauto | discriminate].
Qed.

(** For every command line that the parser accepts, the settings passed on
    are never empty; the denoise level is the one typed, else the one of the
    preset, and lies between -1 and 3; the tile size and the GPU are the
    ones typed, whatever they are, else the tile size of the preset, which
    lies between 0 and 2048, and GPU 0. *)
Theorem quality_settings_of_command_line (cl : CmdLine) (args : Args) :
  parse_args cl = Some args ->
  let qs := build_quality_settings args in
  truthy (Some qs) = Some qs
  /\ (exists d,
        dict_get "denoise_level" qs = Some d
        /\ -1 <= d <= 3
        /\ (forall x, cl_denoise cl = Some x -> d = x))
  /\ (exists v,
        dict_get "tile_size" qs = Some v
        /\ (forall x, cl_tile_size cl = Some x -> v = x)
        /\ (cl_tile_size cl = None -> 0 <= v <= 2048))
  /\ dict_get "gpu_id" qs
     = Some (match cl_gpu cl with Some g => g | None => 0 end).
Proof.
  unfold parse_args.
  destruct (in_choices String.eqb AVAILABLE_MODELS_keys (cl_model cl))
    eqn:Hm; [|discriminate].
  destruct (in_choices String.eqb ["fast"; "balanced"; "quality"]
              (cl_quality cl)) eqn:Hq; [|discriminate].
  destruct (in_choices Z.eqb [-1; 0; 1; 2; 3] (cl_denoise cl)) eqn:Hd;
    [|discriminate].
  destruct (in_choices String.eqb AVAILABLE_MODELS_keys (cl_download cl));
    [|discriminate].
  cbn [andb]. intros E. injection E as <-.
  unfold build_quality_settings. cbn [args_quality args_model args_gpu
    args_tile_size args_denoise].
  assert (Hmodel : match cl_model cl with Some m => m | None => "waifu2x" end
                   = "waifu2x").
  { destruct (cl_model cl) as [m|]; [apply in_choices_model, Hm|reflexivity]. }
  rewrite Hmodel.
  assert (Hpre : match cl_quality cl with Some q => q | None => "balanced" end
                 = "fast"
                 \/ match cl_quality cl with Some q => q | None => "balanced" end
                    = "balanced"
                 \/ match cl_quality cl with Some q => q | None => "balanced" end
                    = "quality").
  { destruct (cl_quality cl) as [q|]; [apply in_choices_quality, Hq | tauto]. }
  assert (Hden : forall x, cl_denoise cl = Some x -> -1 <= x <= 3).
  { intros x Hx. rewrite Hx in Hd. apply in_choices_denoise, Hd. }
  destruct (cl_denoise cl) as [d|]; destruct (cl_tile_size cl) as [ts|];
    destruct (cl_gpu cl) as [g|];
    destruct Hpre as [-> | [-> | ->]]; cbn;
    (split; [reflexivity|]);
    (split; [eexists; split; [reflexivity|];
             split; [first [apply Hden; reflexivity | lia]|];
             intros x Hx; congruence|]);
    (split; [eexists; split; [reflexivity|];
             split; [intros x Hx; congruence | intros Hx; try discriminate; lia]|]);
    reflexivity.
Qed.

Lemma quality_settings_of_command_line_witness :
  dict_get "gpu_id"
    (build_quality_settings
       {| args_input := Some ["in"; "ch1"]; args_output := None;
          args_subdir := false; args_nested := false;
          args_model := "waifu2x"; args_quality := None;
          args_denoise := None; args_tile_size := None;
          args_gpu := Some 0; args_zip := false; args_zip_chapters := false;
          args_list_gpus := false; args_list_models := false;
          args_download := None; args_help := false |})
  = Some 0.
Proof.
  exact (proj2 (proj2 (proj2
           (quality_settings_of_command_line (only_input ["in"; "ch1"])
              {| args_input := Some ["in"; "ch1"]; args_output := None;
          args_subdir := false; args_nested := false;
          args_model := "waifu2x"; args_quality := None;
          args_denoise := None; args_tile_size := None;
          args_gpu := Some 0; args_zip := false; args_zip_chapters := false;
          args_list_gpus := false; args_list_models := false;
          args_download := None; args_help := false |}
              eq_refl)))).
Defined.

Lemma path_parent_joinpath p name : path_parent (joinpath p name) = p.
Proof. unfold path_parent, joinpath. apply removelast_last. Qed.

Lemma path_name_joinpath p name : path_name (joinpath p name) = name.
Proof. unfold path_name, joinpath. apply last_last. Qed.

(** The output directory: the one given with [-o] if any; else, with
    [--subdir], the directory [upscaled] inside the input; else the parent
    of the input joined with the name of the input and [_upscaled].  When
    the input path has a last component, this is beside the input: it has
    the parent of the input, and it is neither the input path nor the input
    path followed by further components.  When the input path has no
    component, as the root has none, its name is empty and its parent is the
    path itself: the output is then [_upscaled] inside the input. *)
Theorem output_path_choice (args : Args) (input_path : Path) :
  (forall o, args_output args = Some o -> output_path_of args input_path = o)
  /\ (args_output args = None -> args_subdir args = true ->
      output_path_of args input_path = joinpath input_path "upscaled")
  /\ (args_output args = None -> args_subdir args = false ->
      output_path_of args input_path
      = joinpath (path_parent input_path)
                 (path_name input_path ++ "_upscaled")
      /\ (input_path <> [] ->
          path_parent (output_path_of args input_path)
          = path_parent input_path
          /\ path_name (output_path_of args input_path)
             = path_name input_path ++ "_upscaled"
          /\ forall rel, output_path_of args input_path
                         <> (input_path ++ rel)%list)
      /\ (input_path = [] ->
          output_path_of args input_path = joinpath input_path "_upscaled"
          /\ path_parent (output_path_of args input_path) = input_path)).
Proof.
  unfold output_path_of. split; [|split].
  - intros o ->. reflexivity.
  - intros -> ->. reflexivity.
  - intros -> ->. split; [reflexivity|]. split.
    + intros Hne. split; [apply path_parent_joinpath|].
      split; [apply path_name_joinpath|].
      intros rel E. unfold joinpath, path_parent, path_name in E.
      rewrite (app_removelast_last "" Hne) in E at 3.
      rewrite <- app_assoc in E. apply app_inv_head in E.
      cbn in E. injection E as E _. revert E.
      apply suffix_distinct. discriminate.
    + intros ->. split; reflexivity.
Qed.

(** ** Failing before any work *)

(** When the input path does not exist, [process_images] raises
    [FileNotFoundError] at once: nothing is printed, nothing is run, and the
    files are as they were. *)
Theorem missing_input_fails_first (h : Host) (input_dir output_dir : Path)
  (model_name : string) (nested : bool) (qs : option Dict)
  (zip_output zip_nested : bool) (fs : Node) :
  path_exists input_dir fs = false ->
  process_images h input_dir output_dir model_name nested qs zip_output
    zip_nested fs
  = (Raise (FileNotFoundError_msg
              ("Input directory not found: "
                 ++ path_str (system h) input_dir)),
     fs, []).
Proof.
  intros H. unfold process_images. rewrite bind_ask, H. reflexivity.
Qed.

Lemma missing_input_fails_first_witness :
  result_of (process_images (sample_host always_ok) ["nowhere"] ["out"]
               "waifu2x" false None false false sample_fs)
  = Raise (FileNotFoundError_msg "Input directory not found: /nowhere").
Proof.
  rewrite (missing_input_fails_first (sample_host always_ok) ["nowhere"]
             ["out"] "waifu2x" false None false false sample_fs eq_refl).
  reflexivity.
Defined.

Ltac cases_done :=
  repeat split; intros;
  repeat match goal with
         | H : exists _, _ |- _ => destruct H
         | H : _ /\ _ |- _ => destruct H
         end;
  try discriminate; try contradiction; try congruence; eauto.

(** [check_waifu2x_installed] changes no file and prints nothing.  It says
    yes exactly when the executable is there and the directory of the models
    is a directory with at least one entry; it raises when the path of the
    models is a file. *)
Theorem check_waifu2x_installed_cases (h : Host) (fs : Node) :
  fs_of (check_waifu2x_installed h fs) = fs
  /\ events_of (check_waifu2x_installed h fs) = []
  /\ ((exists msg,
         result_of (check_waifu2x_installed h fs) = Ok (true, msg))
      <-> path_exists (waifu_bin h) fs = true
          /\ is_dir (models_dir h) fs = true
          /\ listdir (models_dir h) fs <> [])
  /\ (path_exists (waifu_bin h) fs = true ->
      is_file (models_dir h) fs = true ->
      result_of (check_waifu2x_installed h fs)
      = Raise (NotADirectoryError (models_dir h))).
Proof.
  unfold check_waifu2x_installed. rewrite bind_ask.
  unfold is_dir, is_file, listdir, path_exists.
  destruct (lookup (waifu_bin h) fs) as [b|]; cbn [negb].
  2:{ cbn. cases_done. }
  rewrite bind_ask. unfold path_exists, iterdir.
  destruct (lookup (models_dir h) fs) as [[|es]|] eqn:Hm; cbn [negb].
  - rewrite bind_query. unfold iterdir. rewrite Hm. cbn. cases_done.
  - rewrite bind_query. unfold iterdir. rewrite Hm.
    destruct es as [|e0 es]; cbn; cases_done.
  - cbn. cases_done.
Qed.

(** When the executable or the models are missing, [process_images] stops
    with a [ModelError] after its first line: no command is run and the
    files are as they were. *)
Theorem missing_dependency_fails_before_any_work (h : Host)
  (input_dir output_dir : Path) (nested : bool) (qs : option Dict)
  (zip_output zip_nested : bool) (fs : Node) :
  path_exists input_dir fs = true ->
  path_exists (waifu_bin h) fs = false
  \/ path_exists (models_dir h) fs = false
  \/ (is_dir (models_dir h) fs = true /\ listdir (models_dir h) fs = []) ->
  exists msg,
    process_images h input_dir output_dir "waifu2x" nested qs zip_output
      zip_nested fs
    = (Raise (ModelError msg), fs,
       [Print ("Checking model requirements..." ++ nl)]).
Proof.
  intros Hin Hmiss. unfold process_images.
  rewrite bind_ask, Hin. cbn [negb]. rewrite bind_print.
  assert (Hchk : exists msg,
            check_waifu2x_installed h fs = (Ok (false, msg), fs, [])).
  { unfold check_waifu2x_installed. rewrite bind_ask.
    destruct (path_exists (waifu_bin h) fs) eqn:Hb; cbn [negb];
      [|eexists; reflexivity].
    rewrite bind_ask.
    destruct (path_exists (models_dir h) fs) eqn:Hm; cbn [negb];
      [|eexists; reflexivity].
    destruct Hmiss as [C|[C|(Hd & Hl)]]; try discriminate.
    rewrite bind_query. unfold iterdir. unfold is_dir, listdir in Hd, Hl.
    destruct (lookup (models_dir h) fs) as [[|es]|]; try discriminate.
    subst es. cbn. eexists. reflexivity. }
  destruct Hchk as (msg & Hchk).
  assert (Hver : exists msg',
            verify_model_requirements h "waifu2x" fs
            = (Raise (ModelError msg'), fs, [])).
  { unfold verify_model_requirements. cbn [existsb AVAILABLE_MODELS_keys].
    rewrite String.eqb_refl. cbn [orb negb].
    unfold bind. rewrite Hchk. cbn. eexists. reflexivity. }
  destruct Hver as (msg' & Hver).
  rewrite bind_step, Hver. cbn. eexists. reflexivity.
Qed.

Lemma missing_dependency_fails_before_any_work_witness :
  exists msg,
    result_of (process_images (sample_host always_ok) ["in"] ["out"]
                 "waifu2x" false None false false
                 (Dir [("in", Dir [("p1.png", File)])]))
    = Raise (ModelError msg).
Proof.
  destruct (missing_dependency_fails_before_any_work
              (sample_host always_ok) ["in"] ["out"] false None false false
              (Dir [("in", Dir [("p1.png", File)])]) eq_refl
              (or_introl eq_refl))
    as (msg & H).
  exists msg. rewrite H. reflexivity.
Defined.

(** ** The exit status *)

(** With an input directory given and no informational flag, [main] lets
    no exception through, whatever [process_images] raises: it ends with
    status 0 when [process_images] returns and with status 1 when it raises,
    and leaves the files as [process_images] left them. *)
Theorem main_exit_status (h : Host) (cl : CmdLine) (args : Args)
  (input_path : Path) (fs : Node) :
  parse_args cl = Some args ->
  args_help args = false ->
  args_list_gpus args = false ->
  args_list_models args = false ->
  args_download args = None ->
  args_input args = Some input_path ->
  let work :=
    process_images h input_path (output_path_of args input_path)
      (args_model args) (args_nested args)
      (truthy (Some (build_quality_settings args)))
      (args_zip args) (args_zip_chapters args) fs in
  exists code,
    result_of (main h (Some cl) fs) = Ok code
    /\ (code = 0 \/ code = 1)
    /\ (code = 0 <-> result_of work = Ok tt)
    /\ fs_of (main h (Some cl) fs) = fs_of work
    /\ runs (events_of (main h (Some cl) fs)) = runs (events_of work).
Proof.
  intros Hparse Hhelp Hgpus Hmodels Hdl Hin work.
  unfold main. rewrite Hparse, Hhelp, Hgpus, Hmodels, Hdl, Hin.
  repeat rewrite bind_print.
  assert (Hq : forall B (k : unit -> M B) fs0,
            exists l,
              bind (match args_quality args with
                    | Some q => print ("  Quality Preset: " ++ q)
                    | None => ret tt
                    end) k fs0 = prepend l (k tt fs0) /\ runs l = []).
  { intros B k fs0. destruct (args_quality args).
    - rewrite bind_print. eexists. split; reflexivity.
    - rewrite bind_ret. exists []. split; [now rewrite prepend_nil|reflexivity]. }
  destruct (Hq _ (fun _ =>
              (if args_zip args then print "  Zip Output:     Yes"
               else ret tt) ;;;
              (if (args_zip_chapters args && args_nested args)%bool
               then print "  Zip Chapters:   Yes"
               else ret tt) ;;;
              print (str_mul "=" 67 ++ nl) ;;;
              try_except
                (process_images h input_path
                   (output_path_of args input_path) (args_model args)
                   (args_nested args)
                   (truthy (Some (build_quality_settings args)))
                   (args_zip args) (args_zip_chapters args) ;;;
                 ret 0)
                (fun e =>
                   if is_ModelError e then
                     emit [PrintExn nl e ""] ;;; ret 1
                   else if is_FileNotFoundError e then
                     emit [PrintExn (nl ++ "Error: ") e nl] ;;; ret 1
                   else
                     emit [PrintExn (nl ++ "Unexpected error: ") e nl] ;;;
                     ret 1)) fs) as (l1 & -> & Hl1).
  assert (Hz : forall (b : bool) text B (k : unit -> M B) fs0,
            exists l,
              bind (if b then print text else ret tt) k fs0
              = prepend l (k tt fs0) /\ runs l = []).
  { intros b text B k fs0. destruct b.
    - rewrite bind_print. eexists. split; reflexivity.
    - rewrite bind_ret. exists []. split; [now rewrite prepend_nil|reflexivity]. }
  destruct (Hz (args_zip args) "  Zip Output:     Yes" _
              (fun _ =>
              (if (args_zip_chapters args && args_nested args)%bool
               then print "  Zip Chapters:   Yes"
               else ret tt) ;;;
              print (str_mul "=" 67 ++ nl) ;;;
              try_except
                (process_images h input_path
                   (output_path_of args input_path) (args_model args)
                   (args_nested args)
                   (truthy (Some (build_quality_settings args)))
                   (args_zip args) (args_zip_chapters args) ;;;
                 ret 0)
                (fun e =>
                   if is_ModelError e then
                     emit [PrintExn nl e ""] ;;; ret 1
                   else if is_FileNotFoundError e then
                     emit [PrintExn (nl ++ "Error: ") e nl] ;;; ret 1
                   else
                     emit [PrintExn (nl ++ "Unexpected error: ") e nl] ;;;
                     ret 1)) fs) as (l2 & -> & Hl2).
  destruct (Hz (args_zip_chapters args && args_nested args)%bool
              "  Zip Chapters:   Yes" _
              (fun _ =>
              print (str_mul "=" 67 ++ nl) ;;;
              try_except
                (process_images h input_path
                   (output_path_of args input_path) (args_model args)
                   (args_nested args)
                   (truthy (Some (build_quality_settings args)))
                   (args_zip args) (args_zip_chapters args) ;;;
                 ret 0)
                (fun e =>
                   if is_ModelError e then
                     emit [PrintExn nl e ""] ;;; ret 1
                   else if is_FileNotFoundError e then
                     emit [PrintExn (nl ++ "Error: ") e nl] ;;; ret 1
                   else
                     emit [PrintExn (nl ++ "Unexpected error: ") e nl] ;;;
                     ret 1)) fs) as (l3 & -> & Hl3).
  rewrite bind_print, try_except_step, bind_step. fold work.
  clearbody work.
  rewrite !result_prepend, !fs_prepend, !events_prepend, !runs_app, Hl1, Hl2,
    Hl3.
  cbn [runs flat_map app].
  destruct (result_of work) as [[]|e] eqn:Hres.
  - cbn [ret prepend result_of fs_of events_of fst snd].
    exists 0. rewrite app_nil_r.
    repeat split; auto.
  - cbn [result_of fs_of events_of fst snd].
    destruct (is_ModelError e); [|destruct (is_FileNotFoundError e)];
      rewrite bind_emit;
      cbn [ret prepend result_of fs_of events_of fst snd];
      exists 1; rewrite runs_app;
      (split; [reflexivity|]); (split; [right; reflexivity|]);
      (split; [split; discriminate|]); (split; [reflexivity|]);
      cbn; apply app_nil_r.
Qed.

(** The claim with every invocation failing: the status is still 0. *)
Lemma main_exit_status_witness :
  result_of (main (sample_host (fun _ => Completed 1 ""))
               (Some (only_input ["in"; "ch1"])) sample_fs) = Ok 0.
Proof.
  destruct (main_exit_status (sample_host (fun _ => Completed 1 ""))
              (only_input ["in"; "ch1"]) _ ["in"; "ch1"] sample_fs
              eq_refl eq_refl eq_refl eq_refl eq_refl eq_refl)
    as (code & Hres & _ & Hcode & _).
  rewrite Hres. f_equal. apply Hcode. vm_compute. reflexivity.
Defined.

(** ** The flat run *)

Lemma process_flat_unfold h input_path output_path qs announce fs :
  exists l,
    process_flat h input_path output_path qs announce fs
    = prepend l
        ((progress <- new_tracker
                        (Z.of_nat (List.length
                                     (glob_images (system h) input_path fs)))
                        "Upscaling" ;;
          progress' <- run_waifu2x h input_path output_path qs
                         (Some progress) ;;
          match progress' with
          | Some t => finish_M t
          | None => ret tt
          end) fs)
    /\ runs l = [] /\ progress_output l = [] /\ disk_calls l = [].
Proof.
  unfold process_flat. rewrite bind_ask. destruct announce.
  - rewrite bind_print. eexists. split; [reflexivity|]. repeat split.
  - rewrite bind_ret. exists []. rewrite prepend_nil. repeat split.
Qed.

Lemma no_disk_call_disk_calls l : Forall no_disk_call l -> disk_calls l = [].
Proof.
  induction l as [|e l IH]; intros H; [reflexivity|].
  inversion H as [|? ? He Hl]; subst.
  cbn [disk_calls filter]. destruct e; cbn in He; try contradiction;
    apply IH, Hl.
Qed.

Lemma bind_ret_tt (c : M unit) fs : bind c (fun _ => ret tt) fs = c fs.
Proof.
  unfold bind. destruct (c fs) as [[[[]|e] fs1] ev1]; cbn; [|reflexivity].
  now rewrite app_nil_r.
Qed.

(** What comes before the batch only reads the files, as long as looking
    up the GPU devices does. *)
Lemma check_waifu2x_installed_reads h fs :
  exists r, check_waifu2x_installed h fs = (r, fs, []).
Proof.
  unfold check_waifu2x_installed. rewrite bind_ask.
  destruct (negb (path_exists (waifu_bin h) fs)); [eexists; reflexivity|].
  rewrite bind_ask.
  destruct (negb (path_exists (models_dir h) fs)); [eexists; reflexivity|].
  rewrite bind_query.
  destruct (iterdir (models_dir h) fs) as [e|[|x l]]; eexists; reflexivity.
Qed.

Lemma verify_model_requirements_reads h model_name fs :
  exists r, verify_model_requirements h model_name fs = (r, fs, []).
Proof.
  unfold verify_model_requirements.
  destruct (negb (existsb (String.eqb model_name) AVAILABLE_MODELS_keys));
    [eexists; reflexivity|].
  rewrite bind_step.
  destruct (String.eqb model_name "waifu2x"); [|eexists; reflexivity].
  rewrite bind_step.
  destruct (check_waifu2x_installed_reads h fs) as ([[installed msg]|e] & ->);
    [|eexists; reflexivity].
  destruct installed; eexists; reflexivity.
Qed.

Lemma detect_vulkan_gpus_quiet h fs :
  lookup_leaves_files h ->
  exists gpus l,
    detect_vulkan_gpus h fs = (Ok gpus, fs, l) /\ disk_calls l = [].
Proof.
  intros Hq. unfold detect_vulkan_gpus.
  destruct (vulkaninfo_cmd (system h)) as [cmd|] eqn:E;
    [|eexists _, _; split; reflexivity].
  specialize (Hq cmd fs E).
  unfold bind, subprocess_run_M.
  destruct (subprocess_run h cmd fs) as [o fs']. cbn in Hq. subst fs'.
  destruct o as [[| |] out| |e]; eexists _, _; split; reflexivity.
Qed.

Lemma print_quality_settings_quiet h :
  lookup_leaves_files h ->
  forall items fs,
  exists l,
    print_quality_settings h items fs = (Ok tt, fs, l) /\ disk_calls l = [].
Proof.
  intros Hq. induction items as [|[key value] r IH]; intros fs.
  - exists []. split; reflexivity.
  - cbn [print_quality_settings]. rewrite bind_step.
    assert (Hone : exists l1,
              (if String.eqb key "gpu_id"
               then
                 gpus <- detect_vulkan_gpus h ;;
                 match find_gpu_name gpus value with
                 | Some (String c n) =>
                     print ("   " ++ key ++ ": " ++ str_of_int value
                                  ++ " (" ++ String c n ++ ")")
                 | _ => print ("   " ++ key ++ ": " ++ str_of_int value)
                 end
               else print ("   " ++ key ++ ": " ++ str_of_int value)) fs
              = (Ok tt, fs, l1) /\ disk_calls l1 = []).
    { destruct (String.eqb key "gpu_id");
        [|eexists; split; reflexivity].
      rewrite bind_step.
      destruct (detect_vulkan_gpus_quiet h fs Hq) as (gpus & l & -> & Hl).
      cbn [result_of fs_of events_of fst snd].
      destruct (find_gpu_name gpus value) as [[|c n]|];
        (eexists; split; [reflexivity|]);
        cbn [prepend print emit events_of snd];
        rewrite disk_calls_app, Hl; reflexivity. }
    destruct Hone as (l1 & -> & Hl1).
    cbn [result_of fs_of events_of fst snd].
    destruct (IH fs) as (l2 & -> & Hl2).
    eexists. split; [reflexivity|].
    cbn [events_of snd]. rewrite disk_calls_app, Hl1, Hl2. reflexivity.
Qed.

(** The two runs of [process_images] to compare have the same beginning:
    either both raise there, or both go on from the same files. *)
Lemma process_images_beginning h input_dir output_dir model_name qs fs :
  lookup_leaves_files h ->
  (exists e l,
      disk_calls l = []
      /\ forall nested zip_output zip_nested,
           process_images h input_dir output_dir model_name nested qs
             zip_output zip_nested fs
           = (Raise e, fs, l))
  \/ (exists l,
        disk_calls l = []
        /\ (forall zip_output zip_nested,
              process_images h input_dir output_dir model_name true qs
                zip_output zip_nested fs
              = prepend l
                  (if String.eqb model_name "waifu2x"
                   then prepend
                          [Print ("Using waifu2x x2 (fast manga mode)" ++ nl)]
                          (process_nested h input_dir output_dir qs
                             zip_nested fs)
                   else (Ok tt, fs, [])))
        /\ (forall zip_nested,
              process_images h input_dir output_dir model_name false qs
                false zip_nested fs
              = prepend l
                  (if String.eqb model_name "waifu2x"
                   then prepend
                          [Print ("Using waifu2x x2 (fast manga mode)" ++ nl)]
                          (process_flat h input_dir output_dir qs true fs)
                   else (Ok tt, fs, [])))).
Proof.
  intros Hq. unfold process_images. cbv zeta.
  destruct (path_exists input_dir fs) eqn:Hfound.
  2:{ left.
      exists (FileNotFoundError_msg
                ("Input directory not found: "
                   ++ path_str (system h) input_dir)), [].
      split; [reflexivity|].
      intros. rewrite bind_ask, Hfound. reflexivity. }
  destruct (verify_model_requirements_reads h model_name fs) as (r & Hv).
  destruct r as [[]|e].
  2:{ left. exists e, [Print ("Checking model requirements..." ++ nl)].
      split; [reflexivity|]. intros.
      rewrite bind_ask, Hfound. cbn [negb]. rewrite bind_print, bind_step, Hv.
      reflexivity. }
  assert (Hset : exists l,
            match truthy qs with
            | Some qs0 =>
                print "Quality Settings:" ;;;
                print_quality_settings h qs0 ;;;
                emit [Newline]
            | None => ret tt
            end fs = (Ok tt, fs, l) /\ disk_calls l = []).
  { destruct (truthy qs) as [d|]; [|exists []; split; reflexivity].
    rewrite bind_print, bind_step.
    destruct (print_quality_settings_quiet h Hq d fs) as (l & -> & Hl).
    eexists. split; [reflexivity|].
    cbn [prepend emit result_of fs_of events_of fst snd].
    rewrite !disk_calls_app, Hl. reflexivity. }
  destruct Hset as (l & Hset & Hl).
  right.
  exists ([Print ("Checking model requirements..." ++ nl)]
            ++ [Print ("All requirements met!" ++ nl)] ++ l)%list.
  split; [rewrite !disk_calls_app, Hl; reflexivity|].
  split.
  - intros zip_output zip_nested.
    rewrite bind_ask, Hfound. cbn [negb].
    rewrite bind_print, bind_step, Hv.
    cbn [result_of fs_of events_of fst snd].
    rewrite prepend_nil, bind_print, bind_step, Hset.
    cbn [result_of fs_of events_of fst snd].
    rewrite !prepend_prepend.
    destruct (String.eqb model_name "waifu2x"); [|reflexivity].
    rewrite bind_print. reflexivity.
  - intros zip_nested.
    rewrite bind_ask, Hfound. cbn [negb].
    rewrite bind_print, bind_step, Hv.
    cbn [result_of fs_of events_of fst snd].
    rewrite prepend_nil, bind_print, bind_step, Hset.
    cbn [result_of fs_of events_of fst snd].
    rewrite !prepend_prepend.
    destruct (String.eqb model_name "waifu2x"); [|reflexivity].
    rewrite bind_print, bind_ret_tt. reflexivity.
Qed.

(** When nested mode is asked for and the input has no subdirectory,
    [process_images] does what it does in flat mode without [--zip]: same
    result, same files afterwards, same commands and same progress output;
    only the lines that announce it differ.  Whether [--zip] or
    [--zip-chapters] was given makes no difference there: no archive is
    written and no directory removed. *)
Theorem flat_fallback_is_the_flat_run (h : Host)
  (input_dir output_dir : Path) (model_name : string) (qs : option Dict)
  (zip_output zip_nested zip_nested' : bool) (fs : Node)
  (entries : list Path) :
  lookup_leaves_files h ->
  iterdir input_dir fs = inr entries ->
  filter (fun d => is_dir d fs) entries = [] ->
  let nested :=
    process_images h input_dir output_dir model_name true qs zip_output
      zip_nested fs in
  let flat :=
    process_images h input_dir output_dir model_name false qs false
      zip_nested' fs in
  result_of nested = result_of flat
  /\ fs_of nested = fs_of flat
  /\ runs (events_of nested) = runs (events_of flat)
  /\ progress_output (events_of nested) = progress_output (events_of flat)
  /\ disk_calls (events_of nested) = [].
Proof.
  intros Hq Hit Hnone. cbv zeta.
  destruct (process_images_beginning h input_dir output_dir model_name qs fs
              Hq) as [(e & l & Hl & Hraise) | (l & Hl & Hnested & Hflat)].
  { rewrite !Hraise. repeat split. exact Hl. }
  rewrite Hnested, Hflat.
  destruct (String.eqb model_name "waifu2x").
  2:{ repeat split. cbn. rewrite app_nil_r. exact Hl. }
  assert (Hfall : process_nested h input_dir output_dir qs zip_nested fs
                  = prepend
                      [Print ("Scanning nested structure in: "
                                ++ path_str (system h) input_dir ++ nl);
                       Print ("No subdirectories found. Processing as flat directory..." ++ nl)]
                      (process_flat h input_dir output_dir qs false fs)).
  { unfold process_nested.
    rewrite bind_print, bind_query, Hit, bind_ask, Hnone, bind_print.
    rewrite prepend_prepend. reflexivity. }
  rewrite Hfall.
  destruct (process_flat_unfold h input_dir output_dir qs false fs)
    as (l1 & E1 & Hr1 & Hp1 & Hd1).
  destruct (process_flat_unfold h input_dir output_dir qs true fs)
    as (l2 & E2 & Hr2 & Hp2 & _).
  pose proof (no_disk_call_disk_calls _
                (no_disk_process_flat h input_dir output_dir qs false fs))
    as Hd.
  rewrite E1 in Hd |- *. rewrite E2.
  rewrite !result_prepend, !fs_prepend, !events_prepend in *.
  rewrite !runs_app, !progress_output_app, !disk_calls_app in *.
  rewrite Hr1, Hr2, Hp1, Hp2, Hl.
  repeat split. exact Hd.
Qed.

Lemma flat_fallback_is_the_flat_run_witness :
  fs_of (process_images (sample_host always_ok) ["in"; "ch1"] ["out"]
           "waifu2x" true None true true sample_fs)
  = fs_of (process_images (sample_host always_ok) ["in"; "ch1"] ["out"]
             "waifu2x" false None false false sample_fs).
Proof.
  refine (proj1 (proj2
           (flat_fallback_is_the_flat_run (sample_host always_ok)
              ["in"; "ch1"] ["out"] "waifu2x" None true true false sample_fs
              [["in"; "ch1"; "p2.png"]; ["in"; "ch1"; "p1.jpg"]]
              _ eq_refl eq_refl))).
  intros cmd fs E. injection E as <-. destruct fs; reflexivity.
Defined.

(** Once its output directory can be made, a flat run returns normally
    whatever the invocations do, having run the command of every image. *)
Theorem flat_run_never_fails_on_images (h : Host)
  (input_path output_path : Path) (qs : option Dict) (announce : bool)
  (fs fs1 : Node) :
  mkdir_p output_path fs = inr fs1 ->
  let flat := process_flat h input_path output_path qs announce fs in
  result_of flat = Ok tt
  /\ runs (events_of flat)
     = cmds_for h output_path qs (images_of h input_path fs1)
  /\ disk_calls (events_of flat) = []
  /\ exists before, events_of flat = (before ++ [Newline])%list.
Proof.
  intros Hmk. cbv zeta.
  destruct (process_flat_unfold h input_path output_path qs announce fs)
    as (l & -> & Hr & _ & Hd).
  rewrite bind_new_tracker, bind_step.
  set (t0 := fst (ProgressTracker_init _ "Upscaling")).
  destruct (run_waifu2x_spec h input_path output_path qs t0 fs fs1 Hmk)
    as (ev & Hev & Hruns & _ & Hdisk).
  rewrite Hev. cbn [result_of fs_of events_of fst snd].
  unfold finish_M. set (t1 := fst (updates t0 _)).
  rewrite !result_prepend, !events_prepend.
  cbn [emit result_of events_of fst snd].
  split; [reflexivity|].
  split.
  { rewrite !runs_app, Hr, Hruns. unfold ProgressTracker_init. cbn [snd].
    rewrite _display_runs.
    assert (Hf : runs (snd (finish t1)) = []).
    { unfold finish. destruct (current_item t1 <? total_items t1);
        cbn [snd]; [|reflexivity].
      rewrite runs_app, _display_runs. reflexivity. }
    rewrite Hf. cbn. apply app_nil_r. }
  split.
  { rewrite !disk_calls_app, Hd, Hdisk, finish_disk.
    unfold ProgressTracker_init. cbn [snd]. rewrite _display_disk.
    reflexivity. }
  unfold finish. destruct (current_item t1 <? total_items t1); cbn [snd].
  - eexists. rewrite !app_assoc. reflexivity.
  - eexists. rewrite !app_assoc. reflexivity.
Qed.

Lemma flat_run_never_fails_on_images_witness :
  result_of (process_flat (sample_host (fun _ => TimeoutExpired))
               ["in"; "ch1"] ["out"] None true sample_fs) = Ok tt.
Proof.
  exact (proj1 (flat_run_never_fails_on_images
                  (sample_host (fun _ => TimeoutExpired))
                  ["in"; "ch1"] ["out"] None true sample_fs _ eq_refl)).
Defined.

(** ** A single file as input *)

(** Making directories removes nothing and changes no kind. *)
Lemma mkdir_go_keeps : forall p n n',
  mkdir_go p n = inr n' ->
  forall q x, lookup q n = Some x ->
  exists x', lookup q n' = Some x' /\ node_is_file x' = node_is_file x.
Proof.
  induction p as [|c p IH]; intros n n' Hm q x Hq; destruct n as [|es];
    cbn in Hm; try discriminate.
  - injection Hm as <-. eauto.
  - destruct (assoc_get c es) as [ch|] eqn:Hc.
    + destruct (mkdir_go p ch) as [e|ch'] eqn:Hgo; [discriminate|].
      injection Hm as <-.
      destruct q as [|d q].
      * cbn in Hq. injection Hq as <-. cbn. eauto.
      * cbn in Hq |- *. destruct (String.eqb_spec d c) as [->|Hd].
        -- rewrite Hc in Hq. rewrite assoc_get_set_same.
           eapply IH; eassumption.
        -- rewrite assoc_get_set_other by exact Hd.
           destruct (assoc_get d es); [|discriminate]. eauto.
    + injection Hm as <-.
      destruct q as [|d q].
      * cbn in Hq. injection Hq as <-. cbn. eauto.
      * cbn in Hq |- *. rewrite assoc_get_app.
        destruct (assoc_get d es); [|discriminate]. eauto.
Qed.

Lemma mkdir_p_keeps_file p fs fs1 q :
  mkdir_p p fs = inr fs1 -> is_file q fs = true -> is_file q fs1 = true.
Proof.
  unfold mkdir_p, is_file.
  destruct (mkdir_go p fs) as [e|n'] eqn:H; [discriminate|].
  intros E. injection E as <-.
  destruct (lookup q fs) as [x|] eqn:Hq; [|discriminate]. intros Hx.
  destruct (mkdir_go_keeps _ _ _ H _ _ Hq) as (x' & -> & ->). exact Hx.
Qed.

Lemma glob_images_of_file s p fs :
  is_file p fs = true -> glob_images s p fs = [].
Proof.
  unfold is_file, glob_images, glob, listdir.
  destruct (lookup p fs) as [[|es]|]; try discriminate. reflexivity.
Qed.

(** When the input is a file, the flat run announces 0 images, since no
    pattern matches inside a file, and yet runs the executable once, on that
    file, writing to the output directory under the same name; the tracker
    has total 0 and draws no bar at all. *)
Theorem single_file_input_runs_once (h : Host)
  (input_path output_path : Path) (qs : option Dict) (fs fs1 : Node) :
  is_file input_path fs = true ->
  mkdir_p output_path fs = inr fs1 ->
  let cmd :=
    build_cmd h input_path (joinpath output_path (path_name input_path)) qs in
  process_flat h input_path output_path qs true fs
  = (Ok tt, snd (subprocess_run h cmd fs1),
     [Print ("Found 0 images to process" ++ nl); Run cmd; Newline]).
Proof.
  intros Hfile Hmk cmd.
  pose proof (mkdir_p_keeps_file _ _ _ _ Hmk Hfile) as Hfile1.
  unfold process_flat.
  rewrite bind_ask, (glob_images_of_file _ _ _ Hfile), bind_print.
  rewrite bind_new_tracker. unfold run_waifu2x.
  rewrite bind_step, bind_change, Hmk, bind_ask.
  unfold images_of. rewrite Hfile1. cbn [run_images]. fold cmd.
  unfold bind, subprocess_run_M, tracker_update.
  destruct (subprocess_run h cmd fs1) as [o fs2]. reflexivity.
Qed.

Lemma single_file_input_runs_once_witness :
  runs (events_of (process_flat (sample_host always_ok)
                     ["in"; "ch1"; "p1.jpg"] ["out"] None true sample_fs))
  = [["/app/bin/waifu2x-ncnn-vulkan"; "-i"; "/in/ch1/p1.jpg";
      "-o"; "/out/p1.jpg"; "-s"; "2";
      "-m"; "/app/models/waifu2x/models-cunet"; "-n"; "0"]].
Proof.
  rewrite (single_file_input_runs_once (sample_host always_ok)
             ["in"; "ch1"; "p1.jpg"] ["out"] None sample_fs _
             eq_refl eq_refl).
  reflexivity.
Defined.

(** ** The GPUs that [vulkaninfo] reports *)

Lemma parse_gpus_ids lines : forall k,
  map fst (parse_gpus lines k)
  = map (fun i => k + Z.of_nat i)
        (seq 0 (List.length (parse_gpus lines k))).
Proof.
  induction lines as [|line r IH]; intros k; cbn [parse_gpus];
    [reflexivity|].
  destruct (str_contains "deviceName" line); [|apply IH].
  destruct (search_deviceName line) as [g|]; [|apply IH].
  cbn [map fst List.length seq]. f_equal; [lia|].
  rewrite IH, <- seq_shift, map_map. apply map_ext. intros i. lia.
Qed.

(** [detect_vulkan_gpus] never raises and writes nothing on the console.
    The devices it returns are numbered 0, 1, 2, ... in the order of the
    lines that name them.  It returns none when [vulkaninfo] ends with
    a status other than 0, times out or cannot be started, and on a platform
    it does not know it returns none without running anything. *)
Theorem detect_vulkan_gpus_is_total (h : Host) (fs : Node) :
  let r := detect_vulkan_gpus h fs in
  (exists gpus,
      result_of r = Ok gpus
      /\ map fst gpus = map Z.of_nat (seq 0 (List.length gpus)))
  /\ progress_output (events_of r) = []
  /\ (forall cmd,
        vulkaninfo_cmd (system h) = Some cmd ->
        events_of r = [Run cmd]
        /\ (forall code out,
              fst (subprocess_run h cmd fs) = Completed code out ->
              code <> 0 -> result_of r = Ok [])
        /\ (fst (subprocess_run h cmd fs) = TimeoutExpired ->
            result_of r = Ok [])
        /\ (forall e, fst (subprocess_run h cmd fs) = RunRaised e ->
                      result_of r = Ok []))
  /\ (vulkaninfo_cmd (system h) = None -> r = (Ok [], fs, [])).
Proof.
  cbv zeta. unfold detect_vulkan_gpus.
  destruct (vulkaninfo_cmd (system h)) as [cmd|].
  2:{ cbn. split; [exists []; split; reflexivity|].
      split; [reflexivity|]. split; [intros cmd E; discriminate E|].
      reflexivity. }
  unfold bind, subprocess_run_M.
  destruct (subprocess_run h cmd fs) as [o fs1] eqn:Hrun.
  destruct o as [code out| |e]; [destruct code as [|c|c]|..];
    cbn [result_of events_of fst snd ret progress_output filter app];
    (split;
     [eexists; split; [reflexivity|];
      first [ reflexivity
            | rewrite parse_gpus_ids; apply map_ext; intros; lia ]|]);
    (split; [reflexivity|]); (split; [|discriminate]);
    intros cmd' E; injection E as <-; (split; [reflexivity|]);
    repeat split; intros; try reflexivity; try discriminate;
    try congruence;
    match goal with
    | H : fst (subprocess_run _ _ _) = _ |- _ =>
        rewrite Hrun in H; cbn in H; congruence
    end.
Qed.

(** ** The progress of a download *)

Lemma announcements_app a b :
  announcements (a ++ b) = (announcements a + announcements b)%nat.
Proof. unfold announcements. now rewrite filter_app, length_app. Qed.

Lemma bars_app a b : bars (a ++ b) = (bars a ++ bars b)%list.
Proof. unfold bars. apply flat_map_app. Qed.

Lemma bind_prepend {A B} (c c' : M A) (k : A -> M B) fs l :
  c fs = prepend l (c' fs) -> bind c k fs = prepend l (bind c' k fs).
Proof.
  intros H. unfold bind. rewrite H.
  destruct (c' fs) as [[[a|e] fs1] ev1]; cbn; [|reflexivity].
  destruct (k a fs1) as [[r fs2] ev2]. cbn. now rewrite <- app_assoc.
Qed.

(** A call on an object that has announced the size: it draws at most one
    bar line, or raises having printed nothing. *)
Lemma DownloadProgressBar_call_announced h block_num block_size total_size fs :
  let r :=
    DownloadProgressBar_call h true block_num block_size total_size fs in
  fs_of r = fs
  /\ announcements (events_of r) = 0%nat
  /\ runs (events_of r) = []
  /\ disk_calls (events_of r) = []
  /\ (result_of r = Ok true \/ exists e, r = (Raise e, fs, [])).
Proof.
  cbv zeta. unfold DownloadProgressBar_call. rewrite bind_ret.
  destruct (Z.gtb_spec total_size 0) as [Hpos|Hle];
    [|repeat split; left; reflexivity].
  rewrite bind_query. unfold true_div.
  destruct (Z.eqb_spec total_size 0); [lia|].
  destruct (fits_float (block_num * block_size * 100) total_size);
    [|repeat split; right; eexists; reflexivity].
  rewrite bind_step. unfold cells.
  destruct (bar_error h (50 * (block_num * block_size) / total_size));
    cbn [raise ret result_of fs_of events_of fst snd];
    [repeat split; right; eexists; reflexivity|].
  rewrite prepend_nil, bind_step.
  destruct (bar_error h (50 - 50 * (block_num * block_size) / total_size));
    cbn [raise ret result_of fs_of events_of fst snd];
    [repeat split; right; eexists; reflexivity|].
  rewrite prepend_nil.
  rewrite bind_emit.
  destruct (block_num * block_size >=? total_size);
    [rewrite bind_emit | rewrite bind_ret];
    repeat split; left; reflexivity.
Qed.

(** The first call on an object: when the size in megabytes is a float, it
    announces the size and goes on as any other call. *)
Lemma DownloadProgressBar_call_first h block_num block_size total_size fs :
  fits_float total_size (1024 * 1024) = true ->
  DownloadProgressBar_call h false block_num block_size total_size fs
  = prepend [PrintTotalSize total_size]
      (DownloadProgressBar_call h true block_num block_size total_size fs).
Proof.
  intros Hfit. unfold DownloadProgressBar_call.
  rewrite bind_ret, bind_step.
  assert (E : (_ <- query (fun _ : Node => true_div total_size (1024 * 1024));;
               emit [PrintTotalSize total_size]) fs
              = (Ok tt, fs, [PrintTotalSize total_size])).
  { rewrite bind_query. unfold true_div.
    change (1024 * 1024 =? 0) with false. cbv iota. rewrite Hfit.
    reflexivity. }
  rewrite E. reflexivity.
Qed.

(** When it is not, the first call raises before it has printed anything. *)
Lemma DownloadProgressBar_call_overflow h block_num block_size total_size fs :
  fits_float total_size (1024 * 1024) = false ->
  DownloadProgressBar_call h false block_num block_size total_size fs
  = (Raise (OverflowError "integer division result too large for a float"),
     fs, []).
Proof.
  intros Hfit. unfold DownloadProgressBar_call.
  rewrite bind_step.
  assert (E : (_ <- query (fun _ : Node => true_div total_size (1024 * 1024));;
               emit [PrintTotalSize total_size]) fs
              = (Raise (OverflowError
                          "integer division result too large for a float"),
                 fs, [])).
  { rewrite bind_query. unfold true_div.
    change (1024 * 1024 =? 0) with false. cbv iota. rewrite Hfit.
    reflexivity. }
  rewrite E. reflexivity.
Qed.

(** The calls of a download do not touch the files and run nothing. *)
Lemma report_blocks_quiet h blocks : forall pbar fs,
  let r := report_blocks h pbar blocks fs in
  fs_of r = fs
  /\ runs (events_of r) = []
  /\ disk_calls (events_of r) = []
  /\ (pbar = true -> announcements (events_of r) = 0%nat).
Proof.
  induction blocks as [|[[n s] t] r IH]; intros pbar fs; cbv zeta.
  - repeat split.
  - cbn [report_blocks].
    assert (Hann : forall fs0,
              let c := (pbar' <- DownloadProgressBar_call h true n s t;;
                        report_blocks h pbar' r) fs0 in
              fs_of c = fs0 /\ runs (events_of c) = []
              /\ disk_calls (events_of c) = []
              /\ announcements (events_of c) = 0%nat).
    { intros fs0. cbv zeta. rewrite bind_step.
      destruct (DownloadProgressBar_call_announced h n s t fs0)
        as (Hfs & Ha & Hr & Hd & [Hok | (e & Hraise)]).
      - rewrite Hok, Hfs.
        destruct (IH true fs0) as (Hfs' & Hr' & Hd' & Ha').
        rewrite fs_prepend, events_prepend.
        rewrite runs_app, disk_calls_app, announcements_app.
        rewrite Hfs', Hr, Hr', Hd, Hd', Ha, (Ha' eq_refl).
        repeat split.
      - rewrite Hraise. repeat split. }
    destruct pbar.
    + destruct (Hann fs) as (H1 & H2 & H3 & H4).
      split; [exact H1|]. split; [exact H2|]. split; [exact H3|].
      intros _; exact H4.
    + destruct (fits_float t (1024 * 1024)) eqn:Hfit.
      * rewrite (bind_prepend _ _ _ _ _
                   (DownloadProgressBar_call_first h n s t fs Hfit)).
        destruct (Hann fs) as (H1 & H2 & H3 & H4).
        rewrite fs_prepend, events_prepend.
        rewrite runs_app, disk_calls_app, H2, H3.
        repeat split; try assumption. discriminate.
      * rewrite bind_step, (DownloadProgressBar_call_overflow h n s t fs Hfit).
        repeat split; try discriminate.
Qed.

(** Over a download the total size is announced at most once, at the first
    callback, and only when the size in megabytes is a float: otherwise that
    callback raises [OverflowError] and nothing is printed.  At a later
    callback with a positive total size, the percentage is computed first:
    when it is not a float the callback raises [OverflowError]; otherwise,
    for a non-negative count of bytes and when the two pieces of the bar can
    be built, the percentage shown is at most 100, but only the number is
    capped: the bar has 50 cells while the count is at most the total and
    more than 50 full cells, none light, once the count (blocks times block
    size) is well past it.  With no positive total size no bar is drawn.  No
    callback touches the files. *)
Theorem download_progress_bar (h : Host) (pbar : bool) (block_num block_size
  total_size : Z) (blocks : list (Z * Z * Z)) (fs : Node) :
  announcements (events_of (report_blocks h false blocks fs))
  = match blocks with
    | [] => 0%nat
    | (_, _, first_total) :: _ =>
        if fits_float first_total (1024 * 1024) then 1%nat else 0%nat
    end
  /\ fs_of (report_blocks h false blocks fs) = fs
  /\ (fits_float total_size (1024 * 1024) = false ->
      DownloadProgressBar_call h false block_num block_size total_size fs
      = (Raise (OverflowError
                  "integer division result too large for a float"),
         fs, []))
  /\ (fits_float total_size (1024 * 1024) = true ->
      DownloadProgressBar_call h false block_num block_size total_size fs
      = prepend [PrintTotalSize total_size]
          (DownloadProgressBar_call h true block_num block_size total_size
             fs))
  /\ (total_size <= 0 ->
      DownloadProgressBar_call h true block_num block_size total_size fs
      = (Ok true, fs, []))
  /\ (0 < total_size ->
      fits_float (block_num * block_size * 100) total_size = false ->
      DownloadProgressBar_call h true block_num block_size total_size fs
      = (Raise (OverflowError
                  "integer division result too large for a float"),
         fs, []))
  /\ (0 < total_size -> 0 <= block_num * block_size ->
      fits_float (block_num * block_size * 100) total_size = true ->
      let filled_length := 50 * (block_num * block_size) / total_size in
      let filled := Z.to_nat filled_length in
      bar_error h filled_length = None ->
      bar_error h (50 - filled_length) = None ->
      exists percent status rest,
        DownloadProgressBar_call h true block_num block_size total_size fs
        = (Ok true, fs,
           Draw (repeat Full filled ++ repeat Shade (50 - filled))
                percent status :: rest)
        /\ bars rest = []
        /\ (percent <= 100)%Q
        /\ List.length (repeat Full filled ++ repeat Shade (50 - filled))
           = Nat.max 50 filled
        /\ (block_num * block_size <= total_size -> (filled <= 50)%nat)
        /\ (total_size + total_size <= block_num * block_size ->
            (100 <= filled)%nat))
  /\ (0 < total_size ->
      fits_float (block_num * block_size * 100) total_size = true ->
      forall e,
        bar_error h (50 * (block_num * block_size) / total_size) = Some e ->
        DownloadProgressBar_call h true block_num block_size total_size fs
        = (Raise e, fs, [])).
Proof.
  split; [|split; [|split; [|split; [|split; [|split; [|split]]]]]].
  - destruct blocks as [|[[n s] t] r]; [reflexivity|].
    cbn [report_blocks].
    destruct (fits_float t (1024 * 1024)) eqn:Hfit.
    + rewrite (bind_prepend _ _ _ _ _
                 (DownloadProgressBar_call_first h n s t fs Hfit)).
      rewrite events_prepend, announcements_app, bind_step.
      destruct (DownloadProgressBar_call_announced h n s t fs)
        as (Hfs & Ha & _ & _ & [Hok | (e & Hraise)]).
      * rewrite Hok, Hfs, events_prepend, announcements_app, Ha.
        destruct (report_blocks_quiet h r true fs) as (_ & _ & _ & Ha').
        rewrite (Ha' eq_refl). reflexivity.
      * rewrite Hraise. reflexivity.
    + rewrite bind_step, (DownloadProgressBar_call_overflow h n s t fs Hfit).
      reflexivity.
  - apply (report_blocks_quiet h blocks false fs).
  - apply DownloadProgressBar_call_overflow.
  - apply DownloadProgressBar_call_first.
  - intros Hle. unfold DownloadProgressBar_call. rewrite bind_ret.
    destruct (Z.gtb_spec total_size 0); [lia | reflexivity].
  - intros Hpos Hfit. unfold DownloadProgressBar_call.
    rewrite bind_ret.
    destruct (Z.gtb_spec total_size 0); [|lia].
    rewrite bind_query. unfold true_div.
    destruct (Z.eqb_spec total_size 0); [lia|]. rewrite Hfit. reflexivity.
  - intros Hpos Hd Hfit filled_length filled Hfull Hshade.
    unfold DownloadProgressBar_call.
    rewrite bind_ret.
    destruct (Z.gtb_spec total_size 0); [|lia].
    rewrite bind_query. unfold true_div.
    destruct (Z.eqb_spec total_size 0); [lia|]. rewrite Hfit.
    fold filled_length.
    rewrite bind_step. unfold cells. rewrite Hfull.
    cbn [ret result_of fs_of events_of fst snd]. rewrite prepend_nil.
    rewrite bind_step, Hshade.
    cbn [ret result_of fs_of events_of fst snd]. rewrite prepend_nil.
    rewrite bind_emit.
    assert (Hq : 0 <= filled_length).
    { apply Z.div_pos; lia. }
    assert (Hbar : (repeat Full (Z.to_nat filled_length)
                    ++ repeat Shade (Z.to_nat (50 - filled_length)))%list
                   = (repeat Full filled ++ repeat Shade (50 - filled))%list).
    { f_equal. f_equal. unfold filled.
      destruct (Z.le_gt_cases filled_length 50).
      - rewrite Z2Nat.inj_sub by lia. reflexivity.
      - replace (Z.to_nat (50 - filled_length)) with 0%nat by lia.
        replace (50 - Z.to_nat filled_length)%nat with 0%nat by lia.
        reflexivity. }
    rewrite Hbar.
    eexists _, _,
      (if block_num * block_size >=? total_size then [Newline] else []).
    split.
    { destruct (block_num * block_size >=? total_size);
        [rewrite bind_emit | rewrite bind_ret]; reflexivity. }
    split.
    { destruct (block_num * block_size >=? total_size); reflexivity. }
    split.
    { destruct (Qle_bool _ 100) eqn:E.
      - apply Qle_bool_iff in E. exact E.
      - apply Qle_refl. }
    split.
    { rewrite length_app, !repeat_length. lia. }
    split.
    { intros Hle. unfold filled, filled_length.
      assert (50 * (block_num * block_size) / total_size <= 50); [|lia].
      apply Z.div_le_upper_bound; lia. }
    intros Hge. unfold filled, filled_length.
    assert (100 <= 50 * (block_num * block_size) / total_size); [|lia].
    apply Z.div_le_lower_bound; lia.
  - intros Hpos Hfit e He. unfold DownloadProgressBar_call.
    rewrite bind_ret.
    destruct (Z.gtb_spec total_size 0); [|lia].
    rewrite bind_query. unfold true_div.
    destruct (Z.eqb_spec total_size 0); [lia|]. rewrite Hfit.
    rewrite bind_step. unfold cells. rewrite He. reflexivity.
Qed.

(** ** What an archive holds *)

Lemma attempted_incl h zip_path files f :
  In f (attempted h zip_path files) -> In f files.
Proof.
  induction files as [|x r IH]; cbn; [tauto|].
  destruct (zip_write_error h zip_path x); cbn; intuition.
Qed.

Lemma files_below_under dir_path fs f :
  In f (files_below dir_path fs) -> exists rel, f = (dir_path ++ rel)%list.
Proof.
  unfold files_below, rglob. intros Hin. apply filter_In in Hin.
  destruct Hin as (Hin & _). apply in_map_iff in Hin.
  destruct Hin as ((p & n) & <- & Hin).
  destruct (lookup dir_path fs); [|destruct Hin].
  apply in_map_iff in Hin. destruct Hin as (q & E & _).
  injection E as <- _. cbn [fst]. eauto.
Qed.

Lemma arcname_of_under dir_path rel :
  dir_path <> [] ->
  arcname_of dir_path (dir_path ++ rel)%list = path_name dir_path :: rel.
Proof.
  intros Hne. unfold arcname_of, path_parent, path_name.
  rewrite (app_removelast_last "" Hne) at 2.
  rewrite <- app_assoc, skipn_app, skipn_all, Nat.sub_diag. reflexivity.
Qed.

(** Every member that [zip_directory] writes goes to the archive it was
    given, is a file found below the directory, and is stored under the name
    of the directory followed by its path inside it: unpacked, the archive
    gives back one folder named after the directory. *)
Theorem archive_members_are_under_the_directory_name (h : Host)
  (dir_path zip_path : Path) (fs : Node) (z f a : Path) :
  dir_path <> [] ->
  In (ZipWrite z f a)
     (events_of (zip_directory h dir_path zip_path true fs)) ->
  z = zip_path
  /\ In f (files_below dir_path fs)
  /\ exists rel,
       f = (dir_path ++ rel)%list /\ a = path_name dir_path :: rel.
Proof.
  intros Hne Hin.
  assert (Hd : In (ZipWrite z f a)
                 (disk_calls (events_of (zip_directory h dir_path zip_path
                                           true fs)))).
  { apply in_disk_calls. split; [exact Hin | exact I]. }
  assert (G : In (ZipWrite z f a)
                (map (fun f => ZipWrite zip_path f (arcname_of dir_path f))
                     (files_below dir_path fs))).
  { destruct (zip_directory_spec h dir_path zip_path fs) as (ev & H).
    destruct (files_below dir_path fs) as [|f0 fr] eqn:Hfiles.
    { destruct H as (Hr & He). rewrite Hr in Hd. cbn [events_of snd] in Hd.
      rewrite He in Hd. destruct Hd. }
    destruct (write_file zip_path fs) as [e|fs1].
    { destruct H as (Hr & He). rewrite Hr in Hd. cbn [events_of snd] in Hd.
      rewrite He in Hd. destruct Hd. }
    destruct (first_zip_error h zip_path (f0 :: fr)) as [e|].
    { destruct H as (Hr & He). rewrite Hr in Hd. cbn [events_of snd] in Hd.
      rewrite He in Hd. apply in_map_iff in Hd.
      destruct Hd as (x & E & Hx). apply in_map_iff. exists x.
      split; [exact E | eapply attempted_incl, Hx]. }
    destruct H as (He & H).
    assert (Hev : events_of (zip_directory h dir_path zip_path true fs) = ev).
    { destruct (removal h dir_path fs1); destruct H as (-> & _);
        reflexivity. }
    rewrite Hev, He in Hd. apply in_app_or in Hd.
    destruct Hd as [Hd|[E|[]]]; [exact Hd | discriminate E]. }
  apply in_map_iff in G. destruct G as (x & E & Hx).
  injection E as <- <- <-. split; [reflexivity|]. split; [exact Hx|].
  destruct (files_below_under _ _ _ Hx) as (rel & ->).
  exists rel. split; [reflexivity|]. apply arcname_of_under, Hne.
Qed.

Lemma archive_members_are_under_the_directory_name_witness :
  ["out"; "ch1.zip"] = ["out"; "ch1.zip"]
  /\ In ["out"; "ch1"; "p1.jpg"]
        (files_below ["out"; "ch1"]
           (Dir [("out", Dir [("ch1", Dir [("p1.jpg", File)])])]))
  /\ exists rel,
       ["out"; "ch1"; "p1.jpg"] = (["out"; "ch1"] ++ rel)%list
       /\ ["ch1"; "p1.jpg"] = path_name ["out"; "ch1"] :: rel.
Proof.
  apply (archive_members_are_under_the_directory_name
           (sample_host always_ok) ["out"; "ch1"] ["out"; "ch1.zip"]
           (Dir [("out", Dir [("ch1", Dir [("p1.jpg", File)])])])).
  - discriminate.
  - vm_compute. tauto.
Defined.

(** ** Runs without an archive *)

Lemma no_disk_process_nested_plain h input_path output_path qs :
  Emits no_disk_call (process_nested h input_path output_path qs false).
Proof.
  unfold process_nested.
  apply Emits_bind; [apply no_disk_print|]. intros _.
  apply Emits_bind; [apply Emits_query|]. intros entries.
  apply Emits_bind; [apply Emits_ask|]. intros subdirs.
  destruct subdirs as [|d0 ds].
  { apply Emits_bind; [apply no_disk_print|]. intros _.
    apply no_disk_process_flat. }
  repeat (apply Emits_bind; [apply no_disk_print|]; intros _).
  apply Emits_bind; [apply Emits_ask|]. intros total.
  apply Emits_bind; [apply no_disk_print|]. intros _.
  apply Emits_bind; [apply no_disk_new_tracker|]. intros t.
  apply Emits_bind; [apply no_disk_process_chapters|]. intros pt.
  apply Emits_bind.
  { destruct pt; [apply no_disk_finish_M | apply Emits_ret]. }
  intros _.
  repeat (apply Emits_bind; [apply no_disk_print|]; intros _).
  apply Emits_ret.
Qed.

(** Without [--zip] and [--zip-chapters], a run writes no archive member
    and removes no directory, in either mode and whatever happens. *)
Theorem no_archive_without_zip_flags (h : Host) (input_dir output_dir : Path)
  (model_name : string) (nested : bool) (qs : option Dict) (fs : Node) :
  disk_calls (events_of (process_images h input_dir output_dir model_name
                           nested qs false false fs)) = [].
Proof.
  assert (Hq : Emits no_disk_call
                 (process_images h input_dir output_dir model_name nested qs
                    false false)).
  { unfold process_images.
    apply Emits_bind; [apply Emits_ask|]. intros found.
    destruct (negb found); [apply Emits_raise|].
    apply Emits_bind; [apply no_disk_print|]. intros _.
    apply Emits_bind; [apply no_disk_verify_model_requirements|]. intros _.
    apply Emits_bind; [apply no_disk_print|]. intros _.
    apply Emits_bind.
    { destruct (truthy qs) as [d|]; [|apply Emits_ret].
      apply Emits_bind; [apply no_disk_print|]. intros _.
      apply Emits_bind; [apply no_disk_print_quality_settings|]. intros _.
      apply Emits_emit. repeat constructor. }
    intros _. destruct (String.eqb model_name "waifu2x"); [|apply Emits_ret].
    apply Emits_bind; [apply no_disk_print|]. intros _.
    destruct nested; [apply no_disk_process_nested_plain|].
    apply Emits_bind; [apply no_disk_process_flat|]. intros _.
    apply Emits_ret. }
  specialize (Hq fs).
  induction (events_of _) as [|e l IH]; [reflexivity|].
  inversion Hq as [|? ? He Hl]; subst.
  cbn [disk_calls filter]. destruct e; cbn in He; try contradiction;
    apply IH, Hl.
Qed.

(** ** Where the outputs go *)

Lemma NoDup_map_filter {A B} (f : A -> B) (g : A -> bool) l :
  NoDup (map f l) -> NoDup (map f (filter g l)).
Proof.
  induction l as [|x r IH]; cbn; intros H; [constructor|].
  inversion H as [|? ? Hx Hr]; subst.
  destruct (g x); cbn; [|apply IH, Hr].
  constructor; [|apply IH, Hr].
  intros Hin. apply Hx. apply in_map_iff in Hin.
  destruct Hin as (y & E & Hy). apply filter_In in Hy.
  apply in_map_iff. exists y. tauto.
Qed.

Lemma glob_names s p suffix fs :
  map path_name (glob s p suffix fs)
  = map fst (filter (fun e => fnmatch_star s (fst e) suffix) (listdir p fs)).
Proof.
  unfold glob. rewrite map_map. apply map_ext. intros e.
  apply path_name_joinpath.
Qed.

Lemma in_glob_names s p suffix fs name :
  In name (map path_name (glob s p suffix fs)) ->
  fnmatch_star s name suffix = true.
Proof.
  rewrite glob_names. intros Hin. apply in_map_iff in Hin.
  destruct Hin as (e & <- & He). apply filter_In in He. tauto.
Qed.

Lemma glob_images_names_NoDup s p fs :
  NoDup (map fst (listdir p fs)) ->
  NoDup (map path_name (glob_images s p fs)).
Proof.
  intros Hnd. unfold glob_images, image_suffixes. cbn [flat_map].
  rewrite app_nil_r, !map_app.
  assert (G : forall suffix, NoDup (map path_name (glob s p suffix fs))).
  { intros suffix. rewrite glob_names. apply NoDup_map_filter, Hnd. }
  assert (D : forall name a b,
            a <> b -> In a image_suffixes -> In b image_suffixes ->
            In name (map path_name (glob s p a fs)) ->
            ~ In name (map path_name (glob s p b fs))).
  { intros name a b Hab Ha Hb H1 H2.
    apply in_glob_names in H1. apply in_glob_names in H2.
    pose proof (image_suffixes_disjoint s name) as Dj. cbn zeta in Dj.
    cbn in Ha, Hb.
    repeat match goal with H : _ \/ _ |- _ => destruct H end;
      subst; try contradiction; rewrite ?H1, ?H2 in Dj;
      repeat match type of Dj with
             | context [fnmatch_star ?x ?y ?z] =>
                 destruct (fnmatch_star x y z)
             end; try contradiction; try discriminate. }
  repeat apply NoDup_app; try apply G; intros name Hin;
    rewrite ?in_app_iff; intros Hin';
    repeat match goal with H : _ \/ _ |- _ => destruct H end;
    match goal with
    | H1 : In name (map path_name (glob s p ?a fs)),
      H2 : In name (map path_name (glob s p ?b fs)) |- _ =>
        revert H2; apply (D name a b);
        [discriminate | cbn; tauto | cbn; tauto | exact H1]
    end.
Qed.

Lemma joinpath_inj p a b : joinpath p a = joinpath p b -> a = b.
Proof.
  unfold joinpath. intros E. apply app_inv_head in E. now injection E.
Qed.

(** In a directory whose entries have distinct names, the images of a
    batch have distinct names and distinct output files, each named like its
    image: no two images of a batch write to the same path. *)
Theorem distinct_images_have_distinct_outputs (h : Host)
  (input_path output_path : Path) (fs : Node) :
  is_file input_path fs = false ->
  NoDup (map fst (listdir input_path fs)) ->
  let images := images_of h input_path fs in
  let out_file img := joinpath output_path (path_name img) in
  NoDup (map path_name images)
  /\ NoDup (map out_file images)
  /\ (forall img, In img images ->
        path_name (out_file img) = path_name img
        /\ path_parent (out_file img) = output_path
        /\ path_parent img = input_path
        /\ is_image (system h) (path_name img) = true).
Proof.
  intros Hfile Hnd images out_file.
  assert (Himgs : images
                  = sorted (system h) (glob_images (system h) input_path fs)).
  { unfold images, images_of. now rewrite Hfile. }
  assert (Hnames : NoDup (map path_name images)).
  { rewrite Himgs. eapply Permutation_NoDup.
    - apply Permutation_map, Permutation_sym, sorted_perm.
    - apply glob_images_names_NoDup, Hnd. }
  split; [exact Hnames|]. split.
  - replace (map out_file images)
      with (map (joinpath output_path) (map path_name images))
      by (rewrite map_map; reflexivity).
    apply NoDup_map_NoDup_ForallPairs; [|exact Hnames].
    intros a b _ _. apply joinpath_inj.
  - intros img Hin. unfold out_file.
    split; [apply path_name_joinpath|].
    split; [apply path_parent_joinpath|].
    rewrite Himgs in Hin.
    apply (Permutation_in _ (sorted_perm _ _)) in Hin.
    unfold glob_images in Hin. apply in_flat_map in Hin.
    destruct Hin as (suffix & Hs & Hin). unfold glob in Hin.
    apply in_map_iff in Hin. destruct Hin as (e & <- & He).
    apply filter_In in He. destruct He as (_ & Hm).
    rewrite path_parent_joinpath, path_name_joinpath.
    split; [reflexivity|]. unfold is_image. apply existsb_exists.
    exists suffix. split; [exact Hs | exact Hm].
Qed.

Lemma distinct_images_have_distinct_outputs_witness :
  NoDup (map (fun img => joinpath ["out"] (path_name img))
             (images_of (sample_host always_ok) ["in"; "ch1"] sample_fs)).
Proof.
  apply (distinct_images_have_distinct_outputs (sample_host always_ok)
           ["in"; "ch1"] ["out"] sample_fs eq_refl).
  cbn. repeat constructor; cbn; intuition discriminate.
Defined.

(** ** An output path that is a file *)

Lemma mkdir_go_on_file : forall p n,
  lookup p n = Some File -> mkdir_go p n = inl FileExistsError.
Proof.
  induction p as [|c p IH]; intros n H; destruct n as [|es]; cbn in *;
    try discriminate; try reflexivity.
  destruct (assoc_get c es) as [ch|]; [|discriminate].
  now rewrite (IH _ H).
Qed.

(** When the output path is an existing file, the batch raises
    [FileExistsError] before anything is run or changed, and so does the
    flat run. *)
Theorem output_path_is_a_file (h : Host) (input_path output_path : Path)
  (qs : option Dict) (pt : option ProgressTracker) (announce : bool)
  (fs : Node) :
  is_file output_path fs = true ->
  run_waifu2x h input_path output_path qs pt fs
  = (Raise (FileExistsError output_path), fs, [])
  /\ result_of (process_flat h input_path output_path qs announce fs)
     = Raise (FileExistsError output_path)
  /\ fs_of (process_flat h input_path output_path qs announce fs) = fs
  /\ runs (events_of (process_flat h input_path output_path qs announce fs))
     = [].
Proof.
  intros Hfile.
  assert (Hmk : mkdir_p output_path fs = inl (FileExistsError output_path)).
  { unfold mkdir_p, is_file in *.
    destruct (lookup output_path fs) as [[|es]|] eqn:Hl; try discriminate.
    now rewrite (mkdir_go_on_file _ _ Hl). }
  assert (Hrun : forall pt',
            run_waifu2x h input_path output_path qs pt' fs
            = (Raise (FileExistsError output_path), fs, [])).
  { intros pt'. unfold run_waifu2x. rewrite bind_change, Hmk. reflexivity. }
  split; [apply Hrun|].
  destruct (process_flat_unfold h input_path output_path qs announce fs)
    as (l & -> & Hr & _).
  rewrite bind_new_tracker, bind_step, Hrun.
  rewrite !result_prepend, !fs_prepend, !events_prepend.
  cbn [result_of fs_of events_of fst snd].
  split; [reflexivity|]. split; [reflexivity|].
  rewrite !runs_app, Hr. unfold ProgressTracker_init. cbn [snd].
  rewrite _display_runs. reflexivity.
Qed.

Lemma output_path_is_a_file_witness :
  result_of (process_flat (sample_host always_ok) ["in"; "ch1"]
               ["in"; "ch2"; "notes.txt"] None true sample_fs)
  = Raise (FileExistsError ["in"; "ch2"; "notes.txt"]).
Proof.
  exact (proj1 (proj2
           (output_path_is_a_file (sample_host always_ok) ["in"; "ch1"]
              ["in"; "ch2"; "notes.txt"] None None true sample_fs
              eq_refl))).
Defined.

(** ** Downloads that fail *)

Lemma write_go_is_file : forall p n n',
  write_go p n = inr n' -> lookup p n' = Some File.
Proof.
  induction p as [|c p IH]; intros n n'; destruct n as [|es]; cbn;
    try discriminate.
  - intros E. injection E as <-. reflexivity.
  - destruct (assoc_get c es) as [ch|] eqn:Hc.
    + destruct (write_go p ch) as [e|ch'] eqn:Hgo; [discriminate|].
      intros E. injection E as <-. cbn. rewrite assoc_get_set_same.
      eapply IH, Hgo.
    + destruct p; [|discriminate]. intros E. injection E as <-. cbn.
      rewrite assoc_get_app, Hc. cbn. now rewrite String.eqb_refl.
Qed.

Lemma write_file_not_root p fs fs1 :
  write_file p fs = inr fs1 -> lookup p fs1 = Some File.
Proof.
  unfold write_file. destruct (write_go p fs) as [e|n'] eqn:H;
    [discriminate|].
  intros E. injection E as <-. eapply write_go_is_file, H.
Qed.

(** After [if p.exists(): p.unlink()] on a path that is no directory,
    the path does not exist. *)
Lemma unlink_if_exists_gone p fs :
  p <> [] ->
  is_dir p fs = false ->
  exists fs',
    unlink_if_exists p fs = (Ok tt, fs', [])
    /\ path_exists p fs' = false.
Proof.
  unfold is_dir, unlink_if_exists, path_exists. intros Hp Hd.
  rewrite bind_ask. unfold path_exists.
  destruct (lookup p fs) as [[|es]|] eqn:Hl; try discriminate.
  - unfold change, unlink. rewrite Hl. eexists. split; [reflexivity|].
    now rewrite lookup_remove_go.
  - exists fs. split; [reflexivity|]. now rewrite Hl.
Qed.

(** On a platform with no release, [download_waifu2x] raises [ModelError]
    without downloading anything; the directory for the executable has been
    made all the same. *)
Theorem download_on_unknown_platform (h : Host) (name : string)
  (fs fs1 : Node) :
  system h = OtherSystem name ->
  mkdir_exist_ok (BIN_DIR h) fs = inr fs1 ->
  download_waifu2x h fs
  = (Raise (ModelError ("Unsupported operating system: " ++ name)), fs1, []).
Proof.
  intros Hsys Hmk. unfold download_waifu2x.
  rewrite bind_change, Hmk, Hsys. reflexivity.
Qed.

Lemma download_on_unknown_platform_witness :
  result_of (download_waifu2x unknown_platform_host sample_fs)
  = Raise (ModelError "Unsupported operating system: FreeBSD").
Proof.
  rewrite (download_on_unknown_platform unknown_platform_host "FreeBSD"
             sample_fs sample_fs eq_refl eq_refl).
  reflexivity.
Defined.

(** When the download ends with an exception, [download_waifu2x] raises
    [ModelError("Download failed: ...")], runs no command, and leaves no
    [waifu2x.zip] behind, whether or not part of it had been written. *)
Theorem failed_download_leaves_no_archive (h : Host) (url exe : string)
  (blocks : list (Z * Z * Z)) (e : Exn) (fs fs1 : Node) :
  release_of (system h) = Some (url, exe) ->
  mkdir_exist_ok (BIN_DIR h) fs = inr fs1 ->
  is_dir (joinpath (BIN_DIR h) "waifu2x.zip") fs1 = false ->
  urlretrieve_blocks h url = (blocks, Some e) ->
  let r := download_waifu2x h fs in
  (exists cause,
      result_of r = Raise (ModelError_from "Download failed: " cause))
  /\ path_exists (joinpath (BIN_DIR h) "waifu2x.zip") (fs_of r) = false
  /\ runs (events_of r) = []
  /\ disk_calls (events_of r) = [].
Proof.
  intros Hrel Hmk Hnd Hurl. cbv zeta. unfold download_waifu2x.
  rewrite bind_change, Hmk, Hrel. repeat rewrite bind_print.
  set (zip_path := joinpath (BIN_DIR h) "waifu2x.zip") in *.
  assert (Hzp : zip_path <> []).
  { unfold zip_path, joinpath. intros E. apply app_eq_nil in E.
    destruct E as (_ & E). discriminate E. }
  destruct (unlink_if_exists_gone zip_path fs1 Hzp Hnd)
    as (fs2 & Hun & Hgone).
  rewrite bind_step, Hun. cbn [result_of fs_of events_of fst snd].
  rewrite prepend_nil, bind_step, try_except_step.
  assert (Hdl : exists cause fs3 ev,
            (urlretrieve h url zip_path ;;;
             print ("   Download complete!" ++ nl)) fs2
            = (Raise cause, fs3, ev)
            /\ is_dir zip_path fs3 = false
            /\ runs ev = [] /\ disk_calls ev = []).
  { unfold urlretrieve. rewrite Hurl.
    assert (Hnd2 : is_dir zip_path fs2 = false).
    { unfold is_dir. unfold path_exists in Hgone.
      destruct (lookup zip_path fs2); [discriminate | reflexivity]. }
    destruct blocks as [|b bl]; cbv beta iota.
    - rewrite bind_step. cbn. eauto 10.
    - rewrite bind_step. rewrite bind_change.
      destruct (write_file zip_path fs2) as [e'|fs3] eqn:Hw.
      + cbn. eauto 10.
      + cbv beta iota. rewrite bind_step.
        destruct (report_blocks_quiet h (b :: bl) false fs3)
          as (Hfs & Hr & Hd & _).
        assert (Hnd3 : is_dir zip_path fs3 = false).
        { unfold is_dir. now rewrite (write_file_not_root _ _ _ Hw). }
        destruct (report_blocks h false (b :: bl) fs3) as [[res fs4] ev4].
        cbn [result_of fs_of events_of fst snd] in *. subst fs4.
        destruct res as [[]|e0].
        * cbn [raise prepend result_of fs_of events_of fst snd].
          exists e, fs3. eexists. split; [reflexivity|].
          split; [exact Hnd3|].
          rewrite !app_nil_r. split; assumption.
        * eexists _, fs3, ev4. split; [reflexivity|].
          split; [exact Hnd3|]. split; assumption. }
  destruct Hdl as (cause & fs3 & ev & -> & Hnd3 & Hr & Hd).
  cbn [result_of fs_of events_of fst snd].
  destruct (unlink_if_exists_gone zip_path fs3 Hzp Hnd3)
    as (fs4 & Hun4 & Hgone4).
  rewrite bind_step, Hun4. cbn [result_of fs_of events_of fst snd raise].
  rewrite !result_prepend, !fs_prepend, !events_prepend.
  cbv beta iota delta [raise result_of fs_of events_of fst snd prepend].
  split; [eauto|]. split; [exact Hgone4|].
  rewrite !app_nil_r, !runs_app, !disk_calls_app, Hr, Hd. split; reflexivity.
Qed.

Lemma failed_download_leaves_no_archive_witness :
  path_exists ["app"; "bin"; "waifu2x.zip"]
    (fs_of (download_waifu2x broken_download_host sample_fs))
  = false.
Proof.
  exact (proj1 (proj2
    (failed_download_leaves_no_archive broken_download_host _ _ _ _
       sample_fs sample_fs eq_refl eq_refl eq_refl eq_refl))).
Defined.

(** From an archive laid out like the release, [download_waifu2x] on an
    empty installation succeeds, [check_waifu2x_installed] then answers
    [(True, "OK")], and neither the archive nor the extraction directory is
    left.  From an archive whose only model directory is [models-upconv_7],
    [download_waifu2x] succeeds just the same, and
    [check_waifu2x_installed] still answers that the models directory
    [models-cunet] is not found. *)
Theorem download_then_check_waifu2x_installed :
  (let h := release_host (archive_with "models-cunet") in
   let r := download_waifu2x h empty_install in
   result_of r = Ok tt
   /\ result_of (check_waifu2x_installed h (fs_of r)) = Ok (true, "OK")
   /\ path_exists (joinpath (BIN_DIR h) "waifu2x.zip") (fs_of r) = false
   /\ path_exists (joinpath (BIN_DIR h) "temp_extract") (fs_of r) = false
   /\ runs (events_of r) = [])
  /\ (let h := release_host (archive_with "models-upconv_7") in
      let r := download_waifu2x h empty_install in
      result_of r = Ok tt
      /\ result_of (check_waifu2x_installed h (fs_of r))
         = Ok (false,
               "Models directory not found: /app/models/waifu2x/models-cunet")).
Proof. vm_compute. repeat split. Qed.
